(** * Blender automation scripts: tunnel generator and render driver

    A shallow embedding of [.blender/generate_tunnel.py] and
    [.blender/render_scene.py].

    Conventions of the embedding.
    - Python [int] is [Z]; Python [float] is idealised as an exact rational
      ([Q], compared with [==]), except where a float is turned into an
      integer: the operand of [round] is computed on IEEE doubles.
    - [math.pi] is the rational value of the double the Python constant
      holds; [math.cos] and [math.sin] are taken as parameters.
    - The host application (bpy) is modelled as explicit state: records for
      the data blocks the scripts read and write, passed from statement to
      statement; a Python exception is a value of type [exn].
    - Memory and time are not modelled: a loop makes as many passes as
      its range has elements, however many.
    - Host functions whose code is outside the repository
      ([bpy.path.relpath], [os.getenv], the modifier's item assignment, the
      naming of data blocks, views and view layers, the default compositor
      nodes, the random floats of the node graph) are Section variables. *)

From Stdlib Require Import PrimFloat.
From Stdlib Require SpecFloat FloatOps.
From Stdlib Require Import ZArith QArith Qround List String Ascii Bool Lia Lqa.
Import ListNotations.

Local Open Scope Z_scope.

(** Python [+] on [str]. *)
Infix "+++" := String.append (right associativity, at level 60).

(* ================================================================== *)
(** * Part I. Python built-ins used by the scripts *)
(* ================================================================== *)

(** [range(n)]. *)
Definition pyrange (n : Z) : list Z :=
  map Z.of_nat (seq 0 (Z.to_nat n)).

(** [round(x)] with one argument: nearest integer, ties to the even one. *)
Definition py_round (x : Q) : Z :=
  let f := Qfloor x in
  match Qcompare (x - inject_Z f) (1 # 2) with
  | Lt => f
  | Gt => f + 1
  | Eq => if Z.even f then f else f + 1
  end.

(** [a / b] on floats: [ZeroDivisionError] is [None]. *)
Definition py_div (a b : Q) : option Q :=
  if Qeq_bool b 0 then None else Some (a / b)%Q.

(** ** Doubles

    [round] turns a float into an [int], and there the rounding of the
    IEEE doubles decides the result: the operands of a [round] are
    computed on binary64 floats, as Python computes them. *)

(** The value of a double; an infinity and a NaN have none. *)
Definition double_value (f : float) : option Q :=
  match FloatOps.Prim2SF f with
  | SpecFloat.S754_zero _ => Some 0%Q
  | SpecFloat.S754_finite s m e =>
      let v := (inject_Z (Z.pos m) * Qpower 2 e)%Q in
      Some (if s then (- v)%Q else v)
  | SpecFloat.S754_infinity _ | SpecFloat.S754_nan => None
  end.

(** [float(n)], which Python applies to an [int] that meets a float in a
    product: the nearest double, ties to even.  An [int] beyond the
    doubles gives an infinity here, where Python raises
    [OverflowError]. *)
Definition float_of_int (n : Z) : float :=
  FloatOps.SF2Prim
    (SpecFloat.binary_normalize FloatOps.prec FloatOps.emax n 0 false).

(** The double of a float that the embedding holds as a rational: the
    rational itself when it is a double, and the nearest double, ties to
    even, otherwise (which is also how Python reads a decimal literal).
    The quotient of numerator and denominator is taken with enough binary
    digits, and rounded with what is left of the division. *)
Definition float_of_Q (x : Q) : float :=
  let p := Z.abs (Qnum x) in
  let q := Z.pos (Qden x) in
  let k := Z.max 0 (FloatOps.prec + 2 + Z.log2 q - Z.log2 p) in
  let m := (p * 2 ^ k) / q in
  let r := (p * 2 ^ k) mod q in
  let l :=
    if r =? 0 then SpecFloat.loc_Exact
    else SpecFloat.loc_Inexact (Z.compare (2 * r) q) in
  FloatOps.SF2Prim
    (SpecFloat.binary_round_aux FloatOps.prec FloatOps.emax
       (Qnum x <? 0) m (- k) l).

(** [round(x)] on a double, with one argument; [None] when Python
    raises: [OverflowError] on an infinity, [ValueError] on a NaN. *)
Definition py_round_double (x : float) : option Z :=
  option_map py_round (double_value x).

(** [math.pi]: the double 0x400921FB54442D18. *)
Definition math_pi : Q := 884279719003555 # 281474976710656.

(** [math.radians(x)]: [x * (pi / 180)]. *)
Definition math_radians (x : Q) : Q := (x * (math_pi / 180))%Q.

(* ================================================================== *)
(** * Part II. generate_tunnel.py *)
(* ================================================================== *)

(** ** User settings (lines 7-33) *)

Record Settings := {
  inner_radius : Q;
  thickness : Q;
  ring_length : Q;
  full_circle_res : Z;
  regular_count : Z;
  key_angle_factor : Q;
  bolt_angle_frac : Q;
  bolt_radius : Q;
  bolt_depth_frac : Q;
  handle_angle_frac : Q;
  handle_width_tan : Q;
  handle_height_tan : Q;
  handle_depth_frac : Q;
  handle_diagonal_deg : Q;
  gn_ring_count : Z;
  gn_ring_spacing : Q;
  gn_rot_jitter_deg : Z;
  gn_pos_jitter : Q;
  gn_seed : Z
}.

(** The values written in the script. *)
Definition user_settings : Settings := {|
  inner_radius := 2.45;
  thickness := 0.30;
  ring_length := 1.5;
  full_circle_res := 128;
  regular_count := 5;
  key_angle_factor := 0.6;
  bolt_angle_frac := 0.30;
  bolt_radius := 0.10;
  bolt_depth_frac := 0.35;
  handle_angle_frac := 0.45;
  handle_width_tan := 0.45;
  handle_height_tan := 0.18;
  handle_depth_frac := 0.30;
  handle_diagonal_deg := 15.0;
  gn_ring_count := 10;
  gn_ring_spacing := 1.5;
  gn_rot_jitter_deg := 40;
  gn_pos_jitter := 0.01;
  gn_seed := 27
|}.

(** ** Derived angles (lines 38-39) *)

(** [regular_angle_deg = 360.0 / (regular_count + key_angle_factor)] *)
Definition regular_angle_deg (cfg : Settings) : option Q :=
  py_div 360 (inject_Z (regular_count cfg) + key_angle_factor cfg)%Q.

(** [key_angle_deg = regular_angle_deg * key_angle_factor] *)
Definition key_angle_deg (cfg : Settings) : option Q :=
  match regular_angle_deg cfg with
  | Some ra => Some (ra * key_angle_factor cfg)%Q
  | None => None
  end.

(** The same two lines on IEEE doubles, which is what Python computes
    with; [regular_count] is converted to a double by the addition. *)
Definition regular_angle_deg_double (regular_count key_angle_factor : float)
  : float :=
  (360 / (regular_count + key_angle_factor))%float.

Definition key_angle_deg_double (regular_count key_angle_factor : float)
  : float :=
  (regular_angle_deg_double regular_count key_angle_factor
   * key_angle_factor)%float.

(** ** Segment template (lines 114-162) *)

Definition Vert : Type := Q * Q * Q.
Definition Face : Type := Z * Z * Z * Z.

Record SegmentMesh := {
  seg_name : string;
  seg_mesh_name : string;
  seg_steps : Z;
  seg_verts : list Vert;
  seg_faces : list Face;
  seg_use_smooth : bool
}.

(** [full_circle_res * angle_deg / 360.0] of line 117, on doubles:
    [full_circle_res] is an [int] and becomes a double in the product. *)
Definition steps_quotient (cfg : Settings) (angle_deg : Q) : float :=
  (float_of_int (full_circle_res cfg) * float_of_Q angle_deg / 360)%float.

(** [steps = max(8, round(full_circle_res * angle_deg / 360.0))];
    [None] when [round] raises. *)
Definition segment_steps (cfg : Settings) (angle_deg : Q) : option Z :=
  option_map (Z.max 8) (py_round_double (steps_quotient cfg angle_deg)).

Section SegmentMesh.

Variables math_cos math_sin : Q -> Q.
Variable cfg : Settings.

(** One pass of the first loop: the four vertices of step [i]. *)
Definition ring_verts (steps : Z) (start end_ : Q) (i : Z) : list Vert :=
  let r_in := inner_radius cfg in
  let r_out := (inner_radius cfg + thickness cfg)%Q in
  let y0 := (- ring_length cfg / 2)%Q in
  let y1 := (ring_length cfg / 2)%Q in
  let t := (start + (end_ - start) * (inject_Z i / inject_Z steps))%Q in
  let c := math_cos t in
  let s := math_sin t in
  [ (r_in * c, y0, r_in * s)%Q;
    (r_out * c, y0, r_out * s)%Q;
    (r_in * c, y1, r_in * s)%Q;
    (r_out * c, y1, r_out * s)%Q ].

(** One pass of the second loop: the four side quads between steps
    [i] and [i + 1]. *)
Definition ring_faces (i : Z) : list Face :=
  let b0 := i * 4 in
  let b1 := (i + 1) * 4 in
  [ (b0, b1, b1 + 2, b0 + 2);
    (b0 + 1, b0 + 3, b1 + 3, b1 + 1);
    (b0, b0 + 1, b1 + 1, b1);
    (b0 + 2, b1 + 2, b1 + 3, b0 + 3) ].

(** [None] when line 117 raises. *)
Definition make_segment_mesh (name : string) (angle_deg : Q)
  : option SegmentMesh :=
  match segment_steps cfg angle_deg with
  | None => None
  | Some steps =>
      let a_rad := math_radians angle_deg in
      let start := (- a_rad / 2)%Q in
      let end_ := (a_rad / 2)%Q in
      let verts :=
        fold_left (fun verts i => verts ++ ring_verts steps start end_ i)
          (pyrange (steps + 1)) [] in
      let faces :=
        fold_left (fun faces i => faces ++ ring_faces i) (pyrange steps) [] in
      let last := steps * 4 in
      let faces := faces ++ [ (0, 2, 3, 1) ] in
      let faces := faces ++ [ (last, last + 1, last + 3, last + 2) ] in
      Some
        {| seg_name := name;
           seg_mesh_name := name +++ "_Mesh";
           seg_steps := steps;
           seg_verts := verts;
           seg_faces := faces;
           seg_use_smooth := false |}
  end.

End SegmentMesh.

(** The four indices of a face are indices of a list of [n] vertices. *)
Definition face_in_range (n : Z) (f : Face) : Prop :=
  let '(a, b, c, d) := f in
  0 <= a < n /\ 0 <= b < n /\ 0 <= c < n /\ 0 <= d < n.

(* ================================================================== *)
(** * Part III. Statements with state and exceptions *)
(* ================================================================== *)

(** The exceptions the scripts can meet; all are subclasses of Python's
    [Exception].  Each carries its message ([str(e)]). *)
Inductive exn :=
| IndexError (msg : string)
| KeyError (msg : string)
| TypeError (msg : string)
| AttributeError (msg : string)
| ReferenceError (msg : string)
| RuntimeError (msg : string).

Definition exn_str (e : exn) : string :=
  match e with
  | IndexError m | KeyError m | TypeError m
  | AttributeError m | ReferenceError m | RuntimeError m => m
  end.

(** A statement either completes with a value or raises; in both cases
    the mutations done so far stay in the state. *)
Inductive result (S A : Type) :=
| Done (a : A) (s : S)
| Raised (e : exn) (s : S).

Arguments Done {S A} a s.
Arguments Raised {S A} e s.

Definition M (S A : Type) : Type := S -> result S A.

Definition ret {S A} (a : A) : M S A := fun s => Done a s.

Definition bind {S A B} (c : M S A) (k : A -> M S B) : M S B :=
  fun s =>
    match c s with
    | Done a s' => k a s'
    | Raised e s' => Raised e s'
    end.

Definition raise {S A} (e : exn) : M S A := fun s => Raised e s.
Definition get {S} : M S S := fun s => Done s s.
Definition put {S} (s : S) : M S unit := fun _ => Done tt s.
Definition modify {S} (f : S -> S) : M S unit := fun s => Done tt (f s).

(** [try: body  except Exception as e: handler(e)] *)
Definition try_except {S A} (body : M S A) (handler : exn -> M S A) : M S A :=
  fun s =>
    match body s with
    | Done a s' => Done a s'
    | Raised e s' => handler e s'
    end.

(** [for x in xs: body(x)], where [xs] is already a list (a snapshot). *)
Fixpoint for_each {S X} (xs : list X) (body : X -> M S unit) : M S unit :=
  match xs with
  | [] => ret tt
  | x :: rest => bind (body x) (fun _ => for_each rest body)
  end.

Notation "x <- c1 ;; c2" := (bind c1 (fun x => c2))
  (at level 61, c1 at next level, right associativity).
Notation "c1 ;; c2" := (bind c1 (fun _ => c2))
  (at level 61, right associativity).

Definition final_state {S A} (r : result S A) : S :=
  match r with Done _ s | Raised _ s => s end.

(** [keeps R c]: however [c] ends, the state it leaves is related by [R]
    to the one it started from. *)
Definition keeps {S A} (R : S -> S -> Prop) (c : M S A) : Prop :=
  forall s, R s (final_state (c s)).

Definition raised {S A} (r : result S A) : option exn :=
  match r with Done _ _ => None | Raised e _ => Some e end.

(** One pass of a loop that removes the item named [k] when [kill] says
    so and leaves the state alone otherwise. *)
Definition sweep_step {S} (kill : S -> string -> bool)
    (drop : string -> S -> S) (s : S) (k : string) : S :=
  if kill s k then drop k s else s.

(** [xs[i]] on a Python list, for [i >= 0]. *)
Definition py_index {S A} (xs : list A) (i : nat) : M S A :=
  match nth_error xs i with
  | Some x => ret x
  | None => raise (IndexError "list index out of range")
  end.

(* ================================================================== *)
(** * Part IV. The geometry-node graph (lines 297-538) *)
(* ================================================================== *)

(** A socket is addressed by name ([inputs["Count"]]) or by position
    ([inputs[1]]), as the script writes it. *)
Inductive SockRef :=
| ByName (name : string)
| ByIndex (i : nat).

Inductive SockVal :=
| VInt (z : Z)
| VFloat (q : Q).

Record Node := {
  node_type : string;
  node_location : Z * Z;
  node_attrs : list (string * string);
  node_defaults : list (SockRef * SockVal)
}.

Record Link := {
  from_node : nat;
  from_socket : SockRef;
  to_node : nat;
  to_socket : SockRef
}.

Record IfaceSocket := {
  sock_name : string;
  sock_in_out : string;
  sock_type : string;
  sock_identifier : string;
  sock_default : option SockVal
}.

Record NodeTree := {
  nt_name : string;
  nt_type : string;
  nt_interface : list IfaceSocket;
  nt_nodes : list Node;
  nt_links : list Link
}.

Definition sockref_eqb (a b : SockRef) : bool :=
  match a, b with
  | ByName x, ByName y => String.eqb x y
  | ByIndex i, ByIndex j => Nat.eqb i j
  | _, _ => false
  end.

(** [bpy.data.node_groups.new(name, type)] *)
Definition node_groups_new (name type : string) : NodeTree :=
  {| nt_name := name; nt_type := type;
     nt_interface := []; nt_nodes := []; nt_links := [] |}.

Definition with_nodes (g : NodeTree) (ns : list Node) : NodeTree :=
  {| nt_name := nt_name g; nt_type := nt_type g;
     nt_interface := nt_interface g; nt_nodes := ns;
     nt_links := nt_links g |}.

Definition with_links (g : NodeTree) (ls : list Link) : NodeTree :=
  {| nt_name := nt_name g; nt_type := nt_type g;
     nt_interface := nt_interface g; nt_nodes := nt_nodes g;
     nt_links := ls |}.

Definition with_interface (g : NodeTree) (i : list IfaceSocket) : NodeTree :=
  {| nt_name := nt_name g; nt_type := nt_type g;
     nt_interface := i; nt_nodes := nt_nodes g;
     nt_links := nt_links g |}.

(** [nodes.new(type)]: the new node is appended; its handle is its
    position. *)
Definition nodes_new (type : string) : M NodeTree nat :=
  fun g =>
    Done (List.length (nt_nodes g))
      (with_nodes g
         (nt_nodes g ++
          [ {| node_type := type; node_location := (0, 0);
               node_attrs := []; node_defaults := [] |} ])).

(** [nodes.clear()] *)
Definition nodes_clear : M NodeTree unit :=
  modify (fun g => with_links (with_nodes g []) []).

Fixpoint update_nth {A} (n : nat) (f : A -> A) (l : list A) : list A :=
  match l, n with
  | [], _ => []
  | x :: r, O => f x :: r
  | x :: r, S k => x :: update_nth k f r
  end.

Definition update_node (n : nat) (f : Node -> Node) : M NodeTree unit :=
  modify (fun g => with_nodes g (update_nth n f (nt_nodes g))).

(** [node.location = (x, y)] *)
Definition set_location (n : nat) (loc : Z * Z) : M NodeTree unit :=
  update_node n (fun nd =>
    {| node_type := node_type nd; node_location := loc;
       node_attrs := node_attrs nd; node_defaults := node_defaults nd |}).

(** [node.<attr> = value] for the string-valued attributes
    ([operation], [transform_space], [data_type]). *)
Definition set_attr (n : nat) (attr value : string) : M NodeTree unit :=
  update_node n (fun nd =>
    {| node_type := node_type nd; node_location := node_location nd;
       node_attrs :=
         (attr, value)
         :: filter (fun kv => negb (String.eqb (fst kv) attr)) (node_attrs nd);
       node_defaults := node_defaults nd |}).

(** [node.inputs[s].default_value = v] *)
Definition set_default (n : nat) (s : SockRef) (v : SockVal)
  : M NodeTree unit :=
  update_node n (fun nd =>
    {| node_type := node_type nd; node_location := node_location nd;
       node_attrs := node_attrs nd;
       node_defaults :=
         (s, v)
         :: filter (fun kv => negb (sockref_eqb (fst kv) s))
              (node_defaults nd) |}).

(** [links.new(a.outputs[s], b.inputs[t])] *)
Definition links_new (a : nat) (s : SockRef) (b : nat) (t : SockRef)
  : M NodeTree unit :=
  modify (fun g =>
    with_links g
      (nt_links g ++
       [ {| from_node := a; from_socket := s;
            to_node := b; to_socket := t |} ])).

Section Interface.

(** The identifier the host gives to the [k]-th interface socket it
    creates. *)
Variable host_identifier : nat -> string.

(** Where the host puts a new socket among the items of the interface:
    it keeps the outputs above the inputs, so that an output goes in
    front of the first input and an input goes last. *)
Fixpoint insert_socket (s : IfaceSocket) (items : list IfaceSocket)
  : list IfaceSocket :=
  match items with
  | [] => [ s ]
  | x :: rest =>
      if String.eqb (sock_in_out s) "OUTPUT"
         && String.eqb (sock_in_out x) "INPUT"
      then s :: x :: rest
      else x :: insert_socket s rest
  end.

(** [iface.new_socket(name=..., in_out=..., socket_type=...)] *)
Definition new_socket (name in_out stype : string) : M NodeTree unit :=
  modify (fun g =>
    with_interface g
      (insert_socket
         {| sock_name := name; sock_in_out := in_out; sock_type := stype;
            sock_identifier := host_identifier (List.length (nt_interface g));
            sock_default := None |}
         (nt_interface g))).

Definition make_in (name stype : string) : M NodeTree unit :=
  new_socket name "INPUT" stype.

Definition make_out (name stype : string) : M NodeTree unit :=
  new_socket name "OUTPUT" stype.

(** Lines 312-319. *)
Definition build_interface : M NodeTree unit :=
  make_in "Segment (Regular)" "NodeSocketObject" ;;
  make_in "Segment (Key)" "NodeSocketObject" ;;
  make_in "Ring Count" "NodeSocketInt" ;;
  make_in "Ring Spacing" "NodeSocketFloat" ;;
  make_in "Rot Jitter Deg" "NodeSocketFloat" ;;
  make_in "Pos Jitter" "NodeSocketFloat" ;;
  make_in "Seed" "NodeSocketInt" ;;
  make_out "Geometry" "NodeSocketGeometry".

End Interface.

(** The node variables of the script that later parts refer to. *)
Record GraphVars := {
  v_group_in : nat;
  v_group_out : nat;
  v_mesh_line_reg : nat;
  v_angle_reg : nat;
  v_rot_vec_reg : nat;
  v_inst_reg : nat;
  v_mesh_line_key : nat;
  v_rot_vec_key : nat;
  v_inst_key : nat;
  v_realize_ring : nat;
  v_inst_rings : nat;
  v_realize_final : nat
}.

Section BuildGraph.

Variable cfg : Settings.
(** The module-level [regular_angle_deg] and [key_angle_deg]. *)
Variables regular_angle key_angle : Q.

(** STEP 1 (lines 331-339): object-info nodes of the two templates. *)
Definition step1_object_info (group_in : nat) : M NodeTree (nat * nat) :=
  obj_info_reg <- nodes_new "GeometryNodeObjectInfo" ;;
  set_location obj_info_reg (-1200, 200) ;;
  set_attr obj_info_reg "transform_space" "RELATIVE" ;;
  links_new group_in (ByIndex 0) obj_info_reg (ByName "Object") ;;
  obj_info_key <- nodes_new "GeometryNodeObjectInfo" ;;
  set_location obj_info_key (-1200, -100) ;;
  set_attr obj_info_key "transform_space" "RELATIVE" ;;
  links_new group_in (ByIndex 1) obj_info_key (ByName "Object") ;;
  ret (obj_info_reg, obj_info_key).

(** STEP 2 (lines 343-392): the regular segments around the circle. *)
Definition step2_regular (obj_info_reg : nat)
  : M NodeTree (nat * nat * nat * nat) :=
  mesh_line_reg <- nodes_new "GeometryNodeMeshLine" ;;
  set_location mesh_line_reg (-1000, 400) ;;
  set_default mesh_line_reg (ByName "Count") (VInt (regular_count cfg)) ;;
  set_pos_reg <- nodes_new "GeometryNodeSetPosition" ;;
  set_location set_pos_reg (-800, 400) ;;
  links_new mesh_line_reg (ByName "Mesh") set_pos_reg (ByName "Geometry") ;;
  origin_vec_reg <- nodes_new "ShaderNodeCombineXYZ" ;;
  set_location origin_vec_reg (-800, 350) ;;
  set_default origin_vec_reg (ByIndex 0) (VFloat 0) ;;
  set_default origin_vec_reg (ByIndex 1) (VFloat 0) ;;
  set_default origin_vec_reg (ByIndex 2) (VFloat 0) ;;
  links_new origin_vec_reg (ByName "Vector") set_pos_reg (ByName "Position") ;;
  index_reg <- nodes_new "GeometryNodeInputIndex" ;;
  set_location index_reg (-1000, 300) ;;
  add_half <- nodes_new "ShaderNodeMath" ;;
  set_attr add_half "operation" "ADD" ;;
  set_location add_half (-600, 300) ;;
  set_default add_half (ByIndex 1) (VFloat 0.5) ;;
  links_new index_reg (ByName "Index") add_half (ByIndex 0) ;;
  angle_reg <- nodes_new "ShaderNodeMath" ;;
  set_attr angle_reg "operation" "MULTIPLY" ;;
  set_location angle_reg (-400, 300) ;;
  set_default angle_reg (ByIndex 1) (VFloat (math_radians regular_angle)) ;;
  links_new add_half (ByName "Value") angle_reg (ByIndex 0) ;;
  rot_vec_reg <- nodes_new "ShaderNodeCombineXYZ" ;;
  set_location rot_vec_reg (-200, 300) ;;
  links_new angle_reg (ByName "Value") rot_vec_reg (ByIndex 1) ;;
  inst_reg <- nodes_new "GeometryNodeInstanceOnPoints" ;;
  set_location inst_reg (0, 400) ;;
  links_new set_pos_reg (ByName "Geometry") inst_reg (ByName "Points") ;;
  links_new obj_info_reg (ByName "Geometry") inst_reg (ByName "Instance") ;;
  links_new rot_vec_reg (ByName "Vector") inst_reg (ByName "Rotation") ;;
  ret (mesh_line_reg, angle_reg, rot_vec_reg, inst_reg).

(** Line 412. *)
Definition key_rot_angle : Q :=
  math_radians
    (inject_Z (regular_count cfg) * regular_angle + key_angle / 2)%Q.

(** STEP 3 (lines 395-423): the key segment. *)
Definition step3_key (obj_info_key : nat) : M NodeTree (nat * nat * nat) :=
  mesh_line_key <- nodes_new "GeometryNodeMeshLine" ;;
  set_location mesh_line_key (-1000, 0) ;;
  set_default mesh_line_key (ByName "Count") (VInt 1) ;;
  set_pos_key <- nodes_new "GeometryNodeSetPosition" ;;
  set_location set_pos_key (-800, 0) ;;
  links_new mesh_line_key (ByName "Mesh") set_pos_key (ByName "Geometry") ;;
  origin_vec_key <- nodes_new "ShaderNodeCombineXYZ" ;;
  set_location origin_vec_key (-800, -50) ;;
  set_default origin_vec_key (ByIndex 0) (VFloat 0) ;;
  set_default origin_vec_key (ByIndex 1) (VFloat 0) ;;
  set_default origin_vec_key (ByIndex 2) (VFloat 0) ;;
  links_new origin_vec_key (ByName "Vector") set_pos_key (ByName "Position") ;;
  rot_vec_key <- nodes_new "ShaderNodeCombineXYZ" ;;
  set_location rot_vec_key (-200, 0) ;;
  set_default rot_vec_key (ByIndex 1) (VFloat key_rot_angle) ;;
  inst_key <- nodes_new "GeometryNodeInstanceOnPoints" ;;
  set_location inst_key (0, 0) ;;
  links_new set_pos_key (ByName "Geometry") inst_key (ByName "Points") ;;
  links_new obj_info_key (ByName "Geometry") inst_key (ByName "Instance") ;;
  links_new rot_vec_key (ByName "Vector") inst_key (ByName "Rotation") ;;
  ret (mesh_line_key, rot_vec_key, inst_key).

(** STEP 4 (lines 426-433): join and realize one ring. *)
Definition step4_ring (inst_reg inst_key : nat) : M NodeTree nat :=
  join_ring <- nodes_new "GeometryNodeJoinGeometry" ;;
  set_location join_ring (200, 200) ;;
  links_new inst_reg (ByName "Instances") join_ring (ByName "Geometry") ;;
  links_new inst_key (ByName "Instances") join_ring (ByName "Geometry") ;;
  realize_ring <- nodes_new "GeometryNodeRealizeInstances" ;;
  set_location realize_ring (200, 200) ;;
  links_new join_ring (ByName "Geometry") realize_ring (ByName "Geometry") ;;
  ret realize_ring.

(** STEP 5 (lines 436-466): rings along Y+. *)
Definition step5_rings (group_in realize_ring : nat) : M NodeTree nat :=
  mesh_line_y <- nodes_new "GeometryNodeMeshLine" ;;
  set_location mesh_line_y (400, 400) ;;
  links_new group_in (ByIndex 2) mesh_line_y (ByName "Count") ;;
  index_y <- nodes_new "GeometryNodeInputIndex" ;;
  set_location index_y (400, 300) ;;
  mul_spacing <- nodes_new "ShaderNodeMath" ;;
  set_attr mul_spacing "operation" "MULTIPLY" ;;
  set_location mul_spacing (600, 300) ;;
  links_new index_y (ByName "Index") mul_spacing (ByIndex 0) ;;
  links_new group_in (ByIndex 3) mul_spacing (ByIndex 1) ;;
  pos_y <- nodes_new "ShaderNodeCombineXYZ" ;;
  set_location pos_y (800, 300) ;;
  set_default pos_y (ByIndex 0) (VFloat 0) ;;
  set_default pos_y (ByIndex 2) (VFloat 0) ;;
  links_new mul_spacing (ByName "Value") pos_y (ByIndex 1) ;;
  set_pos_y <- nodes_new "GeometryNodeSetPosition" ;;
  set_location set_pos_y (600, 400) ;;
  links_new mesh_line_y (ByName "Mesh") set_pos_y (ByName "Geometry") ;;
  links_new pos_y (ByName "Vector") set_pos_y (ByName "Position") ;;
  inst_rings <- nodes_new "GeometryNodeInstanceOnPoints" ;;
  set_location inst_rings (800, 200) ;;
  links_new set_pos_y (ByName "Geometry") inst_rings (ByName "Points") ;;
  links_new realize_ring (ByName "Geometry") inst_rings (ByName "Instance") ;;
  ret inst_rings.

(** STEP 6 (lines 469-495): rotation jitter. *)
Definition step6_rot_jitter (group_in inst_rings : nat) : M NodeTree nat :=
  rot_neg <- nodes_new "ShaderNodeMath" ;;
  set_attr rot_neg "operation" "MULTIPLY" ;;
  set_location rot_neg (400, -100) ;;
  set_default rot_neg (ByIndex 1) (VFloat (-1)) ;;
  links_new group_in (ByIndex 4) rot_neg (ByIndex 0) ;;
  rand_rot <- nodes_new "FunctionNodeRandomValue" ;;
  set_attr rand_rot "data_type" "FLOAT" ;;
  set_location rand_rot (600, -100) ;;
  links_new rot_neg (ByName "Value") rand_rot (ByName "Min") ;;
  links_new group_in (ByIndex 4) rand_rot (ByName "Max") ;;
  links_new group_in (ByIndex 6) rand_rot (ByName "Seed") ;;
  deg2rad <- nodes_new "ShaderNodeMath" ;;
  set_attr deg2rad "operation" "MULTIPLY" ;;
  set_location deg2rad (800, -100) ;;
  set_default deg2rad (ByIndex 1) (VFloat (math_pi / 180)) ;;
  links_new rand_rot (ByName "Value") deg2rad (ByIndex 0) ;;
  rot_jitter_vec <- nodes_new "ShaderNodeCombineXYZ" ;;
  set_location rot_jitter_vec (1000, -100) ;;
  links_new deg2rad (ByName "Value") rot_jitter_vec (ByIndex 1) ;;
  rot_rings <- nodes_new "GeometryNodeRotateInstances" ;;
  set_location rot_rings (1000, 200) ;;
  links_new inst_rings (ByName "Instances") rot_rings (ByName "Instances") ;;
  links_new rot_jitter_vec (ByName "Vector") rot_rings (ByName "Rotation") ;;
  ret rot_rings.

(** STEP 7 (lines 498-518): position jitter. *)
Definition step7_pos_jitter (group_in rot_rings : nat) : M NodeTree nat :=
  pos_neg <- nodes_new "ShaderNodeMath" ;;
  set_attr pos_neg "operation" "MULTIPLY" ;;
  set_location pos_neg (400, -200) ;;
  set_default pos_neg (ByIndex 1) (VFloat (-1)) ;;
  links_new group_in (ByIndex 5) pos_neg (ByIndex 0) ;;
  rand_pos <- nodes_new "FunctionNodeRandomValue" ;;
  set_attr rand_pos "data_type" "FLOAT" ;;
  set_location rand_pos (600, -200) ;;
  links_new pos_neg (ByName "Value") rand_pos (ByName "Min") ;;
  links_new group_in (ByIndex 5) rand_pos (ByName "Max") ;;
  links_new group_in (ByIndex 6) rand_pos (ByName "Seed") ;;
  pos_jitter_vec <- nodes_new "ShaderNodeCombineXYZ" ;;
  set_location pos_jitter_vec (1000, -200) ;;
  links_new rand_pos (ByName "Value") pos_jitter_vec (ByIndex 1) ;;
  jitter_pos <- nodes_new "GeometryNodeSetPosition" ;;
  set_location jitter_pos (1200, 200) ;;
  links_new rot_rings (ByName "Instances") jitter_pos (ByName "Geometry") ;;
  links_new pos_jitter_vec (ByName "Vector") jitter_pos (ByName "Offset") ;;
  ret jitter_pos.

(** Output (lines 521-524). *)
Definition step_output (group_out jitter_pos : nat) : M NodeTree nat :=
  realize_final <- nodes_new "GeometryNodeRealizeInstances" ;;
  set_location realize_final (1200, 100) ;;
  links_new jitter_pos (ByName "Geometry") realize_final (ByName "Geometry") ;;
  links_new realize_final (ByName "Geometry") group_out (ByName "Geometry") ;;
  ret realize_final.

(** Set defaults (lines 527-538): one pass over [iface.items_tree]. *)
Definition set_socket_default (s : IfaceSocket) : IfaceSocket :=
  let with_default v :=
    {| sock_name := sock_name s; sock_in_out := sock_in_out s;
       sock_type := sock_type s; sock_identifier := sock_identifier s;
       sock_default := Some v |} in
  if String.eqb (sock_in_out s) "INPUT" then
    if String.eqb (sock_name s) "Ring Count" then
      with_default (VInt (gn_ring_count cfg))
    else if String.eqb (sock_name s) "Ring Spacing" then
      with_default (VFloat (gn_ring_spacing cfg))
    else if String.eqb (sock_name s) "Rot Jitter Deg" then
      with_default (VInt (gn_rot_jitter_deg cfg))
    else if String.eqb (sock_name s) "Pos Jitter" then
      with_default (VFloat (gn_pos_jitter cfg))
    else if String.eqb (sock_name s) "Seed" then
      with_default (VInt (gn_seed cfg))
    else s
  else s.

Definition set_defaults : M NodeTree unit :=
  modify (fun g => with_interface g (map set_socket_default (nt_interface g))).

Variable host_identifier : nat -> string.

(** Lines 302-538 in order. *)
Definition build_tunnel_graph : M NodeTree GraphVars :=
  build_interface host_identifier ;;
  nodes_clear ;;
  group_in <- nodes_new "NodeGroupInput" ;;
  group_out <- nodes_new "NodeGroupOutput" ;;
  set_location group_in (-1400, 0) ;;
  set_location group_out (1400, 0) ;;
  infos <- step1_object_info group_in ;;
  let '(obj_info_reg, obj_info_key) := infos in
  regs <- step2_regular obj_info_reg ;;
  let '(mesh_line_reg, angle_reg, rot_vec_reg, inst_reg) := regs in
  keys <- step3_key obj_info_key ;;
  let '(mesh_line_key, rot_vec_key, inst_key) := keys in
  realize_ring <- step4_ring inst_reg inst_key ;;
  inst_rings <- step5_rings group_in realize_ring ;;
  rot_rings <- step6_rot_jitter group_in inst_rings ;;
  jitter_pos <- step7_pos_jitter group_in rot_rings ;;
  realize_final <- step_output group_out jitter_pos ;;
  set_defaults ;;
  ret {| v_group_in := group_in; v_group_out := group_out;
         v_mesh_line_reg := mesh_line_reg; v_angle_reg := angle_reg;
         v_rot_vec_reg := rot_vec_reg; v_inst_reg := inst_reg;
         v_mesh_line_key := mesh_line_key; v_rot_vec_key := rot_vec_key;
         v_inst_key := inst_key; v_realize_ring := realize_ring;
         v_inst_rings := inst_rings; v_realize_final := realize_final |}.

End BuildGraph.

(** The script from the derived angles to the finished node group: it
    stops with [ZeroDivisionError] (here [None]) when
    [regular_count + key_angle_factor] is zero. *)
Definition tunnel_node_group (host_identifier : nat -> string)
    (cfg : Settings) : option (GraphVars * NodeTree) :=
  match regular_angle_deg cfg, key_angle_deg cfg with
  | Some ra, Some ka =>
      match build_tunnel_graph cfg ra ka host_identifier
              (node_groups_new "TBM_TunnelProcedural" "GeometryNodeTree") with
      | Done vars g => Some (vars, g)
      | Raised _ _ => None
      end
  | _, _ => None
  end.

(** ** What the host computes from the part of the graph that places
    the segments

    The meaning of the node types involved, as the host documents them:
    a Mesh Line with [Count = n] yields points with indices [0 .. n-1];
    Set Position keeps the points and their indices; Index is the index
    of the element a field is evaluated on; Math [ADD] and [MULTIPLY]
    add and multiply their first two inputs; Combine XYZ builds a vector
    from its three inputs; Instance on Points evaluates its Rotation
    input once per point.  An input takes the value of the link that
    enters it, else the [default_value] the script wrote; a default the
    script never wrote is the host's and is not modelled ([None]). *)

Definition find_link (g : NodeTree) (n : nat) (s : SockRef) : option Link :=
  find (fun l => Nat.eqb (to_node l) n && sockref_eqb (to_socket l) s)
    (nt_links g).

Definition lookup_default (nd : Node) (s : SockRef) : option SockVal :=
  match find (fun kv => sockref_eqb (fst kv) s) (node_defaults nd) with
  | Some kv => Some (snd kv)
  | None => None
  end.

Definition lookup_attr (nd : Node) (attr : string) : option string :=
  match find (fun kv => String.eqb (fst kv) attr) (node_attrs nd) with
  | Some kv => Some (snd kv)
  | None => None
  end.

Definition sockval_float (v : SockVal) : Q :=
  match v with
  | VInt z => inject_Z z
  | VFloat q => q
  end.

(** The float that arrives at input [s] of node [n] for the element of
    index [i]. *)
Fixpoint eval_field (fuel : nat) (g : NodeTree) (n : nat) (s : SockRef)
    (i : Z) : option Q :=
  match fuel with
  | O => None
  | S fuel' =>
      match find_link g n s with
      | None =>
          match nth_error (nt_nodes g) n with
          | Some nd => option_map sockval_float (lookup_default nd s)
          | None => None
          end
      | Some l =>
          let m := from_node l in
          match nth_error (nt_nodes g) m with
          | None => None
          | Some src =>
              if String.eqb (node_type src) "GeometryNodeInputIndex" then
                Some (inject_Z i)
              else if String.eqb (node_type src) "ShaderNodeMath" then
                match eval_field fuel' g m (ByIndex 0) i,
                      eval_field fuel' g m (ByIndex 1) i,
                      lookup_attr src "operation" with
                | Some a, Some b, Some op =>
                    if String.eqb op "ADD" then Some (a + b)%Q
                    else if String.eqb op "MULTIPLY" then Some (a * b)%Q
                    else None
                | _, _, _ => None
                end
              else None
          end
      end
  end.

(** The number of points that arrive at geometry input [s] of node [n]. *)
Fixpoint geo_points (fuel : nat) (g : NodeTree) (n : nat) (s : SockRef)
    : option Z :=
  match fuel with
  | O => None
  | S fuel' =>
      match find_link g n s with
      | None => None
      | Some l =>
          let m := from_node l in
          match nth_error (nt_nodes g) m with
          | None => None
          | Some src =>
              if String.eqb (node_type src) "GeometryNodeMeshLine" then
                match find_link g m (ByName "Count"),
                      lookup_default src (ByName "Count") with
                | None, Some (VInt c) => Some c
                | _, _ => None
                end
              else if String.eqb (node_type src) "GeometryNodeSetPosition"
              then geo_points fuel' g m (ByName "Geometry")
              else None
          end
      end
  end.

Fixpoint all_some {A} (l : list (option A)) : option (list A) :=
  match l with
  | [] => Some []
  | Some x :: r =>
      match all_some r with Some xs => Some (x :: xs) | None => None end
  | None :: _ => None
  end.

(** The rotation about the tunnel axis (Y) of every instance that the
    Instance-on-Points node [inst] makes, in point order. *)
Definition instance_rotations (g : NodeTree) (inst : nat)
    : option (list Q) :=
  let fuel := S (List.length (nt_nodes g)) in
  match geo_points fuel g inst (ByName "Points"),
        find_link g inst (ByName "Rotation") with
  | Some count, Some l =>
      match nth_error (nt_nodes g) (from_node l) with
      | Some src =>
          if String.eqb (node_type src) "ShaderNodeCombineXYZ" then
            all_some
              (map (eval_field fuel g (from_node l) (ByIndex 1))
                 (pyrange count))
          else None
      | None => None
      end
  | _, _ => None
  end.

(** The arc a segment instance covers: the template spans
    [-angle/2 .. +angle/2] around its centre ([start] and [end] in
    [make_segment_mesh]), and the instance is rotated by [rot]. *)
Definition arc_start (rot arc : Q) : Q := (rot - arc / 2)%Q.
Definition arc_end (rot arc : Q) : Q := (rot + arc / 2)%Q.

(** The rotation the comment at line 367 announces for the regular
    instance of index [i]: [(index + 0.5) * regular_angle]. *)
Definition regular_rotation (regular_angle : Q) (i : Z) : Q :=
  ((inject_Z i + 0.5) * regular_angle)%Q.

(* ================================================================== *)
(** * Part V. The controller and the end of the run (lines 553-584) *)
(* ================================================================== *)

(** A value stored in a modifier's item ([mod[identifier] = value]). *)
Inductive PropValue :=
| PObject (object_name : string)
| PInt (z : Z)
| PFloat (q : Q).

Record Modifier := {
  mod_name : string;
  mod_type : string;
  mod_node_group : option string;
  mod_props : list (string * PropValue)
}.

(** What the end of the run works on: the controller's modifier and the
    console. *)
Record Run := {
  run_mod : Modifier;
  run_stdout : list string
}.

(** [controller.modifiers.new(name="TunnelProcedural", type="NODES")]
    followed by [mod.node_group = ng] (lines 553-554). *)
Definition new_controller_modifier (ng : NodeTree) : Modifier :=
  {| mod_name := "TunnelProcedural"; mod_type := "NODES";
     mod_node_group := Some (nt_name ng); mod_props := [] |}.

(** Python item assignment on a mapping: the key is bound to the new
    value, an older binding of the key is dropped. *)
Definition props_set (props : list (string * PropValue)) (key : string)
    (v : PropValue) : list (string * PropValue) :=
  filter (fun kv => negb (String.eqb (fst kv) key)) props ++ [ (key, v) ].

Definition props_get (props : list (string * PropValue)) (key : string)
    : option PropValue :=
  match find (fun kv => String.eqb (fst kv) key) props with
  | Some kv => Some (snd kv)
  | None => None
  end.

(** [print(msg)] *)
Definition print (msg : string) : M Run unit :=
  modify (fun r =>
    {| run_mod := run_mod r; run_stdout := run_stdout r ++ [ msg ] |}).

Definition newline : string := String (ascii_of_nat 10) EmptyString.

Section Controller.

(** The host decides whether an item assignment on the modifier is
    accepted: given the items present, the key and the value, it either
    accepts ([None]) or raises. *)
Variable setitem_error :
  list (string * PropValue) -> string -> PropValue -> option exn.

(** [mod[key] = v] *)
Definition mod_setitem (key : string) (v : PropValue) : M Run unit :=
  fun r =>
    match setitem_error (mod_props (run_mod r)) key v with
    | Some e => Raised e r
    | None =>
        Done tt
          {| run_mod :=
               {| mod_name := mod_name (run_mod r);
                  mod_type := mod_type (run_mod r);
                  mod_node_group := mod_node_group (run_mod r);
                  mod_props := props_set (mod_props (run_mod r)) key v |};
             run_stdout := run_stdout r |}
    end.

Variable cfg : Settings.
Variable ng : NodeTree.
(** The names of [seg_reg] and [seg_key]. *)
Variables seg_reg seg_key : string.
(** The names of the cutters, [bolt_cutters_reg + handle_cutters_reg] and
    [bolt_cutters_key + handle_cutters_key]. *)
Variables cutters_reg cutters_key : list string.

(** The values of lines 559-565, in order: the two segment objects and
    the five scalar defaults. *)
Definition controller_inputs : list PropValue :=
  [ PObject seg_reg; PObject seg_key; PInt (gn_ring_count cfg);
    PFloat (gn_ring_spacing cfg); PInt (gn_rot_jitter_deg cfg);
    PFloat (gn_pos_jitter cfg); PInt (gn_seed cfg) ].

(** The body of the [try] (lines 558-566). *)
Definition assign_inputs_body : M Run unit :=
  let input_sockets :=
    filter (fun s => String.eqb (sock_in_out s) "INPUT") (nt_interface ng) in
  s0 <- py_index input_sockets 0 ;;
  mod_setitem (sock_identifier s0) (PObject seg_reg) ;;
  s1 <- py_index input_sockets 1 ;;
  mod_setitem (sock_identifier s1) (PObject seg_key) ;;
  s2 <- py_index input_sockets 2 ;;
  mod_setitem (sock_identifier s2) (PInt (gn_ring_count cfg)) ;;
  s3 <- py_index input_sockets 3 ;;
  mod_setitem (sock_identifier s3) (PFloat (gn_ring_spacing cfg)) ;;
  s4 <- py_index input_sockets 4 ;;
  mod_setitem (sock_identifier s4) (PInt (gn_rot_jitter_deg cfg)) ;;
  s5 <- py_index input_sockets 5 ;;
  mod_setitem (sock_identifier s5) (PFloat (gn_pos_jitter cfg)) ;;
  s6 <- py_index input_sockets 6 ;;
  mod_setitem (sock_identifier s6) (PInt (gn_seed cfg)) ;;
  print "✓ Modifier inputs assigned!".

(** Lines 557-568. *)
Definition assign_inputs : M Run unit :=
  try_except assign_inputs_body
    (fun e => print ("⚠ Could not auto-assign: " +++ exn_str e)).

(** Lines 574-584. *)
Definition print_summary : M Run unit :=
  print (newline +++ "=== DONE ===") ;;
  print (newline +++ "TWEAKABLE OBJECTS:") ;;
  print ("  " +++ seg_reg +++ " - Regular segment template") ;;
  print ("  " +++ seg_key +++ " - Key segment template") ;;
  print (newline +++ "CUTTER OBJECTS (move/scale these to tweak booleans!):") ;;
  for_each cutters_reg (fun c => print ("  " +++ c)) ;;
  for_each cutters_key (fun c => print ("  " +++ c)) ;;
  print (newline +++ "Changes to segments/cutters update the tunnel instantly!") ;;
  print "View result on: Tunnel Controller".

(** The run from the [try] to the last line of the script. *)
Definition finish_run : M Run unit :=
  assign_inputs ;;
  print_summary.

End Controller.

(* ================================================================== *)
(** * Part VI. render_scene.py *)
(* ================================================================== *)

(** ** Python string methods used by the driver *)

(** [s.startswith(p)] *)
Definition startswith (p s : string) : bool := String.prefix p s.

(** [sub in s] *)
Fixpoint contains (sub s : string) : bool :=
  String.prefix sub s
  || match s with
     | EmptyString => false
     | String _ rest => contains sub rest
     end.

(** [s.removeprefix(p)] *)
Definition removeprefix (p s : string) : string :=
  if String.prefix p s
  then String.substring (String.length p)
         (String.length s - String.length p) s
  else s.

(** ** The scene *)

Definition SAMPLES : Z := 4096.

(** A layer collection: the collection it wraps (collections are
    identified by name), its [exclude] flag and its children. *)
#[warnings="-register-all"]
Inductive LayerCollection :=
| LayerColl (collection : string) (exclude : bool)
    (children : list LayerCollection).

Definition lc_collection (lc : LayerCollection) : string :=
  match lc with LayerColl c _ _ => c end.
Definition lc_exclude (lc : LayerCollection) : bool :=
  match lc with LayerColl _ e _ => e end.
Definition lc_children (lc : LayerCollection) : list LayerCollection :=
  match lc with LayerColl _ _ ch => ch end.

Record ViewLayer := {
  layer_name : string;
  layer_collection : LayerCollection;
  layer_use : bool;
  use_pass_combined : bool;
  use_pass_z : bool;
  use_pass_mist : bool
}.

(** An object of [bpy.data.objects], with what the driver reads of it:
    [camera.get("frame_end", d)] is [d] when [so_frame_end] is [None];
    a custom property [frame_end] is taken to hold an [int]. *)
Record SceneObject := {
  so_name : string;
  so_type : string;
  so_hide_render : bool;
  so_users_collection : list string;
  so_frame_end : option Z
}.

Record RenderView := {
  view_name : string;
  view_use : bool
}.

(** A compositor node; an attribute the driver has not written is
    [None]. *)
Record CompNode := {
  cn_type : string;
  cn_layer : option string;
  cn_path : option string;
  cn_base_path : option string
}.

Record CompLink := {
  cl_from : nat;
  cl_output : string;
  cl_to : nat;
  cl_input : nat
}.

(** What the driver does that is visible from outside, in order. *)
Inductive Event :=
| SetCamera (camera : SceneObject)
| Render (animation : bool) (camera : option SceneObject) (samples : Z)
    (nodes : list CompNode).

(** The scene, with what the driver reads and writes of it.
    [tree_nodes] and [tree_links] are the nodes and the links of
    [scene.node_tree], which the scene has from line 17 on.  The host
    keeps [frame_end] within [0 .. 1048574] and the scene has the
    settings of Cycles ([scene.cycles]). *)
Record Scene := {
  scene_name : string;
  cycles_samples : Z;
  render_views : list RenderView;
  scene_camera : option SceneObject;
  frame_end : Z;
  view_layers : list ViewLayer;
  tree_nodes : list CompNode;
  tree_links : list CompLink;
  trace : list Event
}.

(** ** [find_layer_collection] (lines 51-60) *)

Fixpoint find_layer_collection (layer_collection : LayerCollection)
    (collection : string) : option LayerCollection :=
  match layer_collection with
  | LayerColl c _ children =>
      if String.eqb c collection then Some layer_collection
      else
        (fix search (l : list LayerCollection) : option LayerCollection :=
           match l with
           | [] => None
           | child_collection :: rest =>
               match find_layer_collection child_collection collection with
               | Some result => Some result
               | None => search rest
               end
           end) children
  end.

(** ** Field updates *)

Definition with_name (n : string) (s : Scene) : Scene :=
  {| scene_name := n; cycles_samples := cycles_samples s;
     render_views := render_views s; scene_camera := scene_camera s;
     frame_end := frame_end s; view_layers := view_layers s;
     tree_nodes := tree_nodes s; tree_links := tree_links s;
     trace := trace s |}.

Definition with_samples (n : Z) (s : Scene) : Scene :=
  {| scene_name := scene_name s; cycles_samples := n;
     render_views := render_views s; scene_camera := scene_camera s;
     frame_end := frame_end s; view_layers := view_layers s;
     tree_nodes := tree_nodes s; tree_links := tree_links s;
     trace := trace s |}.

Definition with_views (vs : list RenderView) (s : Scene) : Scene :=
  {| scene_name := scene_name s; cycles_samples := cycles_samples s;
     render_views := vs; scene_camera := scene_camera s;
     frame_end := frame_end s; view_layers := view_layers s;
     tree_nodes := tree_nodes s; tree_links := tree_links s;
     trace := trace s |}.

Definition with_camera (c : SceneObject) (s : Scene) : Scene :=
  {| scene_name := scene_name s; cycles_samples := cycles_samples s;
     render_views := render_views s; scene_camera := Some c;
     frame_end := frame_end s; view_layers := view_layers s;
     tree_nodes := tree_nodes s; tree_links := tree_links s;
     trace := trace s |}.

Definition with_frame_end (n : Z) (s : Scene) : Scene :=
  {| scene_name := scene_name s; cycles_samples := cycles_samples s;
     render_views := render_views s; scene_camera := scene_camera s;
     frame_end := n; view_layers := view_layers s;
     tree_nodes := tree_nodes s; tree_links := tree_links s;
     trace := trace s |}.

Definition with_layers (ls : list ViewLayer) (s : Scene) : Scene :=
  {| scene_name := scene_name s; cycles_samples := cycles_samples s;
     render_views := render_views s; scene_camera := scene_camera s;
     frame_end := frame_end s; view_layers := ls;
     tree_nodes := tree_nodes s; tree_links := tree_links s;
     trace := trace s |}.

Definition with_tree (ns : list CompNode) (ls : list CompLink) (s : Scene)
  : Scene :=
  {| scene_name := scene_name s; cycles_samples := cycles_samples s;
     render_views := render_views s; scene_camera := scene_camera s;
     frame_end := frame_end s; view_layers := view_layers s;
     tree_nodes := ns; tree_links := ls;
     trace := trace s |}.

Definition with_event (e : Event) (s : Scene) : Scene :=
  {| scene_name := scene_name s; cycles_samples := cycles_samples s;
     render_views := render_views s; scene_camera := scene_camera s;
     frame_end := frame_end s; view_layers := view_layers s;
     tree_nodes := tree_nodes s; tree_links := tree_links s;
     trace := trace s ++ [ e ] |}.

(** [scene.cycles.samples = n] *)
Definition set_samples (n : Z) : M Scene unit := modify (with_samples n).

Definition set_views (f : list RenderView -> list RenderView)
  : M Scene unit :=
  modify (fun s => with_views (f (render_views s)) s).

(** [scene.camera = camera] *)
Definition set_camera (camera : SceneObject) : M Scene unit :=
  modify (fun s => with_event (SetCamera camera) (with_camera camera s)).

(** [scene.frame_end = n]: the host clamps a frame number to
    [0 .. 1048574]. *)
Definition MAXFRAME : Z := 1048574.

Definition clamp_frame (n : Z) : Z := Z.max 0 (Z.min n MAXFRAME).

Definition set_frame_end (n : Z) : M Scene unit :=
  modify (with_frame_end (clamp_frame n)).

Definition set_layers (f : list ViewLayer -> list ViewLayer)
  : M Scene unit :=
  modify (fun s => with_layers (f (view_layers s)) s).

Definition set_tree (f : list CompNode -> list CompNode)
    (h : list CompLink -> list CompLink) : M Scene unit :=
  modify (fun s => with_tree (f (tree_nodes s)) (h (tree_links s)) s).

(** [bpy.ops.render.render(...)]: the call is recorded with the camera,
    the sample count and the compositor nodes in force. *)
Definition ops_render (animation : bool) : M Scene unit :=
  modify (fun s =>
    with_event
      (Render animation (scene_camera s) (cycles_samples s) (tree_nodes s))
      s).

(** [scene.node_tree.nodes.new(type)] *)
Definition comp_nodes_new (type : string) : M Scene nat :=
  s <- get ;;
  set_tree
    (fun ns =>
       ns ++ [ {| cn_type := type; cn_layer := None; cn_path := None;
                  cn_base_path := None |} ])
    (fun ls => ls) ;;
  ret (List.length (tree_nodes s)).

Definition update_comp_node (n : nat) (f : CompNode -> CompNode)
  : M Scene unit :=
  set_tree (update_nth n f) (fun ls => ls).

(** [scene.node_tree.links.new(a.outputs[o], b.inputs[i])] *)
Definition comp_links_new (a : nat) (o : string) (b : nat) (i : nat)
  : M Scene unit :=
  set_tree (fun ns => ns)
    (fun ls =>
       ls ++ [ {| cl_from := a; cl_output := o; cl_to := b;
                  cl_input := i |} ]).

Definition update_layer (i : nat) (f : ViewLayer -> ViewLayer)
  : M Scene unit :=
  set_layers (update_nth i f).

(** ** Attribute writes on layers and compositor nodes *)

(** [layer.use = use] *)
Definition layer_set_use (use : bool) (l : ViewLayer) : ViewLayer :=
  {| layer_name := layer_name l; layer_collection := layer_collection l;
     layer_use := use; use_pass_combined := use_pass_combined l;
     use_pass_z := use_pass_z l; use_pass_mist := use_pass_mist l |}.

(** Lines 110-112. *)
Definition layer_set_passes (l : ViewLayer) : ViewLayer :=
  {| layer_name := layer_name l; layer_collection := layer_collection l;
     layer_use := layer_use l; use_pass_combined := true;
     use_pass_z := false; use_pass_mist := true |}.

(** [r_layers.layer = name] *)
Definition node_set_layer (name : string) (nd : CompNode) : CompNode :=
  {| cn_type := cn_type nd; cn_layer := Some name;
     cn_path := cn_path nd; cn_base_path := cn_base_path nd |}.

(** [node.file_slots[0].path = path] *)
Definition node_set_path (path : string) (nd : CompNode) : CompNode :=
  {| cn_type := cn_type nd; cn_layer := cn_layer nd;
     cn_path := Some path; cn_base_path := cn_base_path nd |}.

(** [node.base_path = path] *)
Definition node_set_base_path (path : string) (nd : CompNode) : CompNode :=
  {| cn_type := cn_type nd; cn_layer := cn_layer nd;
     cn_path := cn_path nd; cn_base_path := Some path |}.

(** A Render Layers node that reads the view layer [layer], and a File
    Output node whose first slot is [path] under the base path ["//"]. *)
Definition rlayers_node (layer : string) : CompNode :=
  {| cn_type := "CompositorNodeRLayers"; cn_layer := Some layer;
     cn_path := None; cn_base_path := None |}.

Definition output_file_node (path : string) : CompNode :=
  {| cn_type := "CompositorNodeOutputFile"; cn_layer := None;
     cn_path := Some path; cn_base_path := Some "//"%string |}.

(** ** The camera loop (lines 64-149) *)

Section RenderDriver.

(** [getenv("CAMERAS")] *)
Variable env_CAMERAS : option string.
(** [bpy.path.relpath], a host function. *)
Variable relpath : string -> string.
(** The name the host gives to a render view that is created under
    [name] while views of the names [taken] exist: it makes the name
    unique and replaces an empty one. *)
Variable new_view_name : string -> list string -> string.
(** The module-level [name] and [default_frame_end]. *)
Variable name : string.
Variable default_frame_end : Z.

(** Line 67: the cameras the loop passes over. *)
Definition skipped_by_flags (camera : SceneObject) : bool :=
  negb (String.eqb (so_type camera) "CAMERA")
  || contains "-noimp" (so_name camera)
  || so_hide_render camera.

(** Line 70. *)
Definition camera_name_of (camera : SceneObject) : string :=
  removeprefix "Camera_" (so_name camera).

(** Line 72: [getenv("CAMERAS") and getenv("CAMERAS") not in camera_name];
    an empty string is false. *)
Definition skipped_by_env (camera_name : string) : bool :=
  match env_CAMERAS with
  | None => false
  | Some pat =>
      negb (String.eqb pat EmptyString) && negb (contains pat camera_name)
  end.

Definition skipped (camera : SceneObject) : bool :=
  skipped_by_flags camera || skipped_by_env (camera_name_of camera).

(** Lines 76-79. *)
Definition select_samples (camera_name : string) : M Scene unit :=
  if String.eqb camera_name "0" then set_samples 4
  else set_samples SAMPLES.

Definition is_left_right (n : string) : bool :=
  String.eqb n "left" || String.eqb n "right".

(** [scene.render.views[n].use = use]: the view is looked up by name,
    which finds the first view called [n]. *)
Fixpoint views_set_use (n : string) (use : bool) (vs : list RenderView)
  : list RenderView :=
  match vs with
  | [] => []
  | v :: rest =>
      if String.eqb (view_name v) n
      then {| view_name := view_name v; view_use := use |} :: rest
      else v :: views_set_use n use rest
  end.

Definition remove_nth {A} (i : nat) (l : list A) : list A :=
  firstn i l ++ skipn (S i) l.

(** What the host reports when it refuses to remove a view. *)
Definition remove_refused (view scene : string) : string :=
  (((("Error: Render view '" +++ view)
     +++ "' could not be removed from scene '") +++ scene) +++ "'")
  +++ newline.

(** Lines 82-85, for [view] at position [i] of [scene.render.views].
    The host keeps one view at least: [remove] on the only view left
    raises [RuntimeError]. *)
Definition reset_view (i : nat) (view : RenderView) : M Scene unit :=
  if is_left_right (view_name view) then
    set_views (views_set_use (view_name view) false)
  else
    s <- get ;;
    if Nat.eqb (List.length (render_views s)) 1 then
      raise (RuntimeError (remove_refused (view_name view) (scene_name s)))
    else set_views (remove_nth i).

(** Lines 81-85: [reversed] reads the collection by position, from the
    last position it had when the loop started down to the first, and
    stops at a position that is not there any more; [k] positions are
    left to read. *)
Fixpoint reset_views_from (k : nat) : M Scene unit :=
  match k with
  | O => ret tt
  | S i =>
      s <- get ;;
      match nth_error (render_views s) i with
      | None => ret tt
      | Some view => reset_view i view ;; reset_views_from i
      end
  end.

(** Lines 81-87. *)
Definition reset_views (camera_name : string) : M Scene unit :=
  s <- get ;;
  reset_views_from (List.length (render_views s)) ;;
  set_views
    (fun vs =>
       vs ++ [ {| view_name := new_view_name camera_name (map view_name vs);
                  view_use := true |} ]).

(** Lines 110-139: the compositor nodes of one enabled layer; [i] is the
    position of [layer] in [scene.view_layers], so that
    [layer != scene.view_layers[0]] is [i <> 0]. *)
Definition setup_layer_outputs (camera_name : string) (i : nat)
    (layer : ViewLayer) : M Scene unit :=
  update_layer i layer_set_passes ;;
  r_layers <- comp_nodes_new "CompositorNodeRLayers" ;;
  image_output <- comp_nodes_new "CompositorNodeOutputFile" ;;
  mist_output <- comp_nodes_new "CompositorNodeOutputFile" ;;
  comp_links_new r_layers "Image" image_output 0 ;;
  comp_links_new r_layers "Mist" mist_output 0 ;;
  update_comp_node r_layers (node_set_layer (layer_name layer)) ;;
  let prefix :=
    if Nat.eqb i 0 then EmptyString else layer_name layer +++ "/" in
  update_comp_node image_output
    (node_set_path
       (relpath
          ((((("renders/" +++ name) +++ "/") +++ prefix) +++ "#_")
           +++ camera_name))) ;;
  update_comp_node image_output (node_set_base_path "//") ;;
  update_comp_node mist_output
    (node_set_path
       (relpath
          ((((("renders/" +++ name) +++ "/") +++ prefix) +++ "m_#_")
           +++ camera_name))) ;;
  update_comp_node mist_output (node_set_base_path "//").

(** Line 103, right of the [=]:
    [not layer.name.startswith("_") and not layer_collection.exclude].
    [and] evaluates its right operand only when the left one is true;
    reading [exclude] of [None] raises [AttributeError]. *)
Definition layer_enabled (layer : ViewLayer)
    (found : option LayerCollection) : M Scene bool :=
  if negb (startswith "_" (layer_name layer)) then
    match found with
    | Some lc => ret (negb (lc_exclude lc))
    | None =>
        raise (AttributeError
                 "'NoneType' object has no attribute 'exclude'")
    end
  else ret false.

(** Lines 100-139, one pass; [i] is the position of [layer] in
    [scene.view_layers], and [found] is the script's local
    [layer_collection]. *)
Definition process_layer (camera : SceneObject) (camera_name : string)
    (i : nat) : M Scene unit :=
  s <- get ;;
  layer <- py_index (view_layers s) i ;;
  collection <- match so_users_collection camera with
                | c :: _ => ret c
                | [] => raise (IndexError "tuple index out of range")
                end ;;
  let found := find_layer_collection (layer_collection layer) collection in
  use <- layer_enabled layer found ;;
  update_layer i (layer_set_use use) ;;
  if negb use then ret tt
  else setup_layer_outputs camera_name i layer.

(** Lines 146-149. *)
Definition trigger_render : M Scene unit :=
  s <- get ;;
  if (1 <? frame_end s) && (frame_end s <? 250)
  then ops_render true
  else ops_render false.

(** Lines 66-149, one pass. *)
Definition process_camera (camera : SceneObject) : M Scene unit :=
  if skipped_by_flags camera then ret tt
  else
    let camera_name := camera_name_of camera in
    if skipped_by_env camera_name then ret tt
    else
      select_samples camera_name ;;
      reset_views camera_name ;;
      set_camera camera ;;
      set_frame_end
        (match so_frame_end camera with
         | Some n => n
         | None => default_frame_end
         end) ;;
      set_tree (fun _ => []) (fun _ => []) ;;
      s <- get ;;
      for_each (seq 0 (List.length (view_layers s)))
        (process_layer camera camera_name) ;;
      trigger_render.

(** Lines 64-149. *)
Definition camera_loop (objects : list SceneObject) : M Scene unit :=
  let cameras :=
    filter (fun obj => String.eqb (so_type obj) "CAMERA") objects in
  for_each cameras process_camera.

End RenderDriver.

(** ** Notions used to state what the driver does *)

(** The camera an event is about. *)
Definition event_camera (e : Event) : option SceneObject :=
  match e with
  | SetCamera c => Some c
  | Render _ c _ _ => c
  end.

(** What the layer loop leaves alone: everything but the compositor tree
    and the [use] and pass flags of the view layers. *)
Definition layer_loop_frame (s s' : Scene) : Prop :=
  scene_name s' = scene_name s
  /\ cycles_samples s' = cycles_samples s
  /\ scene_camera s' = scene_camera s
  /\ frame_end s' = frame_end s
  /\ trace s' = trace s
  /\ map layer_name (view_layers s') = map layer_name (view_layers s)
  /\ map layer_collection (view_layers s')
     = map layer_collection (view_layers s).

(** The events a run adds are all about cameras that pass the filters
    of lines 67 and 72. *)
Definition adds_events_of (ok : SceneObject -> bool) (s s' : Scene) : Prop :=
  exists new,
    trace s' = trace s ++ new
    /\ forall e, In e new ->
         exists c, event_camera e = Some c /\ ok c = true.

(** ** The start of the script (lines 10-48) *)

(** The file as the script finds it: the scene, whether the scene has a
    compositor node tree yet ([scene.node_tree] is [None] until the scene
    uses nodes for the first time; [tree_nodes] and [tree_links] are
    empty then), [scene.use_nodes], and the names of
    [bpy.data.worlds]. *)
Record BlendFile := {
  file_scene : Scene;
  scene_has_tree : bool;
  scene_use_nodes : bool;
  world_names : list string
}.

Definition with_scene (s : Scene) (f : BlendFile) : BlendFile :=
  {| file_scene := s; scene_has_tree := scene_has_tree f;
     scene_use_nodes := scene_use_nodes f; world_names := world_names f |}.

(** A statement on the scene, run on the file. *)
Definition on_scene {A} (c : M Scene A) : M BlendFile A :=
  fun f =>
    match c (file_scene f) with
    | Done a s => Done a (with_scene s f)
    | Raised e s => Raised e (with_scene s f)
    end.

(** Lines 10-13; [display_name] is what the host's
    [bpy.path.display_name_from_filepath] returns for the file. *)
Definition script_name (display_name filepath : string) : string :=
  if contains "puzzles/" filepath then "puzzles/" +++ display_name
  else display_name.

(** [layer.name = n] *)
Definition layer_set_name (n : string) (l : ViewLayer) : ViewLayer :=
  {| layer_name := n; layer_collection := layer_collection l;
     layer_use := layer_use l; use_pass_combined := use_pass_combined l;
     use_pass_z := use_pass_z l; use_pass_mist := use_pass_mist l |}.

Definition dquote : string := String (ascii_of_nat 34) EmptyString.

Section ScriptStart.

(** The name the host gives to the scene, called [old] so far, when it
    is asked to call it [name]: it keeps the names of the scenes
    distinct, cuts a long name and replaces an empty one. *)
Variable given_scene_name : string -> string -> string.
(** The name the host gives to a view layer that is to be called [name]
    while the other view layers of the scene have the names [taken]. *)
Variable given_layer_name : string -> list string -> string.
(** The nodes and the links the host puts in the compositor node tree
    it creates for a scene that has none. *)
Variable default_nodes : list CompNode.
Variable default_links : list CompLink.

(** [scene.use_nodes = True] (line 17): a scene without a compositor
    node tree gets one, with the host's default nodes. *)
Definition enable_nodes (f : BlendFile) : BlendFile :=
  {| file_scene :=
       if scene_has_tree f then file_scene f
       else with_tree default_nodes default_links (file_scene f);
     scene_has_tree := true;
     scene_use_nodes := true;
     world_names := world_names f |}.

(** Lines 16-46.  The scene takes a name (line 16) and uses nodes (line
    17); a first view layer still called ["ViewLayer"] is renamed (lines
    19-20); [bpy.data.worlds["World"]] raises [KeyError] when no world
    has that name (line 42).  The other lines write settings that the
    script does not read again: the current and the first frame, the
    render and Cycles settings, the mist falloff of the world. *)
Definition prepare_scene (name : string) : M BlendFile unit :=
  on_scene
    (modify (fun s => with_name (given_scene_name (scene_name s) name) s)) ;;
  modify enable_nodes ;;
  on_scene
    (s <- get ;;
     first <- py_index (view_layers s) 0 ;;
     if String.eqb (layer_name first) "ViewLayer" then
       update_layer 0
         (layer_set_name
            (given_layer_name "main" (map layer_name (tl (view_layers s)))))
     else ret tt) ;;
  f <- get ;;
  if existsb (String.eqb "World") (world_names f) then ret tt
  else
    raise
      (KeyError
         (((("'bpy_prop_collection[key]: key " +++ dquote) +++ "World")
           +++ dquote) +++ " not found'")).

(** The whole script: [default_frame_end] is the scene's [frame_end]
    after the preparation (line 48). *)
Definition render_scene (env_CAMERAS : option string)
    (relpath : string -> string)
    (new_view_name : string -> list string -> string)
    (display_name filepath : string)
    (objects : list SceneObject) : M BlendFile unit :=
  let name := script_name display_name filepath in
  prepare_scene name ;;
  f <- get ;;
  on_scene
    (camera_loop env_CAMERAS relpath new_view_name name
       (frame_end (file_scene f)) objects).

End ScriptStart.

(* ================================================================== *)
(** * Part VII. The cleanup pass of generate_tunnel.py (lines 49-90) *)
(* ================================================================== *)

(** ** The data blocks [clean_old] touches

    A data block is referred to by its name, which the host keeps unique
    within its kind.  A reference to a block that has been removed is
    stale: using it raises [ReferenceError]. *)

Record DataObject := {
  obj_name : string;
  obj_data : option string
}.

Record Collection := {
  coll_name : string;
  coll_objects : list string
}.

(** [mesh_other_users]: the users of the mesh that are not objects (a
    fake user, for instance). *)
Record MeshData := {
  mesh_name : string;
  mesh_other_users : nat
}.

Record BlendData := {
  collections : list Collection;
  objects : list DataObject;
  meshes : list MeshData;
  node_groups : list string
}.

Definition mem (x : string) (l : list string) : bool :=
  existsb (String.eqb x) l.

Fixpoint nodupb (l : list string) : bool :=
  match l with
  | [] => true
  | x :: r => negb (mem x r) && nodupb r
  end.

(** The invariant the host keeps: names are unique within a kind, and a
    collection links each object at most once and only objects that
    exist. *)
Definition wf_data (d : BlendData) : bool :=
  nodupb (map coll_name (collections d))
  && nodupb (map obj_name (objects d))
  && forallb
       (fun c =>
          nodupb (coll_objects c)
          && forallb (fun o => mem o (map obj_name (objects d)))
               (coll_objects c))
       (collections d)
  && nodupb (map mesh_name (meshes d))
  && nodupb (node_groups d).

(** [me.users] *)
Definition mesh_users (d : BlendData) (me : MeshData) : nat :=
  mesh_other_users me
  + List.length
      (filter
         (fun o =>
            match obj_data o with
            | Some m => String.eqb m (mesh_name me)
            | None => false
            end)
         (objects d)).

(** ** Removal *)

Definition unlink_object (o : string) (c : Collection) : Collection :=
  {| coll_name := coll_name c;
     coll_objects := filter (fun x => negb (String.eqb x o)) (coll_objects c) |}.

(** The data after [bpy.data.objects.remove(obj, do_unlink=True)]: the
    object is gone from the objects and from every collection. *)
Definition drop_object (o : string) (d : BlendData) : BlendData :=
  {| collections := map (unlink_object o) (collections d);
     objects := filter (fun x => negb (String.eqb (obj_name x) o)) (objects d);
     meshes := meshes d;
     node_groups := node_groups d |}.

Definition drop_collection (c : string) (d : BlendData) : BlendData :=
  {| collections :=
       filter (fun x => negb (String.eqb (coll_name x) c)) (collections d);
     objects := objects d;
     meshes := meshes d;
     node_groups := node_groups d |}.

Definition drop_mesh (m : string) (d : BlendData) : BlendData :=
  {| collections := collections d;
     objects := objects d;
     meshes := filter (fun x => negb (String.eqb (mesh_name x) m)) (meshes d);
     node_groups := node_groups d |}.

Definition drop_node_group (g : string) (d : BlendData) : BlendData :=
  {| collections := collections d;
     objects := objects d;
     meshes := meshes d;
     node_groups := filter (fun x => negb (String.eqb x g)) (node_groups d) |}.

Definition stale (kind : string) : exn :=
  ReferenceError (("StructRNA of type " +++ kind) +++ " has been removed").

(** Reading through a reference. *)
Definition collection_get (c : string) : M BlendData Collection :=
  fun d =>
    match find (fun x => String.eqb (coll_name x) c) (collections d) with
    | Some x => Done x d
    | None => Raised (stale "Collection") d
    end.

Definition object_get (o : string) : M BlendData DataObject :=
  fun d =>
    match find (fun x => String.eqb (obj_name x) o) (objects d) with
    | Some x => Done x d
    | None => Raised (stale "Object") d
    end.

Definition mesh_get (m : string) : M BlendData MeshData :=
  fun d =>
    match find (fun x => String.eqb (mesh_name x) m) (meshes d) with
    | Some x => Done x d
    | None => Raised (stale "Mesh") d
    end.

Definition node_group_get (g : string) : M BlendData string :=
  fun d =>
    if mem g (node_groups d) then Done g d
    else Raised (stale "NodeTree") d.

(** [bpy.data.objects.remove(obj, do_unlink=True)] *)
Definition objects_remove (o : string) : M BlendData unit :=
  object_get o ;; modify (drop_object o).

(** [bpy.data.collections.remove(coll)] *)
Definition collections_remove (c : string) : M BlendData unit :=
  collection_get c ;; modify (drop_collection c).

(** [bpy.data.meshes.remove(me)] *)
Definition meshes_remove (m : string) : M BlendData unit :=
  mesh_get m ;; modify (drop_mesh m).

(** [bpy.data.node_groups.remove(ng, do_unlink=True)] *)
Definition node_groups_remove (g : string) : M BlendData unit :=
  node_group_get g ;; modify (drop_node_group g).

(** ** [clean_old] *)

Definition kill_names : list string :=
  [ "Segment (Regular)"; "Segment (Key)";
    "Bolt Pocket (Top)"; "Bolt Pocket (Bottom)";
    "Handle Hole (Top)"; "Handle Hole (Bottom)";
    "Bolt Pocket"; "Handle Hole"; "Tunnel Controller"; "TunnelRing";
    "SegReg"; "SegKey"; "RingGuide"; "TBM_Ring"; "RingBase";
    "TBM_Tunnel" ]%string.

(** Lines 78-81:
    [any(name == n or name.startswith(n + ".") or name.startswith(n + "_")
         for n in kill_names)] *)
Definition name_is_killed (name : string) : bool :=
  existsb
    (fun n =>
       String.eqb name n
       || startswith (n +++ ".") name
       || startswith (n +++ "_") name)
    kill_names.

(** Line 71: [coll.name in ("TBM_Ring", "Tunnel")] *)
Definition is_kill_collection (name : string) : bool :=
  mem name [ "TBM_Ring"; "Tunnel" ]%string.

(** Line 89: [ng.name in ("TBM_TunnelAlongZ", "TBM_TunnelProcedural")] *)
Definition is_kill_node_group (name : string) : bool :=
  mem name [ "TBM_TunnelAlongZ"; "TBM_TunnelProcedural" ]%string.

(** Lines 70-74, one pass. *)
Definition clean_collection (c : string) : M BlendData unit :=
  coll <- collection_get c ;;
  if is_kill_collection (coll_name coll) then
    for_each (coll_objects coll) objects_remove ;;
    collections_remove c
  else ret tt.

(** Lines 76-82, one pass. *)
Definition clean_object (o : string) : M BlendData unit :=
  obj <- object_get o ;;
  if name_is_killed (obj_name obj) then objects_remove o
  else ret tt.

(** Lines 84-86, one pass. *)
Definition clean_mesh (m : string) : M BlendData unit :=
  me <- mesh_get m ;;
  d <- get ;;
  if Nat.eqb (mesh_users d me) 0 then meshes_remove m
  else ret tt.

(** Lines 88-90, one pass. *)
Definition clean_node_group (g : string) : M BlendData unit :=
  ng <- node_group_get g ;;
  if is_kill_node_group ng then node_groups_remove g
  else ret tt.

(** Lines 49-90; every [list(...)] is a snapshot of the references. *)
Definition clean_old : M BlendData unit :=
  d <- get ;;
  for_each (map coll_name (collections d)) clean_collection ;;
  d <- get ;;
  for_each (map obj_name (objects d)) clean_object ;;
  d <- get ;;
  for_each (map mesh_name (meshes d)) clean_mesh ;;
  d <- get ;;
  for_each (node_groups d) clean_node_group.

(** An object of [d] that [clean_old] is to remove: it is linked to a
    collection named ["TBM_Ring"] or ["Tunnel"], or its name is on the
    list. *)
Definition in_kill_collection (d : BlendData) (o : string) : bool :=
  existsb
    (fun c => is_kill_collection (coll_name c) && mem o (coll_objects c))
    (collections d).

Definition to_remove (d : BlendData) (o : DataObject) : bool :=
  in_kill_collection d (obj_name o) || name_is_killed (obj_name o).

(** ** What the four loops of [clean_old] leave, in closed form *)

(** A collection without the objects that satisfy [p]. *)
Definition unlink_where (p : string -> bool) (c : Collection) : Collection :=
  {| coll_name := coll_name c;
     coll_objects := filter (fun x => negb (p x)) (coll_objects c) |}.

(** The objects linked to the collections named ["TBM_Ring"] or
    ["Tunnel"]. *)
Definition kill_collection_objects (d : BlendData) : list string :=
  flat_map coll_objects
    (filter (fun c => is_kill_collection (coll_name c)) (collections d)).

(** After lines 70-74: the two collections and their objects are gone. *)
Definition after_collections (d : BlendData) : BlendData :=
  {| collections :=
       map (unlink_where (fun y => mem y (kill_collection_objects d)))
         (filter (fun c => negb (is_kill_collection (coll_name c)))
            (collections d));
     objects :=
       filter (fun o => negb (mem (obj_name o) (kill_collection_objects d)))
         (objects d);
     meshes := meshes d;
     node_groups := node_groups d |}.

(** After lines 76-82: the objects with a name of the list are gone. *)
Definition after_objects (d : BlendData) : BlendData :=
  {| collections :=
       map (unlink_where
              (fun y => mem y (map obj_name (objects d)) && name_is_killed y))
         (collections d);
     objects :=
       filter (fun o => negb (name_is_killed (obj_name o))) (objects d);
     meshes := meshes d;
     node_groups := node_groups d |}.

(** After lines 84-86: the meshes without users are gone. *)
Definition after_meshes (d : BlendData) : BlendData :=
  {| collections := collections d;
     objects := objects d;
     meshes := filter (fun m => negb (Nat.eqb (mesh_users d m) 0)) (meshes d);
     node_groups := node_groups d |}.

(** After lines 88-90: the two node groups are gone. *)
Definition after_node_groups (d : BlendData) : BlendData :=
  {| collections := collections d;
     objects := objects d;
     meshes := meshes d;
     node_groups :=
       filter (fun g => negb (is_kill_node_group g)) (node_groups d) |}.

Definition cleaned (d : BlendData) : BlendData :=
  after_node_groups (after_meshes (after_objects (after_collections d))).

(** What the loop over the collections does to a collection named [c]
    that it removes: its objects go first, in the order of
    [coll.objects], then the collection itself. *)
Definition drop_collection_and_objects (c : string) (d : BlendData)
  : BlendData :=
  match find (fun x => String.eqb (coll_name x) c) (collections d) with
  | Some coll =>
      drop_collection c
        (fold_left (fun d o => drop_object o d) (coll_objects coll) d)
  | None => d
  end.

(** Whether the loop over the meshes removes the mesh named [m]. *)
Definition mesh_is_orphan (d : BlendData) (m : string) : bool :=
  match find (fun x => String.eqb (mesh_name x) m) (meshes d) with
  | Some me => Nat.eqb (mesh_users d me) 0
  | None => false
  end.

(** ** Notions used to state what [clean_old] does *)

(** Each collection links an object at most once, and only objects that
    exist. *)
Definition links_ok (d : BlendData) : Prop :=
  forall c, In c (collections d) ->
  NoDup (coll_objects c)
  /\ incl (coll_objects c) (map obj_name (objects d)).

(** The objects of the removed collections whose names are in [l]. *)
Definition doomed_by (l : list string) (d : BlendData) : list string :=
  flat_map coll_objects
    (filter
       (fun x => mem (coll_name x) l && is_kill_collection (coll_name x))
       (collections d)).

(* ================================================================== *)
(** * Part VII-b. Closed forms of what the driver leaves *)
(* ================================================================== *)

(** All the layer collections of a hierarchy, parents first and children
    in order: the order in which [find_layer_collection] visits them. *)
Fixpoint lc_subtrees (lc : LayerCollection) : list LayerCollection :=
  match lc with
  | LayerColl _ _ children => lc :: flat_map lc_subtrees children
  end.

(** Lines 76-79, 91 and 146 as functions of the camera. *)
Definition selected_samples (camera : SceneObject) : Z :=
  if String.eqb (camera_name_of camera) "0" then 4 else SAMPLES.

Definition camera_frame_end (default_frame_end : Z) (camera : SceneObject)
  : Z :=
  match so_frame_end camera with
  | Some n => n
  | None => default_frame_end
  end.

Definition is_animation (frame_end : Z) : bool :=
  (1 <? frame_end) && (frame_end <? 250).

(** An event without the compositor nodes it carries. *)
Definition event_summary (e : Event)
  : option SceneObject * option (bool * Z) :=
  match e with
  | SetCamera c => (Some c, None)
  | Render animation c samples _ => (c, Some (animation, samples))
  end.

(** The events of a completed pass over [camera]. *)
Definition camera_events (default_frame_end : Z) (camera : SceneObject)
  : list (option SceneObject * option (bool * Z)) :=
  [ (Some camera, None);
    (Some camera,
     Some (is_animation (camera_frame_end default_frame_end camera),
           selected_samples camera)) ].

(** Line 103 as a function of the layer and of the camera's first
    collection, for the hierarchies in which the collection is found or
    the name starts with ["_"]. *)
Definition layer_is_enabled (collection : string) (layer : ViewLayer)
  : bool :=
  negb (startswith "_" (layer_name layer))
  && match find_layer_collection (layer_collection layer) collection with
     | Some lc => negb (lc_exclude lc)
     | None => false
     end.

(** A view layer after lines 103-112. *)
Definition layer_after (collection : string) (layer : ViewLayer)
  : ViewLayer :=
  if layer_is_enabled collection layer
  then layer_set_passes (layer_set_use true layer)
  else layer_set_use false layer.

(** The three nodes of lines 114-139 for the layer at position [i]. *)
Definition layer_nodes (relpath : string -> string)
    (name camera_name : string) (i : nat) (layer : ViewLayer)
  : list CompNode :=
  let prefix :=
    if Nat.eqb i 0 then EmptyString else layer_name layer +++ "/" in
  [ rlayers_node (layer_name layer);
    output_file_node
      (relpath
         ((((("renders/" +++ name) +++ "/") +++ prefix) +++ "#_")
          +++ camera_name));
    output_file_node
      (relpath
         ((((("renders/" +++ name) +++ "/") +++ prefix) +++ "m_#_")
          +++ camera_name)) ].

(** The two links of lines 123-124 for a Render Layers node at position
    [k]. *)
Definition layer_links (k : nat) : list CompLink :=
  [ {| cl_from := k; cl_output := "Image"; cl_to := k + 1; cl_input := 0 |};
    {| cl_from := k; cl_output := "Mist"; cl_to := k + 2; cl_input := 0 |} ].

(** Lines 81-85 get through the views: there is none, or one of them is
    called ["left"] or ["right"] (the loop removes every other view, and
    the host does not let go of the last view of a scene). *)
Definition views_resettable (views : list RenderView) : bool :=
  match views with
  | [] => true
  | _ :: _ => existsb (fun v => is_left_right (view_name v)) views
  end.

(** The views that lines 81-85 leave: those called ["left"] or
    ["right"], of which the first ["left"] and the first ["right"] have
    [use] off. *)
Definition views_kept (views : list RenderView) : list RenderView :=
  views_set_use "left" false
    (views_set_use "right" false
       (filter (fun v => is_left_right (view_name v)) views)).

(** The views after lines 81-87. *)
Definition views_after (new_view_name : string -> list string -> string)
    (camera_name : string) (views : list RenderView) : list RenderView :=
  views_kept views
  ++ [ {| view_name :=
            new_view_name camera_name (map view_name (views_kept views));
          view_use := true |} ].

(** The nodes and the links the layer loop creates for [layers], the
    first of which is at position [i] of [scene.view_layers], when the
    tree holds [k] nodes as the loop reaches it. *)
Fixpoint loop_nodes (relpath : string -> string)
    (name camera_name collection : string) (i : nat)
    (layers : list ViewLayer) : list CompNode :=
  match layers with
  | [] => []
  | layer :: rest =>
      (if layer_is_enabled collection layer
       then layer_nodes relpath name camera_name i layer
       else [])
      ++ loop_nodes relpath name camera_name collection (S i) rest
  end.

Fixpoint loop_links (collection : string) (k : nat)
    (layers : list ViewLayer) : list CompLink :=
  match layers with
  | [] => []
  | layer :: rest =>
      if layer_is_enabled collection layer
      then layer_links k ++ loop_links collection (k + 3) rest
      else loop_links collection k rest
  end.

(** Line 103 does not raise on [layer]: the name starts with ["_"], or
    the hierarchy holds the collection. *)
Definition layer_resolves (collection : string) (layer : ViewLayer)
  : bool :=
  startswith "_" (layer_name layer)
  || match find_layer_collection (layer_collection layer) collection with
     | Some _ => true
     | None => false
     end.

(** The layer loop of [camera] gets through [layers]. *)
Definition layers_complete (camera : SceneObject) (layers : list ViewLayer)
  : bool :=
  match layers with
  | [] => true
  | _ :: _ =>
      match so_users_collection camera with
      | [] => false
      | collection :: _ => forallb (layer_resolves collection) layers
      end
  end.

(** A pass over [camera] gets through the views and the layers of the
    scene. *)
Definition pass_completes (camera : SceneObject) (s : Scene) : bool :=
  views_resettable (render_views s)
  && layers_complete camera (view_layers s).

(** The scene after a completed pass of the camera loop over [camera],
    whose first collection is [collection]. *)
Definition scene_after_pass (relpath : string -> string)
    (new_view_name : string -> list string -> string) (name : string)
    (default_frame_end : Z) (camera : SceneObject) (collection : string)
    (s : Scene) : Scene :=
  let nodes :=
    loop_nodes relpath name (camera_name_of camera) collection 0
      (view_layers s) in
  {| scene_name := scene_name s;
     cycles_samples := selected_samples camera;
     render_views :=
       views_after new_view_name (camera_name_of camera) (render_views s);
     scene_camera := Some camera;
     frame_end := clamp_frame (camera_frame_end default_frame_end camera);
     view_layers := map (layer_after collection) (view_layers s);
     tree_nodes := nodes;
     tree_links := loop_links collection 0 (view_layers s);
     trace :=
       trace s
       ++ [ SetCamera camera;
            Render (is_animation (camera_frame_end default_frame_end camera))
              (Some camera) (selected_samples camera) nodes ] |}.

(** The last camera of a list, if any. *)
Definition last_camera (cameras : list SceneObject) : option SceneObject :=
  last (map Some cameras) None.

(* ================================================================== *)
(** * Part VII-c. Notions used to state more about the generator *)
(* ================================================================== *)

(** The four sides of a quad, each from a corner to the next one in the
    order the face lists them. *)
Definition face_edges (f : Face) : list (Z * Z) :=
  let '(a, b, c, d) := f in
  [ (a, b); (b, c); (c, d); (d, a) ].

(** The four corners of a quad. *)
Definition face_corners (f : Face) : list Z :=
  let '(a, b, c, d) := f in
  [ a; b; c; d ].

(** The square of the distance of a vertex to the tunnel axis (Y). *)
Definition radius_sq (v : Vert) : Q :=
  let '(x, _, z) := v in
  (x * x + z * z)%Q.

Definition vert_y (v : Vert) : Q :=
  let '(_, y, _) := v in
  y.

(** ** The cutters (lines 170-245)

    What the script asks of the host for a cutter and writes to it.  The
    object itself is made by the host
    ([bpy.ops.mesh.primitive_cylinder_add], [primitive_cube_add]); a
    scale the script does not write is [None]. *)

Inductive Primitive :=
| PrimCylinder (vertices : Z) (radius depth : Q)
| PrimCube (size : Q).

Record Cutter := {
  cutter_name : string;
  cutter_primitive : Primitive;
  cutter_location : Vert;
  cutter_scale : option Vert;
  cutter_rotation_euler : Vert;
  cutter_display_type : string;
  cutter_visible_camera : bool;
  cutter_visible_shadow : bool
}.

Section Cutters.

Variables math_cos math_sin : Q -> Q.
Variable cfg : Settings.

(** Lines 170-202. *)
Definition create_bolt_cutters (segment_name : string) (angle_deg : Q)
  : list Cutter :=
  let depth := (thickness cfg * 0.95)%Q in
  let base_radius := (inner_radius cfg - depth / 2)%Q in
  let t := 0%Q in
  let x := (base_radius * math_cos t)%Q in
  let z := (base_radius * math_sin t)%Q in
  fold_left
    (fun cutters '(y_sign, y_tag) =>
       let bolt_y := (y_sign * ring_length cfg * 0.15)%Q in
       cutters
       ++ [ {| cutter_name :=
                 ((("Bolt Pocket (" +++ y_tag) +++ ") - ") +++ segment_name);
               cutter_primitive :=
                 PrimCylinder 20 (bolt_radius cfg) depth;
               cutter_location := (x, bolt_y, z);
               cutter_scale := None;
               cutter_rotation_euler := (0, math_radians 90 + t, 0)%Q;
               cutter_display_type := "WIRE";
               cutter_visible_camera := false;
               cutter_visible_shadow := false |} ])
    [ ((-1)%Q, "Back"%string); (1%Q, "Front"%string) ] [].

(** Lines 205-245. *)
Definition create_handle_cutters (segment_name : string) (angle_deg : Q)
  : list Cutter :=
  let half := math_radians (angle_deg / 2) in
  let angle_frac_from_center := 0.75%Q in
  let offset := (- half * angle_frac_from_center)%Q in
  let chord := (2 * inner_radius cfg * math_sin half)%Q in
  let width := (chord * handle_width_tan cfg)%Q in
  let height := (chord * handle_height_tan cfg)%Q in
  let depth := (thickness cfg * handle_depth_frac cfg)%Q in
  let base_radius := (inner_radius cfg - depth * 0.6)%Q in
  let t := offset in
  let x := (base_radius * math_cos t)%Q in
  let z := (base_radius * math_sin t)%Q in
  let from_top_frac := 0.18%Q in
  fold_left
    (fun cutters '(y_sign, y_tag) =>
       let handle_y := (y_sign * ring_length cfg * (0.5 - from_top_frac))%Q in
       let diag := math_radians (handle_diagonal_deg cfg) in
       cutters
       ++ [ {| cutter_name :=
                 ((("Handle Hole (" +++ y_tag) +++ ") - ") +++ segment_name);
               cutter_primitive := PrimCube 1;
               cutter_location := (x, handle_y, z);
               cutter_scale :=
                 Some (depth * 0.5, width * 0.5, height * 0.5)%Q;
               cutter_rotation_euler :=
                 (0, t + diag, math_radians 90)%Q;
               cutter_display_type := "WIRE";
               cutter_visible_camera := false;
               cutter_visible_shadow := false |} ])
    [ (1%Q, "Front"%string); ((-1)%Q, "Back"%string) ] [].

End Cutters.

Definition vert_x (v : Vert) : Q :=
  let '(x, _, _) := v in
  x.

Definition vert_z (v : Vert) : Q :=
  let '(_, _, z) := v in
  z.

(** ** The templates and their cutters (lines 255-257 and 274-276) *)

Record Templates := {
  seg_reg : SegmentMesh;
  bolt_cutters_reg : list Cutter;
  handle_cutters_reg : list Cutter;
  seg_key : SegmentMesh;
  bolt_cutters_key : list Cutter;
  handle_cutters_key : list Cutter
}.

(** [None] when a statement raised: the division of line 38, or [round]
    in one of the two calls of [make_segment_mesh]. *)
Definition make_templates (math_cos math_sin : Q -> Q) (cfg : Settings)
  : option Templates :=
  match regular_angle_deg cfg, key_angle_deg cfg with
  | Some regular_angle, Some key_angle =>
      match
        make_segment_mesh math_cos math_sin cfg "Segment (Regular)"
          regular_angle,
        make_segment_mesh math_cos math_sin cfg "Segment (Key)" key_angle
      with
      | Some reg, Some key =>
          Some
            {| seg_reg := reg;
               bolt_cutters_reg :=
                 create_bolt_cutters math_cos math_sin cfg "Regular"
                   regular_angle;
               handle_cutters_reg :=
                 create_handle_cutters math_cos math_sin cfg "Regular"
                   regular_angle;
               seg_key := key;
               bolt_cutters_key :=
                 create_bolt_cutters math_cos math_sin cfg "Key" key_angle;
               handle_cutters_key :=
                 create_handle_cutters math_cos math_sin cfg "Key"
                   key_angle |}
      | _, _ => None
      end
  | _, _ => None
  end.

(** Two settings that differ at most in [bolt_angle_frac],
    [bolt_depth_frac] and [handle_angle_frac]. *)
Definition same_but_fracs (a b : Settings) : Prop :=
  inner_radius a = inner_radius b
  /\ thickness a = thickness b
  /\ ring_length a = ring_length b
  /\ full_circle_res a = full_circle_res b
  /\ regular_count a = regular_count b
  /\ key_angle_factor a = key_angle_factor b
  /\ bolt_radius a = bolt_radius b
  /\ handle_width_tan a = handle_width_tan b
  /\ handle_height_tan a = handle_height_tan b
  /\ handle_depth_frac a = handle_depth_frac b
  /\ handle_diagonal_deg a = handle_diagonal_deg b
  /\ gn_ring_count a = gn_ring_count b
  /\ gn_ring_spacing a = gn_ring_spacing b
  /\ gn_rot_jitter_deg a = gn_rot_jitter_deg b
  /\ gn_pos_jitter a = gn_pos_jitter b
  /\ gn_seed a = gn_seed b.

(** ** The ["Tunnel"] collection (lines 95-106) and the old node group
    (lines 297-300) *)

(** The data blocks together with what the script touches of
    [bpy.context.scene.collection]: the names of the objects linked to
    the scene collection itself, and of its child collections. *)
Record GenState := {
  gen_data : BlendData;
  scene_objects : list string;
  scene_children : list string
}.

(** A statement on the data blocks, run on the whole state. *)
Definition on_data {A} (c : M BlendData A) : M GenState A :=
  fun s =>
    match c (gen_data s) with
    | Done a d =>
        Done a {| gen_data := d; scene_objects := scene_objects s;
                  scene_children := scene_children s |}
    | Raised e d =>
        Raised e {| gen_data := d; scene_objects := scene_objects s;
                    scene_children := scene_children s |}
    end.

Section TunnelCollection.

(** The name the host gives to a new data block that is asked for under
    [name] while the names [taken] are in use. *)
Variable unique_name : string -> list string -> string.

(** [bpy.data.collections.new(name)] *)
Definition collections_new (name : string) : M BlendData string :=
  fun d =>
    let n := unique_name name (map coll_name (collections d)) in
    Done n
      {| collections :=
           collections d ++ [ {| coll_name := n; coll_objects := [] |} ];
         objects := objects d;
         meshes := meshes d;
         node_groups := node_groups d |}.

(** Lines 95-98. *)
Definition make_tunnel_collection : M GenState string :=
  coll <- on_data (collections_new "Tunnel") ;;
  modify (fun s =>
    {| gen_data := gen_data s; scene_objects := scene_objects s;
       scene_children := scene_children s ++ [ coll ] |}) ;;
  ret coll.

End TunnelCollection.

(** The data after [coll.objects.link(obj)]. *)
Definition link_object (coll obj : string) (d : BlendData) : BlendData :=
  {| collections :=
       map (fun c =>
              if String.eqb (coll_name c) coll
              then {| coll_name := coll_name c;
                      coll_objects := coll_objects c ++ [ obj ] |}
              else c)
         (collections d);
     objects := objects d;
     meshes := meshes d;
     node_groups := node_groups d |}.

(** [coll.objects.link(obj)]: the host refuses an object that the
    collection links already. *)
Definition collection_objects_link (coll obj : string) : M BlendData unit :=
  c <- collection_get coll ;;
  o <- object_get obj ;;
  if mem (obj_name o) (coll_objects c) then
    raise (RuntimeError
             (((("Object '" +++ obj) +++ "' already in collection '")
               +++ coll) +++ "'"))
  else modify (link_object coll obj).

(** [bpy.context.scene.collection.objects.unlink(obj)]: the host refuses
    an object that the collection does not link. *)
Definition scene_objects_unlink (obj : string) : M GenState unit :=
  o <- on_data (object_get obj) ;;
  s <- get ;;
  if mem (obj_name o) (scene_objects s) then
    modify (fun s =>
      {| gen_data := gen_data s;
         scene_objects :=
           filter (fun x => negb (String.eqb x obj)) (scene_objects s);
         scene_children := scene_children s |})
  else
    raise (RuntimeError
             (("Object '" +++ obj) +++ "' not in collection")).

(** Lines 101-106; [coll] is the module-level reference to the
    collection made at line 97. *)
Definition link_to_tunnel_only (coll obj : string) : M GenState unit :=
  o <- on_data (object_get obj) ;;
  c <- on_data (collection_get coll) ;;
  (if negb (mem (obj_name o) (coll_objects c))
   then on_data (collection_objects_link coll obj)
   else ret tt) ;;
  o <- on_data (object_get obj) ;;
  s <- get ;;
  if mem (obj_name o) (scene_objects s) then scene_objects_unlink obj
  else ret tt.

(** Lines 297-300: [bpy.data.node_groups.get(ng_name)] is [None] when no
    node group has the name. *)
Definition remove_old_node_group : M BlendData unit :=
  d <- get ;;
  if mem "TBM_TunnelProcedural" (node_groups d)
  then node_groups_remove "TBM_TunnelProcedural"
  else ret tt.

(** A host that gives a free name as it is asked for, and the name with
    [".001"] after it otherwise. *)
Definition sample_unique_name (name : string) (taken : list string)
  : string :=
  if mem name taken then name +++ ".001" else name.

(** ** The wiring of the node graph *)

(** The number of links that enter input [s] of node [n]. *)
Definition links_into (g : NodeTree) (n : nat) (s : SockRef) : nat :=
  List.length
    (filter (fun l => Nat.eqb (to_node l) n && sockref_eqb (to_socket l) s)
       (nt_links g)).

(** Both ends of the link are nodes of the tree. *)
Definition link_in_range (g : NodeTree) (l : Link) : bool :=
  Nat.ltb (from_node l) (List.length (nt_nodes g))
  && Nat.ltb (to_node l) (List.length (nt_nodes g)).

Definition node_type_at (g : NodeTree) (n : nat) : string :=
  match nth_error (nt_nodes g) n with
  | Some nd => node_type nd
  | None => EmptyString
  end.

(** The link is the only one into its input, or its input is the
    [Geometry] input of a Join Geometry node. *)
Definition alone_or_joined (g : NodeTree) (l : Link) : bool :=
  Nat.eqb (links_into g (to_node l) (to_socket l)) 1
  || (String.eqb (node_type_at g (to_node l)) "GeometryNodeJoinGeometry"
      && sockref_eqb (to_socket l) (ByName "Geometry")).

Definition is_by_name (s : SockRef) : bool :=
  match s with
  | ByName _ => true
  | ByIndex _ => false
  end.

(** The inputs of the node the link enters are addressed in one way, all
    by name or all by position, in the links and in the defaults. *)
Definition one_addressing (g : NodeTree) (l : Link) : bool :=
  forallb
    (fun l' =>
       negb (Nat.eqb (to_node l') (to_node l))
       || Bool.eqb (is_by_name (to_socket l')) (is_by_name (to_socket l)))
    (nt_links g)
  && match nth_error (nt_nodes g) (to_node l) with
     | Some nd =>
         forallb
           (fun kv =>
              Bool.eqb (is_by_name (fst kv)) (is_by_name (to_socket l)))
           (node_defaults nd)
     | None => true
     end.

(** The node a link into input [s] of node [n] comes from. *)
Definition upstream (g : NodeTree) (n : nat) (s : SockRef) : option nat :=
  option_map from_node (find_link g n s).

(** ** What the host computes from the part of the graph that places
    the rings (steps 5 to 7)

    As for the segments, with three more node types: output [k] of the
    Group Input node is the value of the [k]-th input of the group; a
    Random Value node of type [FLOAT] yields for each element a value
    that the host draws from its [Min], [Max] and [Seed] inputs and from
    the index of the element; a Mesh Line whose [Count] is linked has as
    many points as the linked value says. *)

Section GroupEval.

(** The host's random floats. *)
Variable host_random : Q -> Q -> Q -> Z -> Q.
(** The values of the inputs of the group, by position. *)
Variable inputs : nat -> option SockVal.

Fixpoint eval_input (fuel : nat) (g : NodeTree) (n : nat) (s : SockRef)
    (i : Z) : option Q :=
  match fuel with
  | O => None
  | S fuel' =>
      match find_link g n s with
      | None =>
          match nth_error (nt_nodes g) n with
          | Some nd => option_map sockval_float (lookup_default nd s)
          | None => None
          end
      | Some l =>
          let m := from_node l in
          match nth_error (nt_nodes g) m with
          | None => None
          | Some src =>
              if String.eqb (node_type src) "NodeGroupInput" then
                match from_socket l with
                | ByIndex k => option_map sockval_float (inputs k)
                | ByName _ => None
                end
              else if String.eqb (node_type src) "GeometryNodeInputIndex"
              then Some (inject_Z i)
              else if String.eqb (node_type src) "ShaderNodeMath" then
                match eval_input fuel' g m (ByIndex 0) i,
                      eval_input fuel' g m (ByIndex 1) i,
                      lookup_attr src "operation" with
                | Some a, Some b, Some op =>
                    if String.eqb op "ADD" then Some (a + b)%Q
                    else if String.eqb op "MULTIPLY" then Some (a * b)%Q
                    else None
                | _, _, _ => None
                end
              else if String.eqb (node_type src) "FunctionNodeRandomValue"
              then
                match eval_input fuel' g m (ByName "Min") i,
                      eval_input fuel' g m (ByName "Max") i,
                      eval_input fuel' g m (ByName "Seed") i,
                      lookup_attr src "data_type" with
                | Some lo, Some hi, Some seed, Some type =>
                    if String.eqb type "FLOAT"
                    then Some (host_random lo hi seed i)
                    else None
                | _, _, _, _ => None
                end
              else None
          end
      end
  end.

(** The vector that arrives at input [s] of node [n] from a Combine XYZ
    node, component by component; a component the script has neither
    linked nor written is the host's ([None]). *)
Definition eval_vector (fuel : nat) (g : NodeTree) (n : nat) (s : SockRef)
    (i : Z) : option (option Q * option Q * option Q) :=
  match find_link g n s with
  | None => None
  | Some l =>
      let m := from_node l in
      match nth_error (nt_nodes g) m with
      | None => None
      | Some src =>
          if String.eqb (node_type src) "ShaderNodeCombineXYZ" then
            Some (eval_input fuel g m (ByIndex 0) i,
                  eval_input fuel g m (ByIndex 1) i,
                  eval_input fuel g m (ByIndex 2) i)
          else None
      end
  end.

(** The number of points of the Mesh Line node [n]. *)
Definition mesh_line_count (g : NodeTree) (n : nat) : option Z :=
  match find_link g n (ByName "Count") with
  | None =>
      match nth_error (nt_nodes g) n with
      | Some nd =>
          match lookup_default nd (ByName "Count") with
          | Some (VInt c) => Some c
          | _ => None
          end
      | None => None
      end
  | Some l =>
      if String.eqb (node_type_at g (from_node l)) "NodeGroupInput" then
        match from_socket l with
        | ByIndex k =>
            match inputs k with
            | Some (VInt c) => Some c
            | _ => None
            end
        | ByName _ => None
        end
      else None
  end.

(** The positions of the points on which the Instance-on-Points node
    [inst] puts its instances: the points of a Mesh Line, moved by a Set
    Position node to the vector at its [Position] input. *)
Definition instance_positions (g : NodeTree) (inst : nat)
    : option (list (option Q * option Q * option Q)) :=
  let fuel := S (List.length (nt_nodes g)) in
  match upstream g inst (ByName "Points") with
  | Some set_pos =>
      if String.eqb (node_type_at g set_pos) "GeometryNodeSetPosition" then
        match upstream g set_pos (ByName "Geometry") with
        | Some line =>
            if String.eqb (node_type_at g line) "GeometryNodeMeshLine" then
              match mesh_line_count g line with
              | Some count =>
                  all_some
                    (map (eval_vector fuel g set_pos (ByName "Position"))
                       (pyrange count))
              | None => None
              end
            else None
        | None => None
        end
      else None
  | None => None
  end.

End GroupEval.

(* ================================================================== *)
(** * Part VIII. Sample data *)
(* ================================================================== *)

(** A file [room.blend] with two cameras in the collection ["Cameras"],
    a third that is tagged ["-noimp"], a fourth that is linked to a
    collection of another scene, and a fifth that is in no collection. *)

Definition sample_hierarchy : LayerCollection :=
  LayerColl "Scene Collection" false
    [ LayerColl "Cameras" false []; LayerColl "Props" true [] ].

Definition sample_layer (name : string) : ViewLayer :=
  {| layer_name := name; layer_collection := sample_hierarchy;
     layer_use := true; use_pass_combined := true;
     use_pass_z := true; use_pass_mist := false |}.

Definition sample_scene (layers : list ViewLayer) : Scene :=
  {| scene_name := "Scene"; cycles_samples := 128;
     render_views :=
       [ {| view_name := "left"; view_use := true |};
         {| view_name := "right"; view_use := true |} ];
     scene_camera := None; frame_end := 250;
     view_layers := layers;
     tree_nodes := []; tree_links := []; trace := [] |}.

Definition sample_camera (name : string) (users : list string)
  : SceneObject :=
  {| so_name := name; so_type := "CAMERA"; so_hide_render := false;
     so_users_collection := users; so_frame_end := None |}.

Definition camera_0 : SceneObject := sample_camera "Camera_0" [ "Cameras" ]%string.
Definition camera_1 : SceneObject := sample_camera "Camera_1" [ "Cameras" ]%string.
Definition camera_noimp : SceneObject :=
  sample_camera "Camera_2-noimp" [ "Cameras" ]%string.
Definition camera_elsewhere : SceneObject :=
  sample_camera "Camera_3" [ "Other Scene" ]%string.
Definition camera_unlinked : SceneObject := sample_camera "Camera_4" [].

(** [bpy.path.relpath] when the working directory is the directory of
    the file. *)
Definition sample_relpath (path : string) : string := "//" +++ path.

(** A host that names a new view as it is asked to when the name is
    free, and a scene and a view layer as it is asked to unless the name
    is empty; the compositor nodes of a new tree. *)
Definition sample_view_name (name : string) (taken : list string) : string :=
  sample_unique_name
    (if String.eqb name EmptyString then "RenderView" else name) taken.

Definition sample_scene_name (old name : string) : string :=
  if String.eqb name EmptyString then "Scene" else name.

Definition sample_layer_name (name : string) (taken : list string) : string :=
  sample_unique_name
    (if String.eqb name EmptyString then "ViewLayer" else name) taken.

Definition sample_default_nodes : list CompNode :=
  [ {| cn_type := "CompositorNodeComposite"; cn_layer := None;
       cn_path := None; cn_base_path := None |};
    {| cn_type := "CompositorNodeRLayers"; cn_layer := None;
       cn_path := None; cn_base_path := None |} ].

Definition sample_default_links : list CompLink :=
  [ {| cl_from := 1; cl_output := "Image"; cl_to := 0; cl_input := 0 |} ].

(** The file with the scene above, which has not used nodes yet. *)
Definition sample_file (layers : list ViewLayer) : BlendFile :=
  {| file_scene := sample_scene layers; scene_has_tree := false;
     scene_use_nodes := false; world_names := [ "World"%string ] |}.

(** A file where a run of the generator stopped after the regular
    segment and its bolt cutters: the collection ["Tunnel"] holds them,
    next to a cube of the user's and a leftover of an older version of
    the script. *)
Definition sample_data : BlendData :=
  {| collections :=
       [ {| coll_name := "Collection";
            coll_objects := [ "Cube"; "SegReg.001" ] |};
         {| coll_name := "Tunnel";
            coll_objects :=
              [ "Segment (Regular)"; "Bolt Pocket (Back) - Regular";
                "Bolt Pocket (Front) - Regular" ] |} ]%string;
     objects :=
       [ {| obj_name := "Cube"; obj_data := Some "Cube" |};
         {| obj_name := "Segment (Regular)";
            obj_data := Some "Segment (Regular)_Mesh" |};
         {| obj_name := "Bolt Pocket (Back) - Regular";
            obj_data := Some "Cylinder" |};
         {| obj_name := "Bolt Pocket (Front) - Regular";
            obj_data := Some "Cylinder.001" |};
         {| obj_name := "SegReg.001"; obj_data := Some "Cube" |};
         {| obj_name := "Segment (Regular) old"; obj_data := None |} ]%string;
     meshes :=
       [ {| mesh_name := "Cube"; mesh_other_users := 0 |};
         {| mesh_name := "Segment (Regular)_Mesh"; mesh_other_users := 0 |};
         {| mesh_name := "Cylinder"; mesh_other_users := 1 |};
         {| mesh_name := "Cylinder.001"; mesh_other_users := 0 |} ]%string;
     node_groups := [ "TBM_TunnelProcedural"; "Shading" ]%string |}.

Definition empty_data : BlendData :=
  {| collections := []; objects := []; meshes := []; node_groups := [] |}.

(** The regular segment of the script, with a constant for [cos] and one
    for [sin]. *)
Definition sample_segment : SegmentMesh :=
  match
    make_segment_mesh (fun _ => 1%Q) (fun _ => 0%Q) user_settings
      "Segment (Regular)" (3600 # 56)
  with
  | Some m => m
  | None =>
      {| seg_name := ""; seg_mesh_name := ""; seg_steps := 0;
         seg_verts := []; seg_faces := []; seg_use_smooth := false |}
  end.

(* ================================================================== *)
(** * Part IX. Properties of the tunnel generator *)
(* ================================================================== *)

(** ** Derived angles *)


Lemma py_div_some (a b : Q) : ~ (b == 0)%Q -> py_div a b = Some (a / b)%Q.
Proof.
  intros Hb. unfold py_div.
  destruct (Qeq_bool b 0) eqn:E; [ | reflexivity ].
  apply Qeq_bool_iff in E. contradiction.
Qed.

Lemma angle_denominator_pos (cfg : Settings) :
  1 <= regular_count cfg -> (0 < key_angle_factor cfg)%Q ->
  (0 < inject_Z (regular_count cfg) + key_angle_factor cfg)%Q.
Proof.
  intros Hc Hk.
  assert (H1 : (0 <= inject_Z (regular_count cfg))%Q).
  { change 0%Q with (inject_Z 0). rewrite <- Zle_Qle. lia. }
  lra.
Qed.

(** C1. For every [regular_count >= 1] and [key_angle_factor > 0], the
    derived angles [regular_angle = 360 / (regular_count + key_angle_factor)]
    and [key_angle = key_angle_factor * regular_angle] exist and satisfy
    [regular_count * regular_angle + key_angle == 360], exactly, over the
    rationals. *)
Theorem derived_angles_close_circle (cfg : Settings) :
  1 <= regular_count cfg ->
  (0 < key_angle_factor cfg)%Q ->
  exists ra ka : Q,
    regular_angle_deg cfg = Some ra /\
    key_angle_deg cfg = Some ka /\
    (ra == 360 / (inject_Z (regular_count cfg) + key_angle_factor cfg))%Q /\
    (ka == key_angle_factor cfg * ra)%Q /\
    (inject_Z (regular_count cfg) * ra + ka == 360)%Q.
Proof.
  intros Hc Hk.
  pose proof (angle_denominator_pos cfg Hc Hk) as Hpos.
  assert (Hne : ~ (inject_Z (regular_count cfg) + key_angle_factor cfg == 0)%Q)
    by lra.
  exists (360 / (inject_Z (regular_count cfg) + key_angle_factor cfg))%Q.
  exists (360 / (inject_Z (regular_count cfg) + key_angle_factor cfg)
          * key_angle_factor cfg)%Q.
  unfold key_angle_deg, regular_angle_deg.
  rewrite (py_div_some _ _ Hne).
  repeat split; try reflexivity.
  - ring.
  - field. exact Hne.
Qed.

Lemma derived_angles_close_circle_witness :
  exists ra ka : Q,
    regular_angle_deg user_settings = Some ra /\
    key_angle_deg user_settings = Some ka /\
    (ra == 360 / (inject_Z (regular_count user_settings)
                  + key_angle_factor user_settings))%Q /\
    (ka == key_angle_factor user_settings * ra)%Q /\
    (inject_Z (regular_count user_settings) * ra + ka == 360)%Q.
Proof.
  apply (derived_angles_close_circle user_settings).
  - simpl. lia.
  - reflexivity.
Defined.

(** With the settings of the script, [5] and the double nearest to
    [0.6], the doubles Python computes close the circle too, without any
    rounding error left: [5 * regular_angle + key_angle] is the double
    [360]. *)
Example derived_angles_doubles :
  let factor := 0x1.3333333333333p-1%float in
  let ra := regular_angle_deg_double 5 factor in
  let ka := key_angle_deg_double 5 factor in
  PrimFloat.eqb (5 * ra + ka) 360 = true.
Proof. vm_compute. reflexivity. Qed.

(** ** Segment templates *)



(** On a tie it returns the even neighbour. *)
Lemma py_round_tie (n : Z) :
  py_round (inject_Z n + (1 # 2)) = if Z.even n then n else n + 1.
Proof.
  unfold py_round.
  assert (Hf : Qfloor (inject_Z n + (1 # 2)) = n).
  { pose proof (Qfloor_le (inject_Z n + (1 # 2))) as Hlo.
    pose proof (Qlt_floor (inject_Z n + (1 # 2))) as Hhi.
    set (f := Qfloor (inject_Z n + (1 # 2))) in *.
    assert (H1 : (inject_Z f < inject_Z (n + 1))%Q)
      by (rewrite inject_Z_plus; change (inject_Z 1) with 1%Q; lra).
    assert (H2 : (inject_Z n < inject_Z (f + 1))%Q) by lra.
    rewrite <- Zlt_Qlt in H1, H2. lia. }
  rewrite Hf.
  assert (E : Qcompare (inject_Z n + (1 # 2) - inject_Z n) (1 # 2) = Eq).
  { apply Qeq_alt. ring. }
  now rewrite E.
Qed.

Lemma pyrange_length (n : Z) : List.length (pyrange n) = Z.to_nat n.
Proof. unfold pyrange. now rewrite length_map, length_seq. Qed.

(** A loop that appends [k] items per pass grows the list by [k] per
    element passed over. *)
Lemma fold_append_length {A X} (f : X -> list A) (k : nat) (xs : list X) :
  (forall x, List.length (f x) = k) ->
  forall acc,
    List.length (fold_left (fun acc x => acc ++ f x) xs acc)
    = (List.length acc + k * List.length xs)%nat.
Proof.
  intros Hf. induction xs as [ | x xs IH ]; intros acc; simpl.
  - lia.
  - rewrite IH, length_app, Hf. lia.
Qed.


Lemma segment_steps_min (cfg : Settings) (angle_deg : Q) (steps : Z) :
  segment_steps cfg angle_deg = Some steps -> 8 <= steps.
Proof.
  unfold segment_steps.
  destruct (py_round_double _); cbn; [ | discriminate ].
  intros H. injection H as <-. lia.
Qed.

Section SegmentMeshFacts.

Variables math_cos math_sin : Q -> Q.
Variable cfg : Settings.

(** The mesh of a call that returns, with its step count. *)
Lemma make_segment_mesh_run (name : string) (angle_deg : Q)
    (m : SegmentMesh) :
  make_segment_mesh math_cos math_sin cfg name angle_deg = Some m ->
  exists steps,
    segment_steps cfg angle_deg = Some steps
    /\ 8 <= steps
    /\ seg_steps m = steps
    /\ seg_verts m
       = fold_left
           (fun verts i =>
              verts
              ++ ring_verts math_cos math_sin cfg steps
                   (- math_radians angle_deg / 2)
                   (math_radians angle_deg / 2) i)
           (pyrange (steps + 1)) []
    /\ seg_faces m
       = (fold_left (fun faces i => faces ++ ring_faces i) (pyrange steps) []
          ++ [ (0, 2, 3, 1) ])
         ++ [ (steps * 4, steps * 4 + 1, steps * 4 + 3, steps * 4 + 2) ].
Proof.
  unfold make_segment_mesh.
  destruct (segment_steps cfg angle_deg) as [ steps | ] eqn:Hs;
    [ | discriminate ].
  intros H. injection H as <-. exists steps.
  split; [ reflexivity | ].
  split; [ exact (segment_steps_min cfg angle_deg steps Hs) | ].
  repeat split.
Qed.

Lemma make_segment_mesh_faces (name : string) (angle_deg : Q)
    (m : SegmentMesh) :
  make_segment_mesh math_cos math_sin cfg name angle_deg = Some m ->
  Z.of_nat (List.length (seg_faces m)) = 4 * seg_steps m + 2.
Proof.
  intros H.
  destruct (make_segment_mesh_run name angle_deg m H)
    as (steps & _ & Hmin & -> & _ & ->).
  rewrite !length_app.
  rewrite (fold_append_length ring_faces 4) by reflexivity.
  rewrite pyrange_length. cbn [List.length]. lia.
Qed.

Lemma seg_verts_length (name : string) (angle_deg : Q) (m : SegmentMesh) :
  make_segment_mesh math_cos math_sin cfg name angle_deg = Some m ->
  Z.of_nat (List.length (seg_verts m)) = 4 * (seg_steps m + 1).
Proof.
  intros H.
  destruct (make_segment_mesh_run name angle_deg m H)
    as (steps & _ & Hmin & -> & -> & _).
  rewrite (fold_append_length
             (ring_verts math_cos math_sin cfg steps
                (- math_radians angle_deg / 2) (math_radians angle_deg / 2))
             4) by reflexivity.
  rewrite pyrange_length. cbn [List.length]. lia.
Qed.


End SegmentMeshFacts.

Lemma in_pyrange (n i : Z) : In i (pyrange n) <-> 0 <= i < n.
Proof.
  unfold pyrange. rewrite in_map_iff. split.
  - intros (k & <- & Hk). apply in_seq in Hk. lia.
  - intros H. exists (Z.to_nat i). split; [ lia | ].
    apply in_seq. lia.
Qed.

Lemma in_fold_append {A X} (f : X -> list A) (xs : list X) (acc : list A)
    (a : A) :
  In a (fold_left (fun acc x => acc ++ f x) xs acc)
  <-> In a acc \/ exists x, In x xs /\ In a (f x).
Proof.
  revert acc. induction xs as [ | x xs IH ]; intros acc; cbn.
  - split; [ auto | intros [ H | (x & [] & _) ]; exact H ].
  - rewrite IH, in_app_iff. split.
    + intros [ [ H | H ] | (y & Hy & H) ]; eauto.
    + intros [ H | (y & [ <- | Hy ] & H) ]; eauto.
Qed.

Section SegmentFaces.

Variables math_cos math_sin : Q -> Q.
Variable cfg : Settings.

(** Every face refers to vertices that exist. *)
Lemma make_segment_mesh_faces_valid (name : string) (angle_deg : Q)
    (m : SegmentMesh) :
  make_segment_mesh math_cos math_sin cfg name angle_deg = Some m ->
  Forall (face_in_range (Z.of_nat (List.length (seg_verts m))))
    (seg_faces m).
Proof.
  intros H.
  rewrite (seg_verts_length math_cos math_sin cfg name angle_deg m H).
  destruct (make_segment_mesh_run math_cos math_sin cfg name angle_deg m H)
    as (steps & _ & Hmin & -> & _ & ->).
  apply Forall_forall. intros f Hf.
  rewrite !in_app_iff, in_fold_append in Hf. cbn [In] in Hf.
  destruct Hf as [ [ [ [] | (i & Hi & Hf) ] | [ <- | [] ] ] | [ <- | [] ] ].
  - apply in_pyrange in Hi. unfold ring_faces in Hf. cbn [In] in Hf.
    destruct Hf as [ <- | [ <- | [ <- | [ <- | [] ] ] ] ];
      unfold face_in_range; lia.
  - unfold face_in_range. lia.
  - unfold face_in_range. lia.
Qed.

End SegmentFaces.

(** The regular segment of the script: [23] steps. *)
Example regular_segment_mesh_size :
  match make_segment_mesh (fun _ => 1%Q) (fun _ => 0%Q) user_settings
          "Segment (Regular)" (3600 # 56) with
  | Some m =>
      seg_steps m = 23 /\ List.length (seg_verts m) = 96%nat
      /\ List.length (seg_faces m) = 94%nat
  | None => False
  end.
Proof. vm_compute. repeat split. Qed.

(** The step count follows the doubles: with [full_circle_res = 100] and
    the double nearest to [30.6] the quotient is the double [8.5], which
    [round] takes to [8], where the quotient of the two values taken as
    rationals lies above [8.5]. *)
Example steps_follow_doubles :
  let cfg :=
    {| inner_radius := 2.45; thickness := 0.30; ring_length := 1.5;
       full_circle_res := 100; regular_count := 5;
       key_angle_factor := 0.6; bolt_angle_frac := 0.30;
       bolt_radius := 0.10; bolt_depth_frac := 0.35;
       handle_angle_frac := 0.45; handle_width_tan := 0.45;
       handle_height_tan := 0.18; handle_depth_frac := 0.30;
       handle_diagonal_deg := 15.0; gn_ring_count := 10;
       gn_ring_spacing := 1.5; gn_rot_jitter_deg := 40;
       gn_pos_jitter := 0.01; gn_seed := 27 |} in
  let A := 0x1.e99999999999ap+4%float in
  float_of_Q 30.6 = A
  /\ steps_quotient cfg 30.6 = 8.5%float
  /\ segment_steps cfg 30.6 = Some 8
  /\ option_map (fun a => py_round (100 * a / 360)%Q) (double_value A)
     = Some 9.
Proof. vm_compute. repeat split. Qed.

(** A product that leaves the doubles: [round] raises and there is no
    mesh. *)
Example steps_overflow :
  make_segment_mesh (fun _ => 1%Q) (fun _ => 0%Q) user_settings
    "Segment (Regular)" (inject_Z (10 ^ 308))
  = None.
Proof. vm_compute. reflexivity. Qed.

(** ** Placement of the segments around the ring *)


Lemma all_some_map {A B} (f : A -> B) (l : list A) :
  all_some (map (fun x => Some (f x)) l) = Some (map f l).
Proof.
  induction l as [ | x l IH ]; simpl; [ reflexivity | ].
  now rewrite IH.
Qed.

Lemma pyrange_snoc (n : Z) : 1 <= n -> pyrange n = pyrange (n - 1) ++ [ n - 1 ].
Proof.
  intros Hn. unfold pyrange.
  replace (Z.to_nat n) with (Z.to_nat (n - 1) + 1)%nat by lia.
  rewrite seq_app, map_app. simpl.
  now rewrite Z2Nat.id by lia.
Qed.

Lemma math_pi_pos : (0 < math_pi)%Q.
Proof. reflexivity. Qed.

Lemma math_radians_pos (x : Q) : (0 < x)%Q -> (0 < math_radians x)%Q.
Proof.
  intros Hx. unfold math_radians.
  apply Qmult_lt_0_compat; [ exact Hx | ].
  apply Qlt_shift_div_l; [ reflexivity | ].
  rewrite Qmult_0_l. exact math_pi_pos.
Qed.

Lemma math_radians_linear (a b x y : Q) :
  (math_radians (a * x + b * y)
   == a * math_radians x + b * math_radians y)%Q.
Proof. unfold math_radians. ring. Qed.

(** The derived angles exist and are positive on the settings the
    script is meant for. *)
Lemma derived_angles_pos (cfg : Settings) :
  1 <= regular_count cfg -> (0 < key_angle_factor cfg)%Q ->
  exists ra ka : Q,
    regular_angle_deg cfg = Some ra /\ key_angle_deg cfg = Some ka /\
    (0 < ra)%Q /\ (ka == key_angle_factor cfg * ra)%Q /\ (0 < ka)%Q.
Proof.
  intros Hc Hk.
  pose proof (angle_denominator_pos cfg Hc Hk) as Hpos.
  assert (Hne : ~ (inject_Z (regular_count cfg) + key_angle_factor cfg == 0)%Q)
    by lra.
  assert (Hra : (0 < 360 / (inject_Z (regular_count cfg)
                            + key_angle_factor cfg))%Q).
  { apply Qlt_shift_div_l; [ exact Hpos | ]. rewrite Qmult_0_l. reflexivity. }
  eexists. eexists.
  unfold key_angle_deg, regular_angle_deg.
  rewrite (py_div_some _ _ Hne).
  repeat split; try reflexivity.
  - exact Hra.
  - ring.
  - apply Qmult_lt_0_compat; assumption.
Qed.

Section GraphFacts.

Variable host_identifier : nat -> string.
Variable cfg : Settings.
Variables ra ka : Q.

(** Evaluating the built graph: the chain Index -> Math(ADD 0.5) ->
    Math(MULTIPLY) rotates the regular instances by
    [(index + 0.5) * radians(regular_angle_deg)], one per point of the mesh
    line of [regular_count] points, and the only key instance is rotated
    by [key_rot_angle]. *)
Lemma built_graph_rotations_run :
  match build_tunnel_graph cfg ra ka host_identifier
          (node_groups_new "TBM_TunnelProcedural" "GeometryNodeTree") with
  | Done vars g =>
      instance_rotations g (v_inst_reg vars)
      = Some (map (regular_rotation (math_radians ra))
                (pyrange (regular_count cfg)))
      /\ instance_rotations g (v_inst_key vars)
         = Some [ key_rot_angle cfg ra ka ]
  | Raised _ _ => False
  end.
Proof.
  cbv -[map all_some pyrange Qplus Qmult Qdiv Qopp Qminus inject_Z
        math_radians key_rot_angle regular_count gn_ring_count
        gn_ring_spacing gn_rot_jitter_deg gn_pos_jitter gn_seed].
  split.
  - apply (all_some_map (regular_rotation (math_radians ra))).
  - reflexivity.
Qed.

Lemma built_graph_rotations :
  exists vars g,
    build_tunnel_graph cfg ra ka host_identifier
      (node_groups_new "TBM_TunnelProcedural" "GeometryNodeTree")
    = Done vars g
    /\ instance_rotations g (v_inst_reg vars)
       = Some (map (regular_rotation (math_radians ra))
                 (pyrange (regular_count cfg)))
    /\ instance_rotations g (v_inst_key vars)
       = Some [ key_rot_angle cfg ra ka ].
Proof.
  pose proof built_graph_rotations_run as H.
  destruct (build_tunnel_graph cfg ra ka host_identifier _) as [ vars g | e g ].
  - exists vars, g. split; [ reflexivity | exact H ].
  - contradiction.
Qed.

End GraphFacts.

Lemma tunnel_node_group_rotations (host_identifier : nat -> string)
    (cfg : Settings) (ra ka : Q) :
  regular_angle_deg cfg = Some ra ->
  key_angle_deg cfg = Some ka ->
  exists vars g,
    tunnel_node_group host_identifier cfg = Some (vars, g)
    /\ instance_rotations g (v_inst_reg vars)
       = Some (map (regular_rotation (math_radians ra))
                 (pyrange (regular_count cfg)))
    /\ instance_rotations g (v_inst_key vars)
       = Some [ key_rot_angle cfg ra ka ].
Proof.
  intros Hra Hka.
  destruct (built_graph_rotations host_identifier cfg ra ka)
    as (vars & g & Hb & Hreg & Hkey).
  exists vars, g. unfold tunnel_node_group.
  rewrite Hra, Hka, Hb. auto.
Qed.

Lemma regular_rotation_increasing (regular_angle : Q) (i j : Z) :
  (0 < regular_angle)%Q -> i < j ->
  (regular_rotation regular_angle i < regular_rotation regular_angle j)%Q.
Proof.
  intros Hr Hij. unfold regular_rotation.
  apply Qmult_lt_compat_r; [ exact Hr | ].
  apply Qplus_lt_l. rewrite <- Zlt_Qlt. exact Hij.
Qed.

Lemma regular_arcs_abut (regular_angle : Q) (i : Z) :
  (arc_end (regular_rotation regular_angle i) regular_angle
   == arc_start (regular_rotation regular_angle (i + 1)) regular_angle)%Q.
Proof.
  unfold arc_end, arc_start, regular_rotation.
  rewrite inject_Z_plus. field.
Qed.

(** C5 (as the code has it). With [regular_count = 5], the
    regular-segment instance of index [i] is rotated by
    [(i + 0.5) * regular_angle] for [i] in [0..4] (the angle in radians,
    as the node stores it); the five angles are strictly increasing, each
    [regular_angle] after the one before, and from the first to the last
    they span [4 * regular_angle]; the five arcs centred on them, each
    [regular_angle] wide, start at [0], abut and end at
    [5 * regular_angle]. *)
Theorem regular_instances_fan (host_identifier : nat -> string)
    (cfg : Settings) :
  regular_count cfg = 5 ->
  (0 < key_angle_factor cfg)%Q ->
  exists (ra : Q) (vars : GraphVars) (g : NodeTree),
    regular_angle_deg cfg = Some ra /\
    tunnel_node_group host_identifier cfg = Some (vars, g) /\
    let regular_angle := math_radians ra in
    instance_rotations g (v_inst_reg vars)
    = Some (map (regular_rotation regular_angle) [ 0; 1; 2; 3; 4 ]) /\
    (forall i j : Z,
       i < j ->
       (regular_rotation regular_angle i
        < regular_rotation regular_angle j)%Q) /\
    (forall i : Z,
       (regular_rotation regular_angle (i + 1)
        - regular_rotation regular_angle i
        == regular_angle)%Q) /\
    (regular_rotation regular_angle 4 - regular_rotation regular_angle 0
     == 4 * regular_angle)%Q /\
    (arc_start (regular_rotation regular_angle 0) regular_angle == 0)%Q /\
    (forall i : Z,
       (arc_end (regular_rotation regular_angle i) regular_angle
        == arc_start (regular_rotation regular_angle (i + 1))
             regular_angle)%Q) /\
    (arc_end (regular_rotation regular_angle 4) regular_angle
     == 5 * regular_angle)%Q.
Proof.
  intros Hc Hk.
  destruct (derived_angles_pos cfg) as (ra & ka & Hra & Hka & Hpos & _ & _);
    [ lia | exact Hk | ].
  destruct (tunnel_node_group_rotations host_identifier cfg ra ka Hra Hka)
    as (vars & g & Hg & Hreg & _).
  exists ra, vars, g.
  split; [ exact Hra | ]. split; [ exact Hg | ].
  pose proof (math_radians_pos ra Hpos) as Hrad.
  cbv zeta. rewrite Hreg, Hc.
  split; [ reflexivity | ].
  split; [ intros i j; apply regular_rotation_increasing; exact Hrad | ].
  split.
  { intros i. unfold regular_rotation. rewrite inject_Z_plus. field. }
  split; [ unfold regular_rotation; field | ].
  split; [ unfold arc_start, regular_rotation; field | ].
  split; [ apply regular_arcs_abut | ].
  unfold arc_end, regular_rotation. field.
Qed.

Lemma regular_instances_fan_witness :
  exists (ra : Q) (vars : GraphVars) (g : NodeTree),
    regular_angle_deg user_settings = Some ra /\
    tunnel_node_group (fun _ => "Socket"%string) user_settings
    = Some (vars, g) /\
    let regular_angle := math_radians ra in
    instance_rotations g (v_inst_reg vars)
    = Some (map (regular_rotation regular_angle) [ 0; 1; 2; 3; 4 ]) /\
    (forall i j : Z,
       i < j ->
       (regular_rotation regular_angle i
        < regular_rotation regular_angle j)%Q) /\
    (forall i : Z,
       (regular_rotation regular_angle (i + 1)
        - regular_rotation regular_angle i
        == regular_angle)%Q) /\
    (regular_rotation regular_angle 4 - regular_rotation regular_angle 0
     == 4 * regular_angle)%Q /\
    (arc_start (regular_rotation regular_angle 0) regular_angle == 0)%Q /\
    (forall i : Z,
       (arc_end (regular_rotation regular_angle i) regular_angle
        == arc_start (regular_rotation regular_angle (i + 1))
             regular_angle)%Q) /\
    (arc_end (regular_rotation regular_angle 4) regular_angle
     == 5 * regular_angle)%Q.
Proof.
  apply (regular_instances_fan (fun _ => "Socket"%string) user_settings).
  - reflexivity.
  - reflexivity.
Defined.

(** The counterexample to C5 as the specification words it: with the
    settings of the script the node group rotates the five regular
    instances by five angles of which the last is [4 * regular_angle]
    after the first, and not [5 * regular_angle]. *)
Lemma five_angles_span_counterexample :
  regular_count user_settings = 5
  /\ match
       regular_angle_deg user_settings,
       tunnel_node_group (fun _ => "Socket"%string) user_settings
     with
     | Some ra, Some (vars, g) =>
         match instance_rotations g (v_inst_reg vars) with
         | Some [ a0; a1; a2; a3; a4 ] =>
             (a4 - a0 == 4 * math_radians ra)%Q
             /\ ~ (a4 - a0 == 5 * math_radians ra)%Q
         | _ => False
         end
     | _, _ => False
     end.
Proof.
  split; [ reflexivity | ].
  vm_compute. split; [ reflexivity | discriminate ].
Qed.

Lemma last_map_pyrange {A} (f : Z -> A) (n : Z) (d : A) :
  1 <= n -> last (map f (pyrange n)) d = f (n - 1).
Proof.
  intros Hn. rewrite (pyrange_snoc n Hn), map_app. simpl.
  apply last_last.
Qed.

Lemma arc_not_empty (rot arc : Q) :
  (0 < arc)%Q -> (arc_start rot arc < arc_end rot arc)%Q.
Proof.
  intros H. unfold arc_start, arc_end.
  assert (E : (arc / 2 == arc * (1 # 2))%Q) by field.
  rewrite E. lra.
Qed.

(** C6. The key-segment instance is rotated by
    [regular_count * regular_angle + key_angle / 2] (in radians, as the
    node stores it), so the lower edge of the key arc, the rotation minus
    [key_angle / 2], is the upper edge of the last regular arc: the two
    arcs are adjacent and, both being of positive width, do not
    overlap. *)
Theorem key_instance_adjacent (host_identifier : nat -> string)
    (cfg : Settings) :
  1 <= regular_count cfg ->
  (0 < key_angle_factor cfg)%Q ->
  exists (ra ka : Q) (vars : GraphVars) (g : NodeTree)
         (regular_rots : list Q) (key_rot : Q),
    regular_angle_deg cfg = Some ra /\
    key_angle_deg cfg = Some ka /\
    tunnel_node_group host_identifier cfg = Some (vars, g) /\
    instance_rotations g (v_inst_reg vars) = Some regular_rots /\
    instance_rotations g (v_inst_key vars) = Some [ key_rot ] /\
    key_rot
    = math_radians (inject_Z (regular_count cfg) * ra + ka / 2)%Q /\
    let last_regular := last regular_rots 0%Q in
    (arc_start key_rot (math_radians ka)
     == arc_end last_regular (math_radians ra))%Q /\
    (arc_start last_regular (math_radians ra)
     < arc_end last_regular (math_radians ra))%Q /\
    (arc_start key_rot (math_radians ka)
     < arc_end key_rot (math_radians ka))%Q.
Proof.
  intros Hc Hk.
  destruct (derived_angles_pos cfg Hc Hk)
    as (ra & ka & Hra & Hka & Hrapos & _ & Hkapos).
  destruct (tunnel_node_group_rotations host_identifier cfg ra ka Hra Hka)
    as (vars & g & Hg & Hreg & Hkey).
  exists ra, ka, vars, g.
  eexists. exists (key_rot_angle cfg ra ka).
  split; [ exact Hra | ]. split; [ exact Hka | ]. split; [ exact Hg | ].
  split; [ exact Hreg | ]. split; [ exact Hkey | ].
  split; [ reflexivity | ].
  pose proof (math_radians_pos ra Hrapos) as Hr.
  pose proof (math_radians_pos ka Hkapos) as Hq.
  cbv zeta. rewrite (last_map_pyrange _ _ _ Hc).
  split; [ | split; apply arc_not_empty; assumption ].
  unfold arc_start, arc_end, regular_rotation, key_rot_angle.
  unfold Zminus. rewrite inject_Z_plus.
  unfold math_radians. change (inject_Z (- (1))) with (- (1))%Q. field.
Qed.

Lemma key_instance_adjacent_witness :
  exists (ra ka : Q) (vars : GraphVars) (g : NodeTree)
         (regular_rots : list Q) (key_rot : Q),
    regular_angle_deg user_settings = Some ra /\
    key_angle_deg user_settings = Some ka /\
    tunnel_node_group (fun _ => "Socket"%string) user_settings
    = Some (vars, g) /\
    instance_rotations g (v_inst_reg vars) = Some regular_rots /\
    instance_rotations g (v_inst_key vars) = Some [ key_rot ] /\
    key_rot
    = math_radians
        (inject_Z (regular_count user_settings) * ra + ka / 2)%Q /\
    let last_regular := last regular_rots 0%Q in
    (arc_start key_rot (math_radians ka)
     == arc_end last_regular (math_radians ra))%Q /\
    (arc_start last_regular (math_radians ra)
     < arc_end last_regular (math_radians ra))%Q /\
    (arc_start key_rot (math_radians ka)
     < arc_end key_rot (math_radians ka))%Q.
Proof.
  apply (key_instance_adjacent (fun _ => "Socket"%string) user_settings).
  - simpl. lia.
  - reflexivity.
Defined.

(** With the settings of the script the key arc ends where the first
    regular arc starts, one full turn later. *)
Lemma key_arc_closes_ring (cfg : Settings) (ra ka : Q) :
  1 <= regular_count cfg -> (0 < key_angle_factor cfg)%Q ->
  regular_angle_deg cfg = Some ra -> key_angle_deg cfg = Some ka ->
  (arc_end (key_rot_angle cfg ra ka) (math_radians ka)
   == math_radians 360)%Q.
Proof.
  intros Hc Hk Hra Hka.
  pose proof (angle_denominator_pos cfg Hc Hk) as Hpos.
  assert (Hne : ~ (inject_Z (regular_count cfg) + key_angle_factor cfg == 0)%Q)
    by lra.
  unfold key_angle_deg in Hka. rewrite Hra in Hka. injection Hka as <-.
  unfold regular_angle_deg in Hra. rewrite (py_div_some _ _ Hne) in Hra.
  injection Hra as <-.
  unfold arc_end, key_rot_angle, math_radians. field. exact Hne.
Qed.

(** ** The controller's inputs and the end of the run *)


Lemma print_lines (lines : list string) (f : string -> string) (r : Run) :
  for_each lines (fun c => print (f c)) r
  = Done tt {| run_mod := run_mod r;
               run_stdout := run_stdout r ++ map f lines |}.
Proof.
  revert r. induction lines as [ | c lines IH ]; intros r; simpl.
  - unfold ret. rewrite app_nil_r. now destruct r.
  - unfold bind, print, modify. rewrite IH. simpl.
    now rewrite <- app_assoc.
Qed.

Lemma app_nonempty_r {A} (l1 l2 : list A) : l2 <> [] -> l1 ++ l2 <> [].
Proof. destruct l1; simpl; [ auto | discriminate ]. Qed.

Lemma last_app_nonempty {A} (l1 l2 : list A) (d : A) :
  l2 <> [] -> last (l1 ++ l2) d = last l2 d.
Proof.
  intros H. induction l1 as [ | x l1 IH ]; simpl; [ reflexivity | ].
  rewrite IH. destruct (l1 ++ l2) eqn:E; [ | reflexivity ].
  now apply app_nonempty_r in E.
Qed.

Lemma last_cons_nonempty {A} (a : A) (l : list A) (d : A) :
  l <> [] -> last (a :: l) d = last l d.
Proof. destruct l; [ contradiction | reflexivity ]. Qed.

Ltac nonempty := repeat first [ discriminate | apply app_nonempty_r ].

Section ControllerFacts.

Variable setitem_error :
  list (string * PropValue) -> string -> PropValue -> option exn.
Variable cfg : Settings.
Variable ng : NodeTree.
Variables seg_reg seg_key : string.
Variables cutters_reg cutters_key : list string.

Lemma print_summary_completes (r : Run) :
  exists lines,
    print_summary seg_reg seg_key cutters_reg cutters_key r
    = Done tt {| run_mod := run_mod r;
                 run_stdout := run_stdout r ++ lines |}
    /\ last lines EmptyString = "View result on: Tunnel Controller"%string.
Proof.
  unfold print_summary, bind, print at 1 2 3 4 5, modify. simpl.
  rewrite !print_lines. simpl. unfold print, modify. simpl.
  eexists. split.
  - rewrite <- !app_assoc. simpl. reflexivity.
  - repeat rewrite last_cons_nonempty by nonempty.
    repeat rewrite last_app_nonempty by nonempty.
    reflexivity.
Qed.

Let body := assign_inputs_body setitem_error cfg ng seg_reg seg_key.

Ltac step_body :=
  cbv beta iota zeta
      delta [bind py_index nth_error ret raise mod_setitem print modify
             run_mod run_stdout mod_props mod_name mod_type mod_node_group];
  try match goal with
      | |- context [ setitem_error ?p ?k ?v ] =>
          destruct (setitem_error p k v)
      end.

(** What a completed [try] body has done: the first seven input sockets
    of the interface, in interface order, have received the seven values,
    and the success line is printed. *)
Lemma assign_inputs_body_done (r r1 : Run) :
  body r = Done tt r1 ->
  exists sockets rest,
    filter (fun s => String.eqb (sock_in_out s) "INPUT") (nt_interface ng)
    = sockets ++ rest
    /\ List.length sockets = 7%nat
    /\ mod_props (run_mod r1)
       = fold_left
           (fun props sv => props_set props (sock_identifier (fst sv)) (snd sv))
           (combine sockets (controller_inputs cfg seg_reg seg_key))
           (mod_props (run_mod r))
    /\ run_stdout r1 = run_stdout r ++ [ "✓ Modifier inputs assigned!"%string ].
Proof.
  unfold body, assign_inputs_body.
  destruct (filter _ (nt_interface ng))
    as [ | s0 [ | s1 [ | s2 [ | s3 [ | s4 [ | s5 [ | s6 rest ] ] ] ] ] ] ];
    repeat step_body; try discriminate.
  intros H. injection H as <-.
  exists [ s0; s1; s2; s3; s4; s5; s6 ], rest.
  repeat split.
Qed.


(** C9. If the assignment of the controller modifier's input sockets
    fails, whatever the exception, the failure is caught, the warning with
    the exception's text is printed, the assignments made before the
    failure stay, and the run continues to its last line; it never
    raises.  When nothing fails, the first seven input sockets of the
    interface, in interface order, have received the two segment objects
    and the five scalar defaults. *)
Theorem controller_assignment_guarded (r : Run) :
  exists (r' : Run) (lines : list string),
    finish_run setitem_error cfg ng seg_reg seg_key cutters_reg cutters_key r
    = Done tt r' /\
    last lines EmptyString = "View result on: Tunnel Controller"%string /\
    match assign_inputs_body setitem_error cfg ng seg_reg seg_key r with
    | Raised e r1 =>
        run_mod r' = run_mod r1 /\
        run_stdout r'
        = run_stdout r1
          ++ ("⚠ Could not auto-assign: " +++ exn_str e) :: lines
    | Done _ _ =>
        exists sockets rest,
          filter (fun s => String.eqb (sock_in_out s) "INPUT")
            (nt_interface ng)
          = sockets ++ rest /\
          List.length sockets = 7%nat /\
          mod_props (run_mod r')
          = fold_left
              (fun props sv =>
                 props_set props (sock_identifier (fst sv)) (snd sv))
              (combine sockets (controller_inputs cfg seg_reg seg_key))
              (mod_props (run_mod r)) /\
          run_stdout r'
          = run_stdout r ++ "✓ Modifier inputs assigned!"%string :: lines
    end.
Proof.
  unfold finish_run, assign_inputs, try_except, bind.
  fold body.
  destruct (body r) as [ [] r1 | e r1 ] eqn:Hbody.
  - destruct (print_summary_completes r1) as (lines & Hsum & Hlast).
    rewrite Hsum. eexists. exists lines.
    split; [ reflexivity | ]. split; [ exact Hlast | ].
    destruct (assign_inputs_body_done r r1 Hbody)
      as (sockets & rest & Hf & Hlen & Hprops & Hout).
    exists sockets, rest. cbn [run_mod run_stdout].
    rewrite Hout, <- app_assoc. auto.
  - unfold print at 1, modify.
    match goal with
    | |- context [ print_summary _ _ _ _ ?r2 ] =>
        destruct (print_summary_completes r2) as (lines & Hsum & Hlast)
    end.
    rewrite Hsum. eexists. exists lines.
    split; [ reflexivity | ]. split; [ exact Hlast | ].
    cbn [run_mod run_stdout]. rewrite <- app_assoc. auto.
Qed.

End ControllerFacts.

(** Both outcomes occur.  With a host that accepts every assignment, the
    seven inputs of the node group the script builds are assigned. *)
Example controller_assigned :
  match tunnel_node_group
          (fun k => "Socket_" +++ String (ascii_of_nat (48 + k)) EmptyString)
          user_settings with
  | Some (_, ng) =>
      let r :=
        final_state
          (finish_run (fun _ _ _ => None) user_settings ng
             "Segment (Regular)" "Segment (Key)" [] []
             {| run_mod := new_controller_modifier ng; run_stdout := [] |}) in
      mod_props (run_mod r)
      = [ ("Socket_0", PObject "Segment (Regular)");
          ("Socket_1", PObject "Segment (Key)");
          ("Socket_2", PInt 10); ("Socket_3", PFloat 1.5);
          ("Socket_4", PInt 40); ("Socket_5", PFloat 0.01);
          ("Socket_6", PInt 27) ]%string
      /\ hd EmptyString (run_stdout r) = "✓ Modifier inputs assigned!"%string
  | None => False
  end.
Proof. vm_compute. split; reflexivity. Qed.

(** With a host that refuses objects as item values, nothing is
    assigned, the warning is printed and the run still ends normally. *)
Example controller_refused :
  match tunnel_node_group (fun _ => "Socket"%string) user_settings with
  | Some (_, ng) =>
      let out :=
        finish_run
          (fun _ _ v =>
             match v with
             | PObject _ => Some (TypeError "unsupported type")
             | _ => None
             end)
          user_settings ng "Segment (Regular)" "Segment (Key)" [] []
          {| run_mod := new_controller_modifier ng; run_stdout := [] |} in
      raised out = None
      /\ mod_props (run_mod (final_state out)) = []
      /\ hd EmptyString (run_stdout (final_state out))
         = "⚠ Could not auto-assign: unsupported type"%string
  | None => False
  end.
Proof. vm_compute. repeat split. Qed.

(* ================================================================== *)
(** * Part X. Properties of the cleanup pass *)
(* ================================================================== *)


(** *** Names and lists of names *)

Lemma mem_In (x : string) (l : list string) : mem x l = true <-> In x l.
Proof.
  unfold mem. rewrite existsb_exists. split.
  - intros (y & Hy & E). apply String.eqb_eq in E. now subst.
  - intros H. exists x. split; [ exact H | apply String.eqb_refl ].
Qed.

Lemma mem_false (x : string) (l : list string) :
  mem x l = false <-> ~ In x l.
Proof.
  rewrite <- mem_In. destruct (mem x l); split; congruence.
Qed.

Lemma nodupb_NoDup (l : list string) : nodupb l = true <-> NoDup l.
Proof.
  induction l as [ | x l IH ]; cbn.
  - split; [ constructor | reflexivity ].
  - rewrite andb_true_iff, negb_true_iff, mem_false, IH. split.
    + intros (H1 & H2). now constructor.
    + intros H. inversion H. auto.
Qed.

Lemma filter_filter {A} (p q : A -> bool) (l : list A) :
  filter p (filter q l) = filter (fun x => q x && p x) l.
Proof.
  induction l as [ | x l IH ]; cbn; [ reflexivity | ].
  destruct (q x); cbn; [ destruct (p x) | ]; now rewrite IH.
Qed.

Lemma filter_all {A} (p : A -> bool) (l : list A) :
  (forall x, In x l -> p x = true) -> filter p l = l.
Proof.
  induction l as [ | x l IH ]; intros H; cbn; [ reflexivity | ].
  rewrite (H x (or_introl eq_refl)), IH; [ reflexivity | ].
  intros y Hy. apply H. now right.
Qed.

Lemma map_filter_comm {A B} (f : A -> B) (p : B -> bool) (l : list A) :
  map f (filter (fun x => p (f x)) l) = filter p (map f l).
Proof.
  induction l as [ | x l IH ]; cbn; [ reflexivity | ].
  destruct (p (f x)); cbn; now rewrite IH.
Qed.

Lemma NoDup_filter_names {A} (f : A -> string) (p : A -> bool) (l : list A) :
  NoDup (map f l) -> NoDup (map f (filter p l)).
Proof.
  induction l as [ | x l IH ]; cbn; intros H; [ constructor | ].
  inversion H as [ | ? ? Hx Hl ]; subst.
  destruct (p x); cbn; [ constructor | ]; auto.
  intros Hin. apply Hx. apply in_map_iff in Hin as (y & E & Hy).
  apply in_map_iff. exists y. split; [ exact E | ].
  now apply filter_In in Hy.
Qed.

(** In a list without repeated names, looking a name up finds the item
    that bears it. *)
Lemma find_by_name {A} (f : A -> string) (l : list A) (x : A) :
  NoDup (map f l) -> In x l ->
  find (fun y => String.eqb (f y) (f x)) l = Some x.
Proof.
  induction l as [ | y l IH ]; cbn; intros Hnd Hin; [ destruct Hin | ].
  inversion Hnd as [ | ? ? Hy Hl ]; subst.
  destruct (String.eqb (f y) (f x)) eqn:E.
  - apply String.eqb_eq in E. destruct Hin as [ -> | Hin ]; [ reflexivity | ].
    exfalso. apply Hy. rewrite E. now apply in_map.
  - destruct Hin as [ -> | Hin ]; [ now rewrite String.eqb_refl in E | ].
    now apply IH.
Qed.

Lemma find_name_some {A} (f : A -> string) (l : list A) (n : string) :
  In n (map f l) ->
  exists x, find (fun y => String.eqb (f y) n) l = Some x
            /\ In x l /\ f x = n.
Proof.
  induction l as [ | y l IH ]; cbn; intros Hin; [ destruct Hin | ].
  destruct (String.eqb (f y) n) eqn:E.
  - apply String.eqb_eq in E. exists y. auto.
  - destruct Hin as [ <- | Hin ]; [ now rewrite String.eqb_refl in E | ].
    destruct (IH Hin) as (x & Hf & Hx & Hn). exists x. auto.
Qed.

(** *** Loops that sweep a snapshot of names *)

Section Sweep.

Variable S : Type.
Variable items : S -> list string.
Variable inv : S -> Prop.
Variable kill : S -> string -> bool.
Variable drop : string -> S -> S.
Variable body : string -> M S unit.

Hypothesis body_run :
  forall k s, inv s -> In k (items s) ->
  body k s = Done tt (if kill s k then drop k s else s).
Hypothesis items_drop :
  forall k s x, inv s -> In x (items s) -> x <> k -> In x (items (drop k s)).
Hypothesis inv_drop :
  forall k s, inv s -> In k (items s) -> kill s k = true -> inv (drop k s).

(** A pass over a snapshot of distinct names that are all present never
    meets a stale reference: an item is removed by its own pass only. *)
Lemma sweep_run (l : list string) :
  NoDup l ->
  forall s, inv s -> incl l (items s) ->
  for_each l body s = Done tt (fold_left (sweep_step kill drop) l s)
  /\ inv (fold_left (sweep_step kill drop) l s).
Proof.
  induction 1 as [ | k l Hk Hnd IH ]; intros s Hinv Hincl; cbn.
  - auto.
  - assert (Hin : In k (items s)) by (apply Hincl; now left).
    unfold bind. rewrite (body_run k s Hinv Hin).
    change (if kill s k then drop k s else s) with (sweep_step kill drop s k).
    apply IH.
    + unfold sweep_step. destruct (kill s k) eqn:E; [ | exact Hinv ].
      now apply inv_drop.
    + intros x Hx. unfold sweep_step. destruct (kill s k).
      * apply items_drop; auto; [ apply Hincl; now right | ].
        intros ->. contradiction.
      * apply Hincl. now right.
Qed.

End Sweep.

Lemma mem_cons (x k : string) (l : list string) :
  mem x (k :: l) = String.eqb x k || mem x l.
Proof. reflexivity. Qed.

(** *** The node groups (lines 88-90) *)

Lemma clean_node_group_run (k : string) (d : BlendData) :
  In k (node_groups d) ->
  clean_node_group k d
  = Done tt (if is_kill_node_group k then drop_node_group k d else d).
Proof.
  intros Hin. apply mem_In in Hin.
  unfold clean_node_group, node_groups_remove, bind, node_group_get, modify.
  rewrite Hin. destruct (is_kill_node_group k); [ | reflexivity ].
  now rewrite Hin.
Qed.

Lemma node_group_sweep (l : list string) (d : BlendData) :
  fold_left (sweep_step (fun _ => is_kill_node_group) drop_node_group) l d
  = {| collections := collections d; objects := objects d;
       meshes := meshes d;
       node_groups :=
         filter (fun x => negb (mem x l && is_kill_node_group x))
           (node_groups d) |}.
Proof.
  revert d. induction l as [ | k l IH ]; intros d; cbn [fold_left].
  - destruct d as [ cs os ms ns ]. cbn. f_equal.
    symmetry. now apply filter_all.
  - rewrite IH. unfold sweep_step.
    destruct (is_kill_node_group k) eqn:Hk; unfold drop_node_group;
      cbn [collections objects meshes node_groups]; f_equal.
    + rewrite filter_filter. apply filter_ext. intros x.
      rewrite mem_cons.
      destruct (String.eqb x k) eqn:E; cbn [negb andb orb]; [ | reflexivity ].
      apply String.eqb_eq in E. subst x. now rewrite Hk.
    + apply filter_ext. intros x. rewrite mem_cons.
      destruct (String.eqb x k) eqn:E; cbn [negb andb orb]; [ | reflexivity ].
      apply String.eqb_eq in E. subst x. rewrite Hk.
      now rewrite !andb_false_r.
Qed.

Lemma node_group_loop_run (d : BlendData) :
  NoDup (node_groups d) ->
  for_each (node_groups d) clean_node_group d
  = Done tt
      {| collections := collections d; objects := objects d;
         meshes := meshes d;
         node_groups :=
           filter (fun x => negb (is_kill_node_group x)) (node_groups d) |}.
Proof.
  intros Hnd.
  destruct (sweep_run BlendData node_groups (fun _ => True)
              (fun _ => is_kill_node_group) drop_node_group clean_node_group)
    with (l := node_groups d) (s := d) as (Hrun & _); auto.
  - intros k s _ Hin. now apply clean_node_group_run.
  - intros k s x _ Hx Hne. cbn. apply filter_In. split; [ exact Hx | ].
    apply negb_true_iff. now apply String.eqb_neq.
  - apply incl_refl.
  - rewrite Hrun, node_group_sweep. do 2 f_equal.
    apply filter_ext_in. intros x Hx. apply mem_In in Hx. now rewrite Hx.
Qed.

(** *** The objects (lines 76-82, and the inner loop of lines 72-73) *)

Lemma objects_remove_run (k : string) (d : BlendData) :
  In k (map obj_name (objects d)) ->
  objects_remove k d = Done tt (drop_object k d).
Proof.
  intros Hin. destruct (find_name_some obj_name _ _ Hin) as (x & Hf & _ & _).
  unfold objects_remove, bind, object_get, modify. now rewrite Hf.
Qed.

Lemma clean_object_run (k : string) (d : BlendData) :
  In k (map obj_name (objects d)) ->
  clean_object k d
  = Done tt (if name_is_killed k then drop_object k d else d).
Proof.
  intros Hin. destruct (find_name_some obj_name _ _ Hin) as (x & Hf & _ & Hn).
  unfold clean_object, bind, object_get. rewrite Hf, Hn.
  destruct (name_is_killed k); [ | reflexivity ].
  now apply objects_remove_run.
Qed.

Lemma unlink_where_ext (p q : string -> bool) (c : Collection) :
  (forall x, p x = q x) -> unlink_where p c = unlink_where q c.
Proof.
  intros H. unfold unlink_where. f_equal.
  apply filter_ext. intros x. now rewrite H.
Qed.

Lemma unlink_where_compose (p q : string -> bool) (c : Collection) :
  unlink_where p (unlink_where q c) = unlink_where (fun x => q x || p x) c.
Proof.
  unfold unlink_where. cbn [coll_name coll_objects]. f_equal.
  rewrite filter_filter. apply filter_ext. intros x.
  now rewrite negb_orb.
Qed.

Lemma unlink_where_none (c : Collection) :
  unlink_where (fun _ => false) c = c.
Proof.
  destruct c as [ n os ]. unfold unlink_where. cbn. f_equal.
  now apply filter_all.
Qed.

(** Removing, among the names of [l], the objects that [q] selects. *)
Lemma object_sweep (q : string -> bool) (l : list string) (d : BlendData) :
  fold_left (sweep_step (fun _ => q) drop_object) l d
  = {| collections :=
         map (unlink_where (fun y => mem y l && q y)) (collections d);
       objects :=
         filter (fun o => negb (mem (obj_name o) l && q (obj_name o)))
           (objects d);
       meshes := meshes d;
       node_groups := node_groups d |}.
Proof.
  revert d. induction l as [ | k l IH ]; intros d; cbn [fold_left].
  - destruct d as [ cs os ms ns ]. cbn. f_equal.
    + rewrite <- (map_id cs) at 1. apply map_ext. intros c.
      symmetry. apply unlink_where_none.
    + symmetry. now apply filter_all.
  - rewrite IH. unfold sweep_step.
    destruct (q k) eqn:Hk; unfold drop_object;
      cbn [collections objects meshes node_groups]; f_equal.
    + rewrite map_map. apply map_ext. intros c.
      change (unlink_object k c)
        with (unlink_where (fun x => String.eqb x k) c).
      rewrite unlink_where_compose. apply unlink_where_ext. intros x.
      rewrite mem_cons.
      destruct (String.eqb x k) eqn:E; cbn [negb andb orb]; [ | reflexivity ].
      apply String.eqb_eq in E. subst x. now rewrite Hk.
    + rewrite filter_filter. apply filter_ext. intros x.
      rewrite mem_cons.
      destruct (String.eqb (obj_name x) k) eqn:E; cbn [negb andb orb];
        [ | reflexivity ].
      apply String.eqb_eq in E. rewrite E. now rewrite Hk.
    + apply map_ext. intros c. apply unlink_where_ext. intros x.
      rewrite mem_cons.
      destruct (String.eqb x k) eqn:E; cbn [negb andb orb]; [ | reflexivity ].
      apply String.eqb_eq in E. subst x. rewrite Hk.
      now rewrite !andb_false_r.
    + apply filter_ext. intros x. rewrite mem_cons.
      destruct (String.eqb (obj_name x) k) eqn:E; cbn [negb andb orb];
        [ | reflexivity ].
      apply String.eqb_eq in E. rewrite E, Hk.
      now rewrite !andb_false_r.
Qed.

Lemma drop_object_names (k x : string) (d : BlendData) :
  In x (map obj_name (objects d)) -> x <> k ->
  In x (map obj_name (objects (drop_object k d))).
Proof.
  intros Hx Hne. cbn. apply in_map_iff in Hx as (o & <- & Ho).
  apply in_map. apply filter_In. split; [ exact Ho | ].
  apply negb_true_iff. now apply String.eqb_neq.
Qed.

Lemma object_loop_run (d : BlendData) :
  NoDup (map obj_name (objects d)) ->
  for_each (map obj_name (objects d)) clean_object d
  = Done tt (after_objects d).
Proof.
  intros Hnd.
  destruct (sweep_run BlendData (fun d => map obj_name (objects d))
              (fun _ => True) (fun _ => name_is_killed) drop_object
              clean_object)
    with (l := map obj_name (objects d)) (s := d) as (Hrun & _); auto.
  - intros k s _ Hin. now apply clean_object_run.
  - intros k s x _ Hx Hne. now apply drop_object_names.
  - apply incl_refl.
  - rewrite Hrun, object_sweep. unfold after_objects. do 2 f_equal.
    apply filter_ext_in. intros o Ho.
    assert (H : mem (obj_name o) (map obj_name (objects d)) = true)
      by (apply mem_In; now apply in_map).
    now rewrite H.
Qed.

(** *** The meshes (lines 84-86) *)

Lemma same_name_same_item {A} (f : A -> string) (l : list A) (x y : A) :
  NoDup (map f l) -> In x l -> In y l -> f x = f y -> x = y.
Proof.
  intros Hnd Hx Hy E.
  pose proof (find_by_name f l x Hnd Hx) as Fx.
  pose proof (find_by_name f l y Hnd Hy) as Fy.
  rewrite E in Fx. congruence.
Qed.

Lemma clean_mesh_run (k : string) (d : BlendData) :
  In k (map mesh_name (meshes d)) ->
  clean_mesh k d
  = Done tt (if mesh_is_orphan d k then drop_mesh k d else d).
Proof.
  intros Hin. destruct (find_name_some mesh_name _ _ Hin) as (x & Hf & _ & _).
  unfold clean_mesh, mesh_is_orphan, meshes_remove, bind, mesh_get, get,
    modify.
  rewrite Hf. destruct (Nat.eqb (mesh_users d x) 0); [ | reflexivity ].
  now rewrite Hf.
Qed.

Lemma mesh_sweep (l : list string) (d : BlendData) :
  NoDup (map mesh_name (meshes d)) ->
  fold_left (sweep_step mesh_is_orphan drop_mesh) l d
  = {| collections := collections d; objects := objects d;
       meshes :=
         filter
           (fun m =>
              negb (mem (mesh_name m) l && Nat.eqb (mesh_users d m) 0))
           (meshes d);
       node_groups := node_groups d |}.
Proof.
  revert d. induction l as [ | k l IH ]; intros d Hnd; cbn [fold_left].
  - destruct d as [ cs os ms ns ]. cbn. f_equal.
    symmetry. now apply filter_all.
  - unfold sweep_step at 2. unfold mesh_is_orphan.
    destruct (find (fun x => String.eqb (mesh_name x) k) (meshes d))
      as [ me | ] eqn:Hf.
    + pose proof (find_some _ _ Hf) as (Hme & Hname).
      apply String.eqb_eq in Hname.
      assert (Hsame : forall m, In m (meshes d) ->
                String.eqb (mesh_name m) k = true -> m = me).
      { intros m Hm E. apply String.eqb_eq in E.
        apply (same_name_same_item mesh_name (meshes d)); auto.
        congruence. }
      destruct (Nat.eqb (mesh_users d me) 0) eqn:Hu.
      * rewrite IH by (now apply NoDup_filter_names).
        unfold drop_mesh. cbn [collections objects meshes node_groups].
        f_equal. rewrite filter_filter. apply filter_ext_in. intros m Hm.
        rewrite mem_cons. unfold mesh_users at 1.
        cbn [collections objects meshes node_groups].
        fold (mesh_users d m).
        destruct (String.eqb (mesh_name m) k) eqn:E; cbn [negb andb orb];
          [ | reflexivity ].
        rewrite (Hsame m Hm E). now rewrite Hu.
      * rewrite IH by exact Hnd. f_equal.
        apply filter_ext_in. intros m Hm. rewrite mem_cons.
        destruct (String.eqb (mesh_name m) k) eqn:E; cbn [negb andb orb];
          [ | reflexivity ].
        rewrite (Hsame m Hm E), Hu. now rewrite !andb_false_r.
    + rewrite IH by exact Hnd. f_equal.
      apply filter_ext_in. intros m Hm. rewrite mem_cons.
      now rewrite (find_none _ _ Hf m Hm).
Qed.

Lemma mesh_loop_run (d : BlendData) :
  NoDup (map mesh_name (meshes d)) ->
  for_each (map mesh_name (meshes d)) clean_mesh d
  = Done tt (after_meshes d).
Proof.
  intros Hnd.
  destruct (sweep_run BlendData (fun d => map mesh_name (meshes d))
              (fun _ => True) mesh_is_orphan drop_mesh clean_mesh)
    with (l := map mesh_name (meshes d)) (s := d) as (Hrun & _); auto.
  - intros k s _ Hin. now apply clean_mesh_run.
  - intros k s x _ Hx Hne. cbn. apply in_map_iff in Hx as (m & <- & Hm).
    apply in_map. apply filter_In. split; [ exact Hm | ].
    apply negb_true_iff. now apply String.eqb_neq.
  - apply incl_refl.
  - rewrite Hrun, (mesh_sweep _ _ Hnd). unfold after_meshes. do 2 f_equal.
    apply filter_ext_in. intros m Hm.
    assert (H : mem (mesh_name m) (map mesh_name (meshes d)) = true)
      by (apply mem_In; now apply in_map).
    now rewrite H.
Qed.

(** *** The collections (lines 70-74) *)

Lemma bool_eq_iff (a b : bool) : (a = true <-> b = true) -> a = b.
Proof. destruct a, b; intuition congruence. Qed.

Lemma unlink_where_names (p : string -> bool) (cs : list Collection) :
  map coll_name (map (unlink_where p) cs) = map coll_name cs.
Proof. rewrite map_map. now apply map_ext. Qed.

Lemma objects_loop_run (os : list string) (d : BlendData) :
  NoDup os -> incl os (map obj_name (objects d)) ->
  for_each os objects_remove d
  = Done tt (fold_left (fun d o => drop_object o d) os d).
Proof.
  intros Hnd Hincl.
  destruct (sweep_run BlendData (fun d => map obj_name (objects d))
              (fun _ => True) (fun _ _ => true) drop_object objects_remove)
    with (l := os) (s := d) as (Hrun & _); auto.
  - intros k s _ Hin. now apply objects_remove_run.
  - intros k s x _ Hx Hne. now apply drop_object_names.
Qed.

Lemma drop_objects_closed (os : list string) (d : BlendData) :
  fold_left (fun d o => drop_object o d) os d
  = {| collections :=
         map (unlink_where (fun y => mem y os)) (collections d);
       objects :=
         filter (fun o => negb (mem (obj_name o) os)) (objects d);
       meshes := meshes d;
       node_groups := node_groups d |}.
Proof.
  change (fold_left (fun d o => drop_object o d) os d)
    with (fold_left (sweep_step (fun _ _ => true) drop_object) os d).
  rewrite object_sweep. f_equal.
  - apply map_ext. intros c. apply unlink_where_ext. intros y.
    apply andb_true_r.
  - apply filter_ext. intros o. now rewrite andb_true_r.
Qed.

Lemma clean_collection_run (k : string) (d : BlendData) :
  links_ok d ->
  In k (map coll_name (collections d)) ->
  clean_collection k d
  = Done tt (if is_kill_collection k
             then drop_collection_and_objects k d else d).
Proof.
  intros Hok Hin.
  destruct (find_name_some coll_name _ _ Hin) as (coll & Hf & Hc & Hn).
  unfold clean_collection, drop_collection_and_objects, bind,
    collection_get.
  rewrite Hf, Hn. destruct (is_kill_collection k); [ | reflexivity ].
  destruct (Hok coll Hc) as (Hnd & Hincl).
  rewrite (objects_loop_run _ _ Hnd Hincl).
  unfold collections_remove, bind, collection_get, modify.
  rewrite drop_objects_closed. cbn [collections].
  assert (Hin' : In k (map coll_name
                         (map (unlink_where
                                 (fun y => mem y (coll_objects coll)))
                            (collections d))))
    by now rewrite unlink_where_names.
  destruct (find_name_some coll_name _ _ Hin') as (x & -> & _ & _).
  reflexivity.
Qed.

Lemma drop_collection_and_objects_closed (k : string) (d : BlendData)
    (coll : Collection) :
  find (fun x => String.eqb (coll_name x) k) (collections d) = Some coll ->
  drop_collection_and_objects k d
  = {| collections :=
         filter (fun x => negb (String.eqb (coll_name x) k))
           (map (unlink_where (fun y => mem y (coll_objects coll)))
              (collections d));
       objects :=
         filter (fun o => negb (mem (obj_name o) (coll_objects coll)))
           (objects d);
       meshes := meshes d;
       node_groups := node_groups d |}.
Proof.
  intros Hf. unfold drop_collection_and_objects. rewrite Hf.
  now rewrite drop_objects_closed.
Qed.

Lemma links_ok_drop (k : string) (d : BlendData) :
  links_ok d -> links_ok (drop_collection_and_objects k d).
Proof.
  intros Hok.
  destruct (find (fun x => String.eqb (coll_name x) k) (collections d))
    as [ coll | ] eqn:Hf.
  2: { unfold drop_collection_and_objects. now rewrite Hf. }
  rewrite (drop_collection_and_objects_closed k d coll Hf).
  intros c Hc. cbn [collections objects] in *.
  apply filter_In in Hc as (Hc & _).
  apply in_map_iff in Hc as (c0 & <- & Hc0).
  destruct (Hok c0 Hc0) as (Hnd & Hincl).
  unfold unlink_where. cbn [coll_objects]. split.
  - now apply NoDup_filter.
  - intros y Hy. apply filter_In in Hy as (Hy & Hnot).
    apply Hincl in Hy. apply in_map_iff in Hy as (o & <- & Ho).
    apply in_map. apply filter_In. auto.
Qed.

Lemma drop_collection_names (k x : string) (d : BlendData) :
  In x (map coll_name (collections d)) -> x <> k ->
  In x (map coll_name (collections (drop_collection_and_objects k d))).
Proof.
  intros Hx Hne.
  destruct (find (fun y => String.eqb (coll_name y) k) (collections d))
    as [ coll | ] eqn:Hf.
  2: { unfold drop_collection_and_objects. now rewrite Hf. }
  rewrite (drop_collection_and_objects_closed k d coll Hf).
  cbn [collections].
  apply in_map_iff in Hx as (c & <- & Hc).
  apply in_map_iff.
  exists (unlink_where (fun y => mem y (coll_objects coll)) c).
  split; [ reflexivity | ].
  apply filter_In. split; [ now apply in_map | ].
  apply negb_true_iff. now apply String.eqb_neq.
Qed.

Lemma in_doomed_by (l : list string) (d : BlendData) (y : string) :
  In y (doomed_by l d) <->
  exists x, In x (collections d) /\ In (coll_name x) l
            /\ is_kill_collection (coll_name x) = true
            /\ In y (coll_objects x).
Proof.
  unfold doomed_by. rewrite in_flat_map. split.
  - intros (x & Hx & Hy). apply filter_In in Hx as (Hx & Hp).
    apply andb_true_iff in Hp as (Hl & Hk). apply mem_In in Hl.
    exists x. auto.
  - intros (x & Hx & Hl & Hk & Hy). exists x. split; [ | exact Hy ].
    apply filter_In. split; [ exact Hx | ].
    apply andb_true_iff. split; [ now apply mem_In | exact Hk ].
Qed.

Lemma filter_none {A} (l : list A) : filter (fun _ => false) l = [].
Proof. induction l; cbn; auto. Qed.

Lemma filter_map_swap {A B} (f : A -> B) (p : B -> bool) (l : list A) :
  filter p (map f l) = map f (filter (fun x => p (f x)) l).
Proof. symmetry. apply map_filter_comm. Qed.

(** Removing a collection and its objects adds its objects to the
    doomed ones. *)
Lemma doomed_by_step (k : string) (l : list string) (d : BlendData)
    (coll : Collection) (y : string) :
  NoDup (map coll_name (collections d)) ->
  find (fun x => String.eqb (coll_name x) k) (collections d) = Some coll ->
  is_kill_collection k = true ->
  mem y (coll_objects coll)
  || mem y (doomed_by l (drop_collection_and_objects k d))
  = mem y (doomed_by (k :: l) d).
Proof.
  intros Hnd Hf Hk.
  pose proof (find_some _ _ Hf) as (Hcoll & Hname).
  apply String.eqb_eq in Hname.
  rewrite (drop_collection_and_objects_closed k d coll Hf).
  apply bool_eq_iff. rewrite orb_true_iff, !mem_In, !in_doomed_by.
  cbn [collections]. split.
  - intros [ Hos | (x' & Hx' & Hl & Hkill & Hy) ].
    + exists coll. rewrite Hname. repeat split; auto. now left.
    + apply filter_In in Hx' as (Hx' & _).
      apply in_map_iff in Hx' as (x & <- & Hx).
      cbn [coll_name coll_objects unlink_where] in *.
      apply filter_In in Hy as (Hy & _).
      exists x. repeat split; auto. now right.
  - intros (x & Hx & Hl & Hkill & Hy).
    destruct (String.eqb (coll_name x) k) eqn:E.
    + left. apply String.eqb_eq in E.
      assert (x = coll)
        by (apply (same_name_same_item coll_name (collections d));
            auto; congruence).
      now subst x.
    + destruct (mem y (coll_objects coll)) eqn:Hos;
        [ left; now apply mem_In | right ].
      exists (unlink_where (fun y => mem y (coll_objects coll)) x).
      cbn [coll_name coll_objects unlink_where].
      apply String.eqb_neq in E.
      repeat split; auto.
      * apply filter_In. split; [ now apply in_map | ].
        cbn [coll_name unlink_where].
        apply negb_true_iff. now apply String.eqb_neq.
      * destruct Hl as [ Hl | Hl ]; [ congruence | exact Hl ].
      * apply filter_In. split; [ exact Hy | now rewrite Hos ].
Qed.

Lemma doomed_by_ext (l l' : list string) (d : BlendData) :
  (forall x, In x (collections d) ->
             mem (coll_name x) l && is_kill_collection (coll_name x)
             = mem (coll_name x) l' && is_kill_collection (coll_name x)) ->
  doomed_by l d = doomed_by l' d.
Proof.
  intros H. unfold doomed_by. f_equal. now apply filter_ext_in.
Qed.

(** The record that the sweep of the names of [l] leaves. *)
Lemma closed_ext (l l' : list string) (d : BlendData) :
  (forall x, In x (collections d) ->
             mem (coll_name x) l && is_kill_collection (coll_name x)
             = mem (coll_name x) l' && is_kill_collection (coll_name x)) ->
  {| collections :=
       map (unlink_where (fun y => mem y (doomed_by l d)))
         (filter
            (fun x =>
               negb (mem (coll_name x) l
                     && is_kill_collection (coll_name x)))
            (collections d));
     objects :=
       filter (fun o => negb (mem (obj_name o) (doomed_by l d))) (objects d);
     meshes := meshes d;
     node_groups := node_groups d |}
  = {| collections :=
         map (unlink_where (fun y => mem y (doomed_by l' d)))
           (filter
              (fun x =>
                 negb (mem (coll_name x) l'
                       && is_kill_collection (coll_name x)))
              (collections d));
       objects :=
         filter (fun o => negb (mem (obj_name o) (doomed_by l' d)))
           (objects d);
       meshes := meshes d;
       node_groups := node_groups d |}.
Proof.
  intros H. rewrite (doomed_by_ext l l' d H). f_equal. f_equal.
  apply filter_ext_in. intros x Hx. now rewrite (H x Hx).
Qed.

Lemma collection_sweep (l : list string) (d : BlendData) :
  NoDup (map coll_name (collections d)) ->
  fold_left
    (sweep_step (fun _ => is_kill_collection) drop_collection_and_objects)
    l d
  = {| collections :=
         map (unlink_where (fun y => mem y (doomed_by l d)))
           (filter
              (fun x =>
                 negb (mem (coll_name x) l
                       && is_kill_collection (coll_name x)))
              (collections d));
       objects :=
         filter (fun o => negb (mem (obj_name o) (doomed_by l d)))
           (objects d);
       meshes := meshes d;
       node_groups := node_groups d |}.
Proof.
  revert d. induction l as [ | k l IH ]; intros d Hnd; cbn [fold_left].
  - unfold doomed_by. cbn [mem existsb andb]. rewrite filter_none.
    cbn [flat_map mem existsb negb].
    destruct d as [ cs os ms ns ]. cbn [collections objects meshes node_groups].
    f_equal.
    + rewrite (filter_all _ cs) by reflexivity.
      rewrite <- (map_id cs) at 1. apply map_ext. intros c.
      symmetry. apply unlink_where_none.
    + symmetry. now apply filter_all.
  - unfold sweep_step at 2.
    destruct (is_kill_collection k) eqn:Hk; cbv iota.
    + destruct (find (fun x => String.eqb (coll_name x) k) (collections d))
        as [ coll | ] eqn:Hf.
      * assert (Hnd1 : NoDup (map coll_name
                                (collections
                                   (drop_collection_and_objects k d)))).
        { rewrite (drop_collection_and_objects_closed k d coll Hf).
          cbn [collections]. apply NoDup_filter_names.
          now rewrite unlink_where_names. }
        rewrite (IH _ Hnd1).
        pose proof (doomed_by_step k l d coll) as Hstep.
        set (D1 := doomed_by l (drop_collection_and_objects k d)) in *.
        rewrite (drop_collection_and_objects_closed k d coll Hf).
        cbn [collections objects meshes node_groups].
        f_equal.
        -- rewrite filter_filter, filter_map_swap, map_map.
           cbn [coll_name unlink_where].
           erewrite filter_ext.
           ++ apply map_ext. intros c. rewrite unlink_where_compose.
              apply unlink_where_ext. intros y. now apply Hstep.
           ++ intros x. cbn beta. rewrite mem_cons.
              destruct (String.eqb (coll_name x) k) eqn:E;
                cbn [negb andb orb]; [ | reflexivity ].
              apply String.eqb_eq in E. rewrite E. now rewrite Hk.
        -- rewrite filter_filter. apply filter_ext. intros o.
           rewrite <- negb_orb. f_equal. now apply Hstep.
      * assert (E : drop_collection_and_objects k d = d)
          by (unfold drop_collection_and_objects; now rewrite Hf).
        rewrite E, (IH _ Hnd). apply closed_ext. intros x Hx.
        rewrite mem_cons.
        now rewrite (find_none _ _ Hf x Hx).
    + rewrite (IH _ Hnd). apply closed_ext. intros x Hx.
      rewrite mem_cons.
      destruct (String.eqb (coll_name x) k) eqn:E; cbn [orb];
        [ | reflexivity ].
      apply String.eqb_eq in E. rewrite E, Hk.
      now rewrite !andb_false_r.
Qed.

Lemma collection_loop_run (d : BlendData) :
  NoDup (map coll_name (collections d)) ->
  links_ok d ->
  for_each (map coll_name (collections d)) clean_collection d
  = Done tt (after_collections d).
Proof.
  intros Hnd Hok.
  destruct (sweep_run BlendData (fun d => map coll_name (collections d))
              links_ok (fun _ => is_kill_collection)
              drop_collection_and_objects clean_collection)
    with (l := map coll_name (collections d)) (s := d) as (Hrun & _); auto.
  - intros k s Hs Hin. now apply clean_collection_run.
  - intros k s x _ Hx Hne. now apply drop_collection_names.
  - intros k s Hs _ _. now apply links_ok_drop.
  - apply incl_refl.
  - rewrite Hrun, (collection_sweep _ _ Hnd). unfold after_collections.
    assert (Hall : forall x, In x (collections d) ->
              mem (coll_name x) (map coll_name (collections d)) = true)
      by (intros x Hx; apply mem_In; now apply in_map).
    assert (HD : doomed_by (map coll_name (collections d)) d
                 = kill_collection_objects d).
    { unfold doomed_by, kill_collection_objects. f_equal.
      apply filter_ext_in. intros x Hx. now rewrite (Hall x Hx). }
    rewrite HD. do 3 f_equal.
    apply filter_ext_in. intros x Hx. now rewrite (Hall x Hx).
Qed.

(** *** The whole pass *)

Lemma wf_data_spec (d : BlendData) :
  wf_data d = true ->
  NoDup (map coll_name (collections d))
  /\ NoDup (map obj_name (objects d))
  /\ links_ok d
  /\ NoDup (map mesh_name (meshes d))
  /\ NoDup (node_groups d).
Proof.
  unfold wf_data. rewrite !andb_true_iff, !nodupb_NoDup, forallb_forall.
  intros ((((H1 & H2) & H3) & H4) & H5). repeat split; auto.
  - apply nodupb_NoDup. specialize (H3 c H).
    now apply andb_true_iff in H3.
  - specialize (H3 c H). apply andb_true_iff in H3 as (_ & H3).
    rewrite forallb_forall in H3. intros y Hy. apply mem_In. auto.
Qed.

Lemma clean_old_run (d : BlendData) :
  wf_data d = true -> clean_old d = Done tt (cleaned d).
Proof.
  intros Hwf.
  destruct (wf_data_spec d Hwf) as (Hc & Ho & Hl & Hm & Hg).
  unfold clean_old, bind, get.
  rewrite (collection_loop_run d Hc Hl).
  rewrite (object_loop_run (after_collections d))
    by (cbn [objects after_collections]; now apply NoDup_filter_names).
  rewrite (mesh_loop_run (after_objects (after_collections d)))
    by exact Hm.
  now rewrite (node_group_loop_run
                 (after_meshes (after_objects (after_collections d))))
    by exact Hg.
Qed.

Lemma mem_kill_collection_objects (d : BlendData) (y : string) :
  mem y (kill_collection_objects d) = in_kill_collection d y.
Proof.
  apply bool_eq_iff. unfold kill_collection_objects, in_kill_collection.
  rewrite mem_In, in_flat_map, existsb_exists. split.
  - intros (c & Hc & Hy). apply filter_In in Hc as (Hc & Hk).
    exists c. split; [ exact Hc | ].
    apply andb_true_iff. split; [ exact Hk | now apply mem_In ].
  - intros (c & Hc & H). apply andb_true_iff in H as (Hk & Hy).
    exists c. split; [ | now apply mem_In ].
    apply filter_In. auto.
Qed.

Lemma cleaned_objects (d : BlendData) :
  objects (cleaned d)
  = filter (fun o => negb (to_remove d o)) (objects d).
Proof.
  unfold cleaned, to_remove.
  cbn [objects after_node_groups after_meshes after_objects
       after_collections].
  rewrite filter_filter. apply filter_ext. intros o.
  now rewrite mem_kill_collection_objects, negb_orb.
Qed.

Lemma for_each_noop {S X} (l : list X) (body : X -> M S unit) (s : S) :
  (forall x, In x l -> body x s = Done tt s) ->
  for_each l body s = Done tt s.
Proof.
  induction l as [ | x l IH ]; intros H; cbn; [ reflexivity | ].
  unfold bind. rewrite (H x (or_introl eq_refl)).
  apply IH. intros y Hy. apply H. now right.
Qed.

(** On data that holds nothing to remove, [clean_old] changes nothing. *)
Lemma clean_old_noop (d : BlendData) :
  (forall c, In c (collections d) ->
             is_kill_collection (coll_name c) = false) ->
  (forall o, In o (objects d) -> name_is_killed (obj_name o) = false) ->
  (forall m, In m (meshes d) -> Nat.eqb (mesh_users d m) 0 = false) ->
  (forall g, In g (node_groups d) -> is_kill_node_group g = false) ->
  clean_old d = Done tt d.
Proof.
  intros Hc Ho Hm Hg. unfold clean_old, bind, get.
  rewrite for_each_noop.
  2: { intros k Hk.
       destruct (find_name_some coll_name _ _ Hk) as (c & Hf & Hin & Hn).
       unfold clean_collection, bind, collection_get.
       now rewrite Hf, (Hc c Hin). }
  rewrite for_each_noop.
  2: { intros k Hk.
       destruct (find_name_some obj_name _ _ Hk) as (o & Hf & Hin & Hn).
       unfold clean_object, bind, object_get.
       now rewrite Hf, (Ho o Hin). }
  rewrite for_each_noop.
  2: { intros k Hk.
       destruct (find_name_some mesh_name _ _ Hk) as (m & Hf & Hin & Hn).
       unfold clean_mesh, bind, mesh_get, get.
       now rewrite Hf, (Hm m Hin). }
  apply for_each_noop. intros g Hin.
  unfold clean_node_group, bind, node_group_get.
  rewrite (proj2 (mem_In g (node_groups d)) Hin).
  now rewrite (Hg g Hin).
Qed.

Lemma cleaned_is_clean (d : BlendData) :
  clean_old (cleaned d) = Done tt (cleaned d).
Proof.
  apply clean_old_noop; unfold cleaned;
    cbn [collections objects meshes node_groups after_node_groups
         after_meshes after_objects after_collections].
  - intros c Hc. rewrite map_map in Hc.
    apply in_map_iff in Hc as (c0 & <- & Hc0).
    apply filter_In in Hc0 as (_ & Hk).
    cbn [coll_name unlink_where]. now apply negb_true_iff.
  - intros o Hin. apply filter_In in Hin as (_ & Hk).
    now apply negb_true_iff.
  - intros m Hin. apply filter_In in Hin as (_ & Hk).
    apply negb_true_iff in Hk. exact Hk.
  - intros g Hin. apply filter_In in Hin as (_ & Hk).
    now apply negb_true_iff.
Qed.

(** C8. On data the host keeps well formed (an empty file and a file
    where generation stopped half-way included), [clean_old] does not
    fail; the objects it leaves are exactly those whose name matches no
    entry of the list (exactly, or followed by ["."] or ["_"]) and that
    are in neither of the collections ["TBM_Ring"] and ["Tunnel"]; and
    running it again on what it left removes nothing and changes
    nothing. *)
Theorem clean_old_idempotent (d : BlendData) :
  wf_data d = true ->
  exists d' : BlendData,
    clean_old d = Done tt d'
    /\ objects d' = filter (fun o => negb (to_remove d o)) (objects d)
    /\ clean_old d' = Done tt d'.
Proof.
  intros Hwf. exists (cleaned d).
  split; [ now apply clean_old_run | ].
  split; [ apply cleaned_objects | apply cleaned_is_clean ].
Qed.

Lemma clean_old_idempotent_witness :
  exists d' : BlendData,
    clean_old sample_data = Done tt d'
    /\ objects d'
       = filter (fun o => negb (to_remove sample_data o))
           (objects sample_data)
    /\ clean_old d' = Done tt d'.
Proof.
  apply (clean_old_idempotent sample_data). vm_compute. reflexivity.
Defined.

(** What is left of the sample file, and of an empty one. *)
Example clean_old_sample :
  clean_old sample_data
  = Done tt
      {| collections :=
           [ {| coll_name := "Collection"; coll_objects := [ "Cube" ] |} ];
         objects :=
           [ {| obj_name := "Cube"; obj_data := Some "Cube" |};
             {| obj_name := "Segment (Regular) old"; obj_data := None |} ];
         meshes :=
           [ {| mesh_name := "Cube"; mesh_other_users := 0 |};
             {| mesh_name := "Cylinder"; mesh_other_users := 1 |} ];
         node_groups := [ "Shading" ] |}%string.
Proof. vm_compute. reflexivity. Qed.

Example clean_old_empty : clean_old empty_data = Done tt empty_data.
Proof. reflexivity. Qed.

(** Without the host's invariant the pass can fail: a collection that
    lists an object twice makes the second removal meet a stale
    reference. *)
Example clean_old_needs_wf :
  let d :=
    {| collections :=
         [ {| coll_name := "Tunnel"; coll_objects := [ "A"; "A" ] |} ];
       objects := [ {| obj_name := "A"; obj_data := None |} ];
       meshes := []; node_groups := [] |}%string in
  wf_data d = false
  /\ raised (clean_old d)
     = Some (ReferenceError "StructRNA of type Object has been removed").
Proof. vm_compute. split; reflexivity. Qed.

(* ================================================================== *)
(** * Part XI. Properties of the render driver *)
(* ================================================================== *)


(** *** Statements in general *)

Lemma keeps_ret {S A} (R : S -> S -> Prop) (a : A) :
  (forall s, R s s) -> keeps R (ret a).
Proof. intros HR s. apply HR. Qed.

Lemma keeps_raise {S A} (R : S -> S -> Prop) (e : exn) :
  (forall s, R s s) -> keeps R (@raise S A e).
Proof. intros HR s. apply HR. Qed.

Lemma keeps_get {S} (R : S -> S -> Prop) :
  (forall s, R s s) -> keeps R (@get S).
Proof. intros HR s. apply HR. Qed.

Lemma keeps_modify {S} (R : S -> S -> Prop) (f : S -> S) :
  (forall s, R s (f s)) -> keeps R (modify f).
Proof. intros HR s. apply HR. Qed.

Lemma keeps_bind {S A B} (R : S -> S -> Prop) (c : M S A) (k : A -> M S B) :
  (forall s, R s s) ->
  (forall s1 s2 s3, R s1 s2 -> R s2 s3 -> R s1 s3) ->
  keeps R c -> (forall a, keeps R (k a)) -> keeps R (bind c k).
Proof.
  intros Hrefl Htrans Hc Hk s. unfold bind.
  specialize (Hc s). destruct (c s) as [ a s' | e s' ]; simpl in *.
  - apply Htrans with s'; [ exact Hc | apply Hk ].
  - exact Hc.
Qed.

Lemma keeps_for_each {S X} (R : S -> S -> Prop) (xs : list X)
    (body : X -> M S unit) :
  (forall s, R s s) ->
  (forall s1 s2 s3, R s1 s2 -> R s2 s3 -> R s1 s3) ->
  (forall x, In x xs -> keeps R (body x)) -> keeps R (for_each xs body).
Proof.
  intros Hrefl Htrans. induction xs as [ | x xs IH ]; intros Hb; simpl.
  - now apply keeps_ret.
  - apply keeps_bind; auto.
    + apply Hb. now left.
    + intros _. apply IH. intros y Hy. apply Hb. now right.
Qed.

(** *** Lists updated in place *)

Lemma update_nth_length {A} (n : nat) (f : A -> A) (l : list A) :
  List.length (update_nth n f l) = List.length l.
Proof.
  revert n. induction l as [ | x l IH ]; intros [ | n ]; simpl; auto.
Qed.

Lemma nth_error_update_nth_eq {A} (n : nat) (f : A -> A) (l : list A) :
  nth_error (update_nth n f l) n = option_map f (nth_error l n).
Proof.
  revert n. induction l as [ | x l IH ]; intros [ | n ]; simpl; auto.
Qed.

Lemma nth_error_update_nth_ne {A} (n m : nat) (f : A -> A) (l : list A) :
  n <> m -> nth_error (update_nth n f l) m = nth_error l m.
Proof.
  revert n m. induction l as [ | x l IH ]; intros [ | n ] [ | m ] H;
    simpl; auto; try congruence.
Qed.

Lemma map_update_nth {A B} (g : A -> B) (f : A -> A) (n : nat) (l : list A) :
  (forall x, g (f x) = g x) -> map g (update_nth n f l) = map g l.
Proof.
  intros H. revert n. induction l as [ | x l IH ]; intros [ | n ]; simpl;
    auto; now rewrite ?H, ?IH.
Qed.

Lemma update_nth_app_r {A} (l r : list A) (k : nat) (f : A -> A) :
  update_nth (List.length l + k) f (l ++ r) = l ++ update_nth k f r.
Proof.
  induction l as [ | x l IH ]; simpl; [ reflexivity | ]. now rewrite IH.
Qed.

Lemma update_nth_app_0 {A} (l r : list A) (f : A -> A) :
  update_nth (List.length l) f (l ++ r) = l ++ update_nth 0 f r.
Proof. rewrite <- (update_nth_app_r l r 0 f). now rewrite Nat.add_0_r. Qed.

Section DriverFacts.

Variable env_CAMERAS : option string.
Variable relpath : string -> string.
Variable new_view_name : string -> list string -> string.
Variable name : string.
Variable default_frame_end : Z.

Ltac run_scene :=
  cbn [negb scene_name cycles_samples render_views scene_camera frame_end
       view_layers tree_nodes tree_links trace
       with_name with_samples with_views with_camera with_frame_end
       with_layers with_tree with_event].

(** The path prefix of line 133 and the two paths of lines 135 and 138,
    as the script concatenates them. *)
Let prefix_of (i : nat) (layer : ViewLayer) : string :=
  if Nat.eqb i 0 then EmptyString else layer_name layer +++ "/".

Let image_path (cn : string) (i : nat) (layer : ViewLayer) : string :=
  relpath
    ((((("renders/" +++ name) +++ "/") +++ prefix_of i layer) +++ "#_")
     +++ cn).

Let mist_path (cn : string) (i : nat) (layer : ViewLayer) : string :=
  relpath
    ((((("renders/" +++ name) +++ "/") +++ prefix_of i layer) +++ "m_#_")
     +++ cn).

(** The scene after a pass of the layer loop that enables layer [i]. *)
Let enabled_scene (cn : string) (i : nat) (layer : ViewLayer) (t : Scene)
  : Scene :=
  with_tree
    (tree_nodes t
     ++ [ rlayers_node (layer_name layer);
          output_file_node (image_path cn i layer);
          output_file_node (mist_path cn i layer) ])
    (tree_links t
     ++ [ {| cl_from := List.length (tree_nodes t); cl_output := "Image";
             cl_to := List.length (tree_nodes t) + 1; cl_input := 0 |};
          {| cl_from := List.length (tree_nodes t); cl_output := "Mist";
             cl_to := List.length (tree_nodes t) + 2; cl_input := 0 |} ])
    (with_layers
       (update_nth i layer_set_passes
          (update_nth i (layer_set_use true) (view_layers t)))
       t).

(** The scene after a pass that leaves layer [i] disabled. *)
Let disabled_scene (i : nat) (t : Scene) : Scene :=
  with_layers (update_nth i (layer_set_use false) (view_layers t)) t.

(** One pass of the layer loop, case by case. *)
Lemma process_layer_run (cam : SceneObject) (cn : string) (i : nat)
    (t : Scene) (layer : ViewLayer) :
  nth_error (view_layers t) i = Some layer ->
  process_layer relpath name cam cn i t
  = match so_users_collection cam with
    | [] => Raised (IndexError "tuple index out of range") t
    | c :: _ =>
        if startswith "_" (layer_name layer) then Done tt (disabled_scene i t)
        else
          match find_layer_collection (layer_collection layer) c with
          | None =>
              Raised (AttributeError
                        "'NoneType' object has no attribute 'exclude'") t
          | Some lc =>
              if lc_exclude lc then Done tt (disabled_scene i t)
              else Done tt (enabled_scene cn i layer t)
          end
    end.
Proof.
  intros Hn.
  unfold process_layer, bind, get, py_index. rewrite Hn. unfold ret at 1.
  destruct (so_users_collection cam) as [ | c rest ]; [ reflexivity | ].
  unfold ret at 1. unfold layer_enabled.
  destruct (startswith "_" (layer_name layer)); [ reflexivity | ].
  cbn [negb].
  destruct (find_layer_collection (layer_collection layer) c) as [ lc | ];
    [ | reflexivity ].
  destruct (lc_exclude lc); [ reflexivity | ].
  unfold ret at 1. cbn [negb].
  unfold setup_layer_outputs, update_layer, set_layers, comp_nodes_new,
    comp_links_new, update_comp_node, set_tree, bind, get, modify, ret.
  run_scene.
  rewrite !length_app. cbn [List.length]. rewrite <- !app_assoc. cbn [app].
  rewrite <- !Nat.add_assoc. cbn [Nat.add].
  repeat first [ rewrite update_nth_app_r | rewrite update_nth_app_0 ];
    cbn [update_nth].
  reflexivity.
Qed.

Lemma layer_loop_frame_refl (s : Scene) : layer_loop_frame s s.
Proof. unfold layer_loop_frame. repeat split. Qed.

Lemma layer_loop_frame_trans (s1 s2 s3 : Scene) :
  layer_loop_frame s1 s2 -> layer_loop_frame s2 s3 -> layer_loop_frame s1 s3.
Proof.
  unfold layer_loop_frame.
  intros (A1 & A2 & A3 & A4 & A5 & A6 & A7) (B1 & B2 & B3 & B4 & B5 & B6 & B7).
  repeat split; congruence.
Qed.

Lemma process_layer_frame (cam : SceneObject) (cn : string) (i : nat) :
  keeps layer_loop_frame (process_layer relpath name cam cn i).
Proof.
  intros t.
  destruct (nth_error (view_layers t) i) as [ layer | ] eqn:Hn.
  - rewrite (process_layer_run cam cn i t layer Hn).
    destruct (so_users_collection cam) as [ | c rest ];
      [ apply layer_loop_frame_refl | ].
    assert (Hoff : layer_loop_frame t (disabled_scene i t)).
    { unfold layer_loop_frame, disabled_scene. run_scene.
      rewrite !map_update_nth by reflexivity. repeat split. }
    destruct (startswith "_" (layer_name layer)); [ exact Hoff | ].
    destruct (find_layer_collection (layer_collection layer) c) as [ lc | ];
      [ | apply layer_loop_frame_refl ].
    destruct (lc_exclude lc); [ exact Hoff | ].
    unfold final_state, layer_loop_frame, enabled_scene. run_scene.
    rewrite !map_update_nth by reflexivity. repeat split.
  - unfold process_layer, bind, get, py_index. rewrite Hn.
    apply layer_loop_frame_refl.
Qed.

Lemma layer_loop_keeps_frame (cam : SceneObject) (cn : string)
    (indices : list nat) :
  keeps layer_loop_frame
    (for_each indices (process_layer relpath name cam cn)).
Proof.
  apply keeps_for_each.
  - exact layer_loop_frame_refl.
  - exact layer_loop_frame_trans.
  - intros i _. apply process_layer_frame.
Qed.

(** *** The views (lines 81-87) *)

Lemma with_views_twice (xs ys : list RenderView) (s : Scene) :
  with_views xs (with_views ys s) = with_views xs s.
Proof. reflexivity. Qed.

Lemma views_set_use_names (n : string) (u : bool) (vs : list RenderView) :
  map view_name (views_set_use n u vs) = map view_name vs.
Proof.
  induction vs as [ | v vs IH ]; cbn [views_set_use map]; [ reflexivity | ].
  destruct (String.eqb (view_name v) n); cbn [map view_name];
    [ reflexivity | now rewrite IH ].
Qed.

Lemma views_set_use_idem (n : string) (u : bool) (vs : list RenderView) :
  views_set_use n u (views_set_use n u vs) = views_set_use n u vs.
Proof.
  induction vs as [ | v vs IH ]; cbn [views_set_use]; [ reflexivity | ].
  destruct (String.eqb (view_name v) n) eqn:E; cbn [views_set_use view_name];
    rewrite E; [ reflexivity | now rewrite IH ].
Qed.

Lemma views_set_use_comm (n m : string) (u : bool) (vs : list RenderView) :
  n <> m ->
  views_set_use n u (views_set_use m u vs)
  = views_set_use m u (views_set_use n u vs).
Proof.
  intros Hnm. induction vs as [ | v vs IH ]; cbn [views_set_use];
    [ reflexivity | ].
  destruct (String.eqb (view_name v) m) eqn:Em;
    destruct (String.eqb (view_name v) n) eqn:En;
    cbn [views_set_use view_name]; rewrite ?Em, ?En; try reflexivity.
  now rewrite IH.
Qed.

Lemma views_set_use_absent (n : string) (u : bool) (vs : list RenderView) :
  existsb (String.eqb n) (map view_name vs) = false ->
  views_set_use n u vs = vs.
Proof.
  induction vs as [ | v vs IH ]; cbn [views_set_use map existsb];
    [ reflexivity | ].
  intros H. apply orb_false_elim in H as (Hv & H).
  rewrite String.eqb_sym, Hv. now rewrite IH.
Qed.

Lemma remove_nth_app {A} (pre : list A) (v : A) (rest : list A) :
  remove_nth (List.length pre) (pre ++ v :: rest) = pre ++ rest.
Proof.
  unfold remove_nth.
  rewrite firstn_app, Nat.sub_diag, firstn_all, app_nil_r.
  replace (S (List.length pre)) with (List.length pre + 1)%nat by lia.
  rewrite skipn_app, skipn_all2 by lia.
  replace (List.length pre + 1 - List.length pre)%nat with 1%nat by lia.
  reflexivity.
Qed.

Lemma remove_nth_set_use (n : string) (u : bool) (vs : list RenderView) :
  forall i,
    (forall v, nth_error vs i = Some v -> view_name v <> n) ->
    remove_nth i (views_set_use n u vs)
    = views_set_use n u (remove_nth i vs).
Proof.
  induction vs as [ | v vs IH ]; intros i Hi.
  - destruct i; reflexivity.
  - destruct i as [ | j ].
    + cbn [views_set_use].
      destruct (String.eqb (view_name v) n) eqn:E.
      * apply String.eqb_eq in E. now destruct (Hi v eq_refl).
      * reflexivity.
    + cbn [views_set_use].
      destruct (String.eqb (view_name v) n) eqn:E.
      * unfold remove_nth. cbn [firstn skipn app views_set_use view_name].
        now rewrite E.
      * specialize (IH j Hi). unfold remove_nth in *.
        cbn [firstn skipn app views_set_use]. rewrite E.
        f_equal. exact IH.
Qed.

Let lr (v : RenderView) : bool := is_left_right (view_name v).

(** One pass of lines 82-83 over [v], on the views. *)
Let op (v : RenderView) (vs : list RenderView) : list RenderView :=
  if lr v then views_set_use (view_name v) false vs else vs.

(** The views when the loop has read [post] and has [pre] left to
    read. *)
Let state (pre post : list RenderView) : list RenderView :=
  fold_right op (pre ++ filter lr post) post.

Lemma fold_op_names (post vs : list RenderView) :
  map view_name (fold_right op vs post) = map view_name vs.
Proof.
  induction post as [ | w post IH ]; cbn [fold_right]; [ reflexivity | ].
  unfold op at 1. destruct (lr w); [ | exact IH ].
  now rewrite views_set_use_names.
Qed.

Lemma fold_op_none (post vs : list RenderView) :
  filter lr post = [] -> fold_right op vs post = vs.
Proof.
  induction post as [ | w post IH ]; cbn [fold_right filter];
    [ reflexivity | ].
  unfold op at 1. destruct (lr w); [ discriminate | exact IH ].
Qed.

Lemma remove_nth_fold (post vs : list RenderView) (i : nat) :
  (forall v, nth_error vs i = Some v -> lr v = false) ->
  remove_nth i (fold_right op vs post)
  = fold_right op (remove_nth i vs) post.
Proof.
  intros Hi. induction post as [ | w post IH ]; cbn [fold_right];
    [ reflexivity | ].
  unfold op at 1 3. destruct (lr w) eqn:Hw; [ | exact IH ].
  rewrite remove_nth_set_use, IH; [ reflexivity | ].
  intros v Hv Hname.
  assert (Hn : nth_error (map view_name (fold_right op vs post)) i
               = Some (view_name v)) by now apply map_nth_error.
  rewrite fold_op_names, nth_error_map in Hn.
  destruct (nth_error vs i) as [ v0 | ] eqn:Hv0; [ | discriminate ].
  cbn in Hn. injection Hn as Hn.
  specialize (Hi v0 eq_refl). unfold lr in Hi, Hw. congruence.
Qed.

Lemma state_skip (pre post : list RenderView) (v : RenderView) :
  lr v = false -> state [] (pre ++ v :: post) = state [] (pre ++ post).
Proof.
  intros Hv. unfold state. cbn [app].
  rewrite !filter_app, !fold_right_app. cbn [filter fold_right].
  unfold op at 2. now rewrite Hv.
Qed.

Lemma filter_nil_existsb {A} (p : A -> bool) (l : list A) :
  filter p l = [] -> existsb p l = false.
Proof.
  induction l as [ | x l IH ]; cbn [filter existsb]; [ reflexivity | ].
  destruct (p x); [ discriminate | exact IH ].
Qed.

Lemma existsb_filter_nil {A} (p : A -> bool) (l : list A) :
  existsb p l = false -> filter p l = [].
Proof.
  induction l as [ | x l IH ]; cbn [filter existsb]; [ reflexivity | ].
  destruct (p x); [ discriminate | exact IH ].
Qed.

(** The loop of lines 81-85 from any point on: it gets through when a
    view called ["left"] or ["right"] is among the views, and stops at
    the first view with [RuntimeError] otherwise, all the other views
    removed. *)
Lemma reset_views_from_closed (pre : list RenderView) :
  forall (post : list RenderView) (s : Scene),
    reset_views_from (List.length pre) (with_views (state pre post) s)
    = match pre with
      | [] => Done tt (with_views (state [] post) s)
      | v0 :: _ =>
          if existsb lr (pre ++ post)
          then Done tt (with_views (state [] (pre ++ post)) s)
          else
            Raised
              (RuntimeError (remove_refused (view_name v0) (scene_name s)))
              (with_views [ v0 ] s)
      end.
Proof.
  induction pre as [ | v pre IH ] using rev_ind; intros post s;
    [ reflexivity | ].
  rewrite length_app. cbn [List.length]. rewrite Nat.add_1_r.
  cbn [reset_views_from]. unfold bind at 1, get at 1.
  cbn [render_views with_views].
  assert (Hnth : exists v',
             nth_error (state (pre ++ [ v ]) post) (List.length pre)
             = Some v'
             /\ view_name v' = view_name v).
  { assert (Hn : nth_error (map view_name (state (pre ++ [ v ]) post))
                   (List.length pre)
                 = Some (view_name v)).
    { unfold state. rewrite fold_op_names, <- app_assoc, map_app.
      rewrite nth_error_app2 by (rewrite length_map; lia).
      now rewrite length_map, Nat.sub_diag. }
    rewrite nth_error_map in Hn.
    destruct (nth_error (state (pre ++ [ v ]) post) (List.length pre))
      as [ v' | ]; [ | discriminate ].
    cbn in Hn. injection Hn as Hn. exists v'. auto. }
  destruct Hnth as (v' & Hn & Hname). rewrite Hn.
  unfold reset_view. rewrite Hname.
  destruct (is_left_right (view_name v)) eqn:Hlr.
  - unfold bind, set_views, modify. cbn [render_views with_views].
    rewrite with_views_twice.
    assert (Hstep : views_set_use (view_name v) false
                      (state (pre ++ [ v ]) post)
                    = state pre (v :: post)).
    { unfold state. cbn [filter fold_right]. unfold lr at 2, op at 2.
      unfold lr at 2. rewrite Hlr, <- app_assoc. reflexivity. }
    rewrite Hstep, IH.
    destruct pre as [ | v0 pre ].
    + cbn [app existsb]. unfold lr at 1. rewrite Hlr. reflexivity.
    + cbn [app]. rewrite <- !app_assoc. reflexivity.
  - unfold bind, get. cbn [render_views with_views scene_name].
    assert (Hlen : List.length (state (pre ++ [ v ]) post)
                   = (List.length pre + 1
                      + List.length (filter lr post))%nat).
    { rewrite <- (length_map view_name). unfold state.
      rewrite fold_op_names, length_map, !length_app. reflexivity. }
    rewrite Hlen.
    assert (Hstep : remove_nth (List.length pre) (state (pre ++ [ v ]) post)
                    = state pre post).
    { unfold state. rewrite remove_nth_fold.
      - rewrite <- app_assoc. cbn [app]. now rewrite remove_nth_app.
      - intros w Hw. rewrite <- app_assoc in Hw.
        rewrite nth_error_app2, Nat.sub_diag in Hw by lia.
        cbn in Hw. injection Hw as <-. exact Hlr. }
    destruct (Nat.eqb (List.length pre + 1 + List.length (filter lr post)) 1)
      eqn:E.
    + apply Nat.eqb_eq in E.
      destruct pre as [ | v0 pre ]; [ | cbn [List.length] in E; lia ].
      destruct (filter lr post) as [ | w ws ] eqn:Hf;
        [ | cbn [List.length] in E; lia ].
      cbn [app existsb]. unfold lr at 1. rewrite Hlr.
      rewrite (filter_nil_existsb _ _ Hf). unfold raise. cbn [orb].
      unfold state. rewrite Hf, (fold_op_none _ _ Hf). reflexivity.
    + unfold set_views, modify. cbn [render_views with_views].
      rewrite with_views_twice, Hstep, IH.
      destruct pre as [ | v0 pre ].
      * cbn [app]. apply Nat.eqb_neq in E. cbn [List.length] in E.
        assert (Hex : existsb lr post = true).
        { destruct (existsb lr post) eqn:Hex; [ reflexivity | ].
          apply existsb_filter_nil in Hex. rewrite Hex in E.
          cbn [List.length] in E. lia. }
        cbn [existsb]. rewrite Hex, orb_true_r.
        pose proof (state_skip [] post v Hlr) as Hskip.
        cbn [app] in Hskip. now rewrite Hskip.
      * assert (Hlr' : lr v = false) by exact Hlr.
        pose proof (state_skip (v0 :: pre) post v Hlr) as Hskip.
        rewrite <- !app_assoc. cbn [app] in *.
        rewrite Hskip. cbn [existsb]. rewrite !existsb_app. cbn [existsb].
        rewrite Hlr'. reflexivity.
Qed.

(** What the loop leaves, in a form that names the two views it
    touches. *)
Lemma state_views_kept (views : list RenderView) :
  state [] views = views_kept views.
Proof.
  unfold state, views_kept. cbn [app].
  set (K := filter lr views).
  assert (Hfold :
            forall post,
              fold_right op K post
              = (if existsb (String.eqb "left") (map view_name post)
                 then views_set_use "left" false else fun vs => vs)
                  ((if existsb (String.eqb "right") (map view_name post)
                    then views_set_use "right" false else fun vs => vs) K)).
  { induction post as [ | w post IH ]; [ reflexivity | ].
    cbn [fold_right map existsb]. rewrite IH. unfold op, lr, is_left_right.
    rewrite (String.eqb_sym "left" (view_name w)),
      (String.eqb_sym "right" (view_name w)).
    destruct (String.eqb (view_name w) "left") eqn:El.
    - apply String.eqb_eq in El. rewrite El.
      change (String.eqb "left" "right") with false. cbn [orb].
      destruct (existsb (String.eqb "left") (map view_name post));
        [ apply views_set_use_idem | reflexivity ].
    - cbn [orb].
      destruct (String.eqb (view_name w) "right") eqn:Er; [ | reflexivity ].
      apply String.eqb_eq in Er. rewrite Er. cbn [orb].
      destruct (existsb (String.eqb "left") (map view_name post));
        destruct (existsb (String.eqb "right") (map view_name post));
        rewrite ?(views_set_use_comm "right" "left") by discriminate;
        rewrite ?views_set_use_idem; reflexivity. }
  rewrite Hfold.
  assert (Habsent :
            forall n,
              is_left_right n = true ->
              existsb (String.eqb n) (map view_name views) = false ->
              existsb (String.eqb n) (map view_name K) = false).
  { intros n _ H. clear Hfold. subst K.
    induction views as [ | w views IHv ]; [ reflexivity | ].
    cbn [map existsb] in H. apply orb_false_elim in H as (Hw & H).
    cbn [filter]. destruct (lr w); cbn [map existsb];
      rewrite ?Hw; now apply IHv. }
  change (filter (fun v : RenderView => is_left_right (view_name v)) views)
    with K.
  destruct (existsb (String.eqb "right") (map view_name views)) eqn:Hr.
  - destruct (existsb (String.eqb "left") (map view_name views)) eqn:Hl;
      [ reflexivity | ].
    rewrite (views_set_use_absent "left"); [ reflexivity | ].
    rewrite views_set_use_names. now apply Habsent.
  - rewrite (views_set_use_absent "right" false K) by now apply Habsent.
    destruct (existsb (String.eqb "left") (map view_name views)) eqn:Hl;
      [ reflexivity | ].
    rewrite (views_set_use_absent "left"); [ reflexivity | ].
    now apply Habsent.
Qed.

(** Lines 81-87 in closed form. *)
Lemma reset_views_closed (cn : string) (s : Scene) :
  reset_views new_view_name cn s
  = match render_views s with
    | v0 :: _ =>
        if views_resettable (render_views s)
        then
          Done tt
            (with_views (views_after new_view_name cn (render_views s)) s)
        else
          Raised
            (RuntimeError (remove_refused (view_name v0) (scene_name s)))
            (with_views [ v0 ] s)
    | [] =>
        Done tt (with_views (views_after new_view_name cn (render_views s)) s)
    end.
Proof.
  unfold reset_views. unfold bind at 1, get at 1. unfold bind at 1.
  assert (Hs : s = with_views (state (render_views s) []) s).
  { unfold state. cbn [filter fold_right]. rewrite app_nil_r.
    now destruct s. }
  rewrite Hs at 2. rewrite reset_views_from_closed.
  unfold views_resettable, views_after, set_views, modify.
  destruct (render_views s) as [ | v0 vs ] eqn:Hv.
  - rewrite !state_views_kept.
    cbn [render_views with_views]. rewrite with_views_twice. reflexivity.
  - rewrite !app_nil_r, !state_views_kept.
    change (fun v => is_left_right (view_name v)) with lr.
    destruct (existsb lr (v0 :: vs)); [ | reflexivity ].
    cbn [render_views with_views]. rewrite with_views_twice. reflexivity.
Qed.

Lemma reset_views_done (cn : string) (s : Scene) :
  views_resettable (render_views s) = true ->
  reset_views new_view_name cn s
  = Done tt (with_views (views_after new_view_name cn (render_views s)) s).
Proof.
  intros H. rewrite reset_views_closed.
  destruct (render_views s); [ reflexivity | now rewrite H ].
Qed.

Lemma reset_views_refused (cn : string) (s : Scene) :
  views_resettable (render_views s) = false ->
  exists msg vs,
    reset_views new_view_name cn s
    = Raised (RuntimeError msg) (with_views vs s).
Proof.
  intros H. rewrite reset_views_closed.
  destruct (render_views s) as [ | v0 vs ]; [ discriminate | ].
  rewrite H. eauto.
Qed.

(** The scene when the layer loop of a camera starts. *)
Let start_scene (cam : SceneObject) (vs : list RenderView) (s : Scene)
  : Scene :=
  with_tree [] []
    (with_frame_end
       (clamp_frame
          (match so_frame_end cam with
           | Some n => n
           | None => default_frame_end
           end))
       (with_event (SetCamera cam)
          (with_camera cam
             (with_views vs
                (with_samples
                   (if String.eqb (camera_name_of cam) "0" then 4
                    else SAMPLES) s))))).

Lemma process_camera_skipped (cam : SceneObject) (s : Scene) :
  skipped env_CAMERAS cam = true ->
  process_camera env_CAMERAS relpath new_view_name name default_frame_end
      cam s = Done tt s.
Proof.
  unfold skipped, process_camera. intros H.
  destruct (skipped_by_flags cam); [ reflexivity | ].
  simpl in H. now rewrite H.
Qed.

(** One pass of the camera loop up to the layer loop, when lines 81-85
    get through the views. *)
Lemma process_camera_run_views (cam : SceneObject) (s : Scene) :
  skipped env_CAMERAS cam = false ->
  views_resettable (render_views s) = true ->
  process_camera env_CAMERAS relpath new_view_name name default_frame_end cam s
  = (for_each (seq 0 (List.length (view_layers s)))
       (process_layer relpath name cam (camera_name_of cam)) ;;
     trigger_render)
      (start_scene cam
         (views_after new_view_name (camera_name_of cam) (render_views s))
         s).
Proof.
  unfold skipped, process_camera. intros H Hv.
  apply orb_false_elim in H as (-> & ->).
  unfold select_samples, start_scene.
  destruct (String.eqb (camera_name_of cam) "0");
    cbv beta iota delta [bind set_samples modify];
    rewrite reset_views_done by exact Hv;
    cbv beta iota delta [set_camera set_frame_end set_tree get modify];
    reflexivity.
Qed.

(** One pass of the camera loop when line 85 raises. *)
Lemma process_camera_views_error (cam : SceneObject) (s : Scene) :
  skipped env_CAMERAS cam = false ->
  views_resettable (render_views s) = false ->
  exists msg vs,
    process_camera env_CAMERAS relpath new_view_name name default_frame_end
      cam s
    = Raised (RuntimeError msg)
        (with_views vs
           (with_samples
              (if String.eqb (camera_name_of cam) "0" then 4 else SAMPLES)
              s)).
Proof.
  unfold skipped, process_camera. intros H Hv.
  apply orb_false_elim in H as (-> & ->).
  unfold select_samples.
  destruct (String.eqb (camera_name_of cam) "0");
    cbv beta iota delta [bind set_samples modify];
    match goal with
    | |- context [ reset_views _ ?cn ?t ] =>
        destruct (reset_views_refused cn t Hv) as (msg & vs & ->)
    end;
    exists msg, vs; reflexivity.
Qed.

Lemma process_camera_run (cam : SceneObject) (s : Scene) :
  skipped env_CAMERAS cam = false ->
  (exists vs,
     process_camera env_CAMERAS relpath new_view_name name default_frame_end
       cam s
     = (for_each (seq 0 (List.length (view_layers s)))
          (process_layer relpath name cam (camera_name_of cam)) ;;
        trigger_render) (start_scene cam vs s))
  \/ (exists msg vs,
        process_camera env_CAMERAS relpath new_view_name name
          default_frame_end cam s
        = Raised (RuntimeError msg)
            (with_views vs
               (with_samples
                  (if String.eqb (camera_name_of cam) "0" then 4
                   else SAMPLES)
                  s))).
Proof.
  intros Hskip. destruct (views_resettable (render_views s)) eqn:Hv.
  - left. eexists. now apply process_camera_run_views.
  - right. now apply process_camera_views_error.
Qed.

(** A pass that completes has got through the views. *)
Lemma process_camera_done_views (cam : SceneObject) (s s' : Scene) :
  skipped env_CAMERAS cam = false ->
  process_camera env_CAMERAS relpath new_view_name name default_frame_end cam s
  = Done tt s' ->
  views_resettable (render_views s) = true.
Proof.
  intros Hskip Hrun.
  destruct (views_resettable (render_views s)) eqn:Hv; [ reflexivity | ].
  destruct (process_camera_views_error cam s Hskip Hv) as (msg & vs & H).
  congruence.
Qed.

Lemma is_animation_clamp (n : Z) :
  is_animation (clamp_frame n) = is_animation n.
Proof.
  unfold is_animation, clamp_frame, MAXFRAME.
  destruct (Z.ltb_spec 1 (Z.max 0 (Z.min n 1048574)));
    destruct (Z.ltb_spec (Z.max 0 (Z.min n 1048574)) 250);
    destruct (Z.ltb_spec 1 n); destruct (Z.ltb_spec n 250);
    cbn [andb]; try reflexivity; lia.
Qed.

Lemma trigger_render_run (s : Scene) :
  exists animation,
    trigger_render s
    = Done tt
        (with_event
           (Render animation (scene_camera s) (cycles_samples s)
              (tree_nodes s)) s).
Proof.
  unfold trigger_render, bind, get, ops_render, modify.
  destruct ((1 <? frame_end s) && (frame_end s <? 250));
    eexists; reflexivity.
Qed.

(** What one pass of the camera loop leaves, however it ends, for a
    camera that passes the filters: the samples selected at lines 76-79
    and, as new events, nothing when line 85 raises, and otherwise the
    assignment of the camera followed, when the pass completes, by one
    render with that camera and those samples. *)
Lemma process_camera_outcome (cam : SceneObject) (s : Scene) :
  skipped env_CAMERAS cam = false ->
  let out :=
    process_camera env_CAMERAS relpath new_view_name name default_frame_end
        cam s in
  let selected :=
    if String.eqb (camera_name_of cam) "0" then 4 else SAMPLES in
  cycles_samples (final_state out) = selected
  /\ exists new,
       trace (final_state out) = trace s ++ new
       /\ (new = []
           \/ new = [ SetCamera cam ]
           \/ exists animation nodes,
                new = [ SetCamera cam;
                        Render animation (Some cam) selected nodes ]).
Proof.
  intros Hskip. cbv zeta.
  destruct (process_camera_run cam s Hskip)
    as [ (vs & ->) | (msg & vs & ->) ].
  - unfold bind.
    pose proof (layer_loop_keeps_frame cam (camera_name_of cam)
                  (seq 0 (List.length (view_layers s)))
                  (start_scene cam vs s)) as Hframe.
    destruct (for_each _ _ (start_scene cam vs s)) as [ [] t | e t ];
      cbn [final_state] in Hframe;
      destruct Hframe as (_ & Hsamples & Hcam & _ & Htrace & _);
      unfold start_scene in Hsamples, Hcam, Htrace;
      cbn [cycles_samples scene_camera trace with_tree with_frame_end
           with_event with_camera with_views with_samples]
        in Hsamples, Hcam, Htrace.
    + destruct (trigger_render_run t) as (animation & ->).
      cbn [final_state cycles_samples scene_camera trace with_event].
      split; [ exact Hsamples | ].
      eexists. split.
      * rewrite Htrace, <- app_assoc. reflexivity.
      * right. right. exists animation, (tree_nodes t).
        now rewrite Hcam, Hsamples.
    + cbn [final_state].
      split; [ exact Hsamples | ].
      exists [ SetCamera cam ]. split; [ exact Htrace | auto ].
  - cbn [final_state cycles_samples trace with_views with_samples].
    split; [ reflexivity | ].
    exists []. split; [ now rewrite app_nil_r | auto ].
Qed.

Let passes (c : SceneObject) : bool := negb (skipped env_CAMERAS c).

Lemma adds_events_refl (ok : SceneObject -> bool) (s : Scene) :
  adds_events_of ok s s.
Proof.
  exists []. split; [ now rewrite app_nil_r | intros e [] ].
Qed.

Lemma adds_events_trans (ok : SceneObject -> bool) (s1 s2 s3 : Scene) :
  adds_events_of ok s1 s2 -> adds_events_of ok s2 s3 ->
  adds_events_of ok s1 s3.
Proof.
  intros (n1 & E1 & H1) (n2 & E2 & H2). exists (n1 ++ n2). split.
  - now rewrite E2, E1, app_assoc.
  - intros e He. apply in_app_or in He as [ He | He ]; auto.
Qed.

Lemma process_camera_events (cam : SceneObject) :
  keeps (adds_events_of passes)
    (process_camera env_CAMERAS relpath new_view_name name default_frame_end
        cam).
Proof.
  intros s. destruct (skipped env_CAMERAS cam) eqn:Hskip.
  - rewrite (process_camera_skipped cam s Hskip). apply adds_events_refl.
  - destruct (process_camera_outcome cam s Hskip)
      as (_ & new & Htrace & Hnew).
    exists new. split; [ exact Htrace | ].
    assert (Hok : passes cam = true) by (unfold passes; now rewrite Hskip).
    intros e He.
    destruct Hnew as [ -> | [ -> | (animation & nodes & ->) ] ];
      cbn [In] in He.
    + destruct He.
    + destruct He as [ <- | [] ]. exists cam; auto.
    + destruct He as [ <- | [ <- | [] ] ]; exists cam; auto.
Qed.

Lemma camera_loop_events (objects : list SceneObject) :
  keeps (adds_events_of passes)
    (camera_loop env_CAMERAS relpath new_view_name name default_frame_end
        objects).
Proof.
  unfold camera_loop. apply keeps_for_each.
  - apply adds_events_refl.
  - apply adds_events_trans.
  - intros cam _. apply process_camera_events.
Qed.

(** C3 (as the code has it). The sample count follows the camera's name
    after the prefix ["Camera_"] is removed (line 70): when that is
    ["0"] the count is [4], for every other camera that passes the
    filters it is [SAMPLES]; a render triggered by the pass is made with
    that camera and that count. *)
Theorem samples_follow_stripped_name (cam : SceneObject) (s : Scene) :
  skipped env_CAMERAS cam = false ->
  let out :=
    process_camera env_CAMERAS relpath new_view_name name default_frame_end
        cam s in
  let selected :=
    if String.eqb (removeprefix "Camera_" (so_name cam)) "0" then 4
    else SAMPLES in
  cycles_samples (final_state out) = selected
  /\ exists new,
       trace (final_state out) = trace s ++ new
       /\ forall animation c n nodes,
            In (Render animation c n nodes) new ->
            c = Some cam /\ n = selected.
Proof.
  intros Hskip. cbv zeta.
  destruct (process_camera_outcome cam s Hskip)
    as (Hsamples & new & Htrace & Hnew).
  split; [ exact Hsamples | ].
  exists new. split; [ exact Htrace | ].
  intros animation c n nodes Hin.
  destruct Hnew as [ -> | [ -> | (a & ns & ->) ] ]; cbn [In] in Hin.
  - destruct Hin.
  - destruct Hin as [ Heq | [] ]. discriminate.
  - destruct Hin as [ Heq | [ Heq | [] ] ]; [ discriminate | ].
    injection Heq as _ <- <- _. auto.
Qed.

(** *** A camera without a usable collection *)

(** Layer [i] of the scene does not start with ["_"] and its hierarchy
    does not hold the collection [c]. *)
Let unguarded_miss (c : string) (t : Scene) (i : nat) : Prop :=
  exists layer,
    nth_error (view_layers t) i = Some layer
    /\ startswith "_" (layer_name layer) = false
    /\ find_layer_collection (layer_collection layer) c = None.

Lemma unguarded_miss_same (c : string) (t t' : Scene) (i : nat) :
  map layer_name (view_layers t') = map layer_name (view_layers t) ->
  map layer_collection (view_layers t')
  = map layer_collection (view_layers t) ->
  unguarded_miss c t i -> unguarded_miss c t' i.
Proof.
  intros Hnames Hcolls (layer & Hn & Hs & Hf).
  assert (Hn1 : nth_error (map layer_name (view_layers t')) i
                = Some (layer_name layer))
    by (rewrite Hnames; now apply map_nth_error).
  assert (Hn2 : nth_error (map layer_collection (view_layers t')) i
                = Some (layer_collection layer))
    by (rewrite Hcolls; now apply map_nth_error).
  rewrite nth_error_map in Hn1, Hn2.
  destruct (nth_error (view_layers t') i) as [ layer' | ] eqn:Hn';
    [ | discriminate ].
  cbn in Hn1, Hn2. injection Hn1 as Hn1. injection Hn2 as Hn2.
  exists layer'. rewrite Hn1, Hn2. repeat split; assumption.
Qed.

Lemma unguarded_miss_frame (c : string) (t t' : Scene) (i : nat) :
  layer_loop_frame t t' -> unguarded_miss c t i -> unguarded_miss c t' i.
Proof.
  intros (_ & _ & _ & _ & _ & Hnames & Hcolls).
  now apply unguarded_miss_same.
Qed.

Lemma layer_loop_frame_length (t t' : Scene) :
  layer_loop_frame t t' ->
  List.length (view_layers t') = List.length (view_layers t).
Proof.
  intros (_ & _ & _ & _ & _ & Hnames & _).
  now rewrite <- (length_map layer_name), Hnames, length_map.
Qed.

(** The layer loop stops with [AttributeError] at the first such layer
    it meets. *)
Lemma layer_loop_attribute_error (cam : SceneObject) (cn c : string)
    (rest : list string) (indices : list nat) :
  so_users_collection cam = c :: rest ->
  forall t,
    (forall i, In i indices -> (i < List.length (view_layers t))%nat) ->
    (exists i, In i indices /\ unguarded_miss c t i) ->
    exists t',
      for_each indices (process_layer relpath name cam cn) t
      = Raised (AttributeError
                  "'NoneType' object has no attribute 'exclude'") t'.
Proof.
  intros Hu. induction indices as [ | j indices IH ]; intros t Hlt Hbad.
  - destruct Hbad as (i & [] & _).
  - cbn [for_each]. unfold bind.
    destruct (nth_error (view_layers t) j) as [ lj | ] eqn:Hj.
    2: { apply nth_error_None in Hj.
         specialize (Hlt j (or_introl eq_refl)). lia. }
    pose proof (process_layer_frame cam cn j t) as Hframe.
    rewrite (process_layer_run cam cn j t lj Hj), Hu in *.
    destruct (startswith "_" (layer_name lj)) eqn:Hs.
    + cbn [final_state] in Hframe. apply IH.
      * intros i Hi. rewrite (layer_loop_frame_length _ _ Hframe).
        apply Hlt. now right.
      * destruct Hbad as (i & [ <- | Hi ] & Hmiss).
        -- destruct Hmiss as (layer & Hn & Hs' & _). congruence.
        -- exists i. split; [ exact Hi | ].
           now apply (unguarded_miss_frame c t).
    + destruct (find_layer_collection (layer_collection lj) c)
        as [ lc | ] eqn:Hf; [ | eexists; reflexivity ].
      assert (Hnext :
                forall t1, layer_loop_frame t t1 ->
                exists t',
                  for_each indices (process_layer relpath name cam cn) t1
                  = Raised (AttributeError
                              "'NoneType' object has no attribute 'exclude'")
                      t').
      { intros t1 Hf1. apply IH.
        - intros i Hi. rewrite (layer_loop_frame_length _ _ Hf1).
          apply Hlt. now right.
        - destruct Hbad as (i & [ <- | Hi ] & Hmiss).
          + destruct Hmiss as (layer & Hn & _ & Hf'). congruence.
          + exists i. split; [ exact Hi | ].
            now apply (unguarded_miss_frame c t). }
      destruct (lc_exclude lc); cbn [final_state] in Hframe;
        apply Hnext; exact Hframe.
Qed.

Lemma layer_loop_index_error (cam : SceneObject) (cn : string)
    (t : Scene) (n : nat) :
  so_users_collection cam = [] ->
  List.length (view_layers t) = S n ->
  for_each (seq 0 (S n)) (process_layer relpath name cam cn) t
  = Raised (IndexError "tuple index out of range") t.
Proof.
  intros Hu Hlen. cbn [seq for_each]. unfold bind.
  destruct (view_layers t) as [ | l0 ls ] eqn:Hl; [ discriminate | ].
  rewrite (process_layer_run cam cn 0 t l0) by (now rewrite Hl).
  now rewrite Hu.
Qed.

(** One pass of the camera loop on a camera that belongs to no
    collection. *)
Lemma process_camera_index_error (cam : SceneObject) (s : Scene) :
  skipped env_CAMERAS cam = false ->
  views_resettable (render_views s) = true ->
  view_layers s <> [] ->
  so_users_collection cam = [] ->
  exists t,
    process_camera env_CAMERAS relpath new_view_name name default_frame_end
        cam s
    = Raised (IndexError "tuple index out of range") t.
Proof.
  intros Hskip Hv Hlayers Hu.
  rewrite (process_camera_run_views cam s Hskip Hv).
  unfold bind.
  destruct (view_layers s) as [ | l0 ls ] eqn:Hl; [ contradiction | ].
  cbn [List.length].
  erewrite (layer_loop_index_error cam _ _ (List.length ls) Hu).
  - eexists. reflexivity.
  - unfold start_scene. run_scene. now rewrite Hl.
Qed.

(** One pass of the camera loop on a camera whose first collection is
    missing from the hierarchy of a layer not named ["_..."]. *)
Lemma process_camera_attribute_error (cam : SceneObject) (s : Scene)
    (c : string) (rest : list string) (layer : ViewLayer) :
  skipped env_CAMERAS cam = false ->
  views_resettable (render_views s) = true ->
  so_users_collection cam = c :: rest ->
  In layer (view_layers s) ->
  startswith "_" (layer_name layer) = false ->
  find_layer_collection (layer_collection layer) c = None ->
  exists t,
    process_camera env_CAMERAS relpath new_view_name name default_frame_end
        cam s
    = Raised (AttributeError
                "'NoneType' object has no attribute 'exclude'") t.
Proof.
  intros Hskip Hv Hu Hin Hs Hf.
  rewrite (process_camera_run_views cam s Hskip Hv).
  unfold bind.
  apply In_nth_error in Hin as (i & Hi).
  match goal with
  | |- context [ for_each ?l ?b ?t0 ] =>
      destruct (layer_loop_attribute_error cam (camera_name_of cam) c rest
                  l Hu t0) as (t & ->)
  end.
  - intros j Hj. apply in_seq in Hj. unfold start_scene. run_scene. lia.
  - exists i. split.
    + apply in_seq. split; [ lia | ].
      apply nth_error_Some. congruence.
    + exists layer. unfold start_scene. run_scene. auto.
  - eexists. reflexivity.
Qed.

(** A camera that passes the filters and has no usable collection does
    not get through its pass, whatever the views. *)
Lemma process_camera_doomed (cam : SceneObject) (s : Scene) :
  skipped env_CAMERAS cam = false ->
  view_layers s <> [] ->
  so_users_collection cam = []
  \/ (exists c rest i,
        so_users_collection cam = c :: rest /\ unguarded_miss c s i) ->
  exists e t,
    process_camera env_CAMERAS relpath new_view_name name default_frame_end
        cam s
    = Raised e t.
Proof.
  intros Hskip Hlayers Hdoomed.
  destruct (views_resettable (render_views s)) eqn:Hv.
  - destruct Hdoomed as [ Hu | (c & rest & i & Hu & layer & Hn & Hs & Hf) ].
    + destruct (process_camera_index_error cam s Hskip Hv Hlayers Hu)
        as (t & ->). eauto.
    + destruct (process_camera_attribute_error cam s c rest layer Hskip Hv
                  Hu (nth_error_In _ _ Hn) Hs Hf) as (t & ->).
      eauto.
  - destruct (process_camera_views_error cam s Hskip Hv)
      as (msg & vs & ->).
    eauto.
Qed.

(** A pass of the camera loop keeps the names and the hierarchies of
    the view layers, however it ends. *)
Lemma process_camera_layers (cam : SceneObject) (s : Scene) :
  let s' :=
    final_state
      (process_camera env_CAMERAS relpath new_view_name name default_frame_end
          cam s) in
  map layer_name (view_layers s') = map layer_name (view_layers s)
  /\ map layer_collection (view_layers s')
     = map layer_collection (view_layers s).
Proof.
  cbv zeta. destruct (skipped env_CAMERAS cam) eqn:Hskip.
  - rewrite (process_camera_skipped cam s Hskip). auto.
  - destruct (process_camera_run cam s Hskip)
      as [ (vs & ->) | (msg & vs & ->) ]; [ | auto ].
    unfold bind.
    pose proof (layer_loop_keeps_frame cam (camera_name_of cam)
                  (seq 0 (List.length (view_layers s)))
                  (start_scene cam vs s)) as Hframe.
    destruct (for_each _ _ (start_scene cam vs s)) as [ [] t | e t ];
      cbn [final_state] in Hframe;
      destruct Hframe as (_ & _ & _ & _ & _ & Hnames & Hcolls);
      unfold start_scene in Hnames, Hcolls;
      cbn [view_layers with_tree with_frame_end with_event with_camera
           with_views with_samples] in Hnames, Hcolls.
    + destruct (trigger_render_run t) as (animation & ->).
      cbn [final_state view_layers with_event]. auto.
    + cbn [final_state]. auto.
Qed.

(** The camera loop does not get past a camera that passes the filters
    and has no usable collection: it ends by raising, at that camera or
    before. *)
Lemma camera_loop_aborts (cam : SceneObject) (cameras : list SceneObject) :
  In cam cameras ->
  skipped env_CAMERAS cam = false ->
  forall s,
    view_layers s <> [] ->
    so_users_collection cam = []
    \/ (exists c rest i,
          so_users_collection cam = c :: rest /\ unguarded_miss c s i) ->
    exists e t,
      for_each cameras
        (process_camera env_CAMERAS relpath new_view_name name default_frame_end
            ) s
      = Raised e t.
Proof.
  intros Hin Hskip.
  induction cameras as [ | x cameras IH ]; intros s Hlayers Hdoomed;
    [ destruct Hin | ].
  cbn [for_each]. unfold bind.
  pose proof (process_camera_layers x s) as (Hnames & Hcolls).
  destruct (process_camera env_CAMERAS relpath new_view_name
              name default_frame_end x s)
    as [ [] s1 | e s1 ] eqn:Hx; [ | eauto ].
  cbn [final_state] in Hnames, Hcolls.
  destruct Hin as [ -> | Hin ].
  - exfalso.
    destruct (process_camera_doomed cam s Hskip Hlayers Hdoomed)
      as (e & t & Ht).
    congruence.
  - apply (IH Hin).
    + intros Hnil. apply Hlayers.
      rewrite Hnil in Hnames. cbn in Hnames.
      symmetry in Hnames. now apply map_eq_nil in Hnames.
    + destruct Hdoomed as [ Hu | (c & rest & i & Hu & Hmiss) ];
        [ now left | right ].
      exists c, rest, i. split; [ exact Hu | ].
      now apply (unguarded_miss_same c s).
Qed.

(** *** The output files of the enabled layers *)

(** Layer [i], when it is enabled, has its three compositor nodes somewhere
    in the tree, linked as lines 123-124 link them, with the paths of
    lines 135 and 138. *)
Let outputs_ok (cn : string) (t : Scene) (i : nat) : Prop :=
  forall layer,
    nth_error (view_layers t) i = Some layer ->
    layer_use layer = true ->
    exists k,
      nth_error (tree_nodes t) k = Some (rlayers_node (layer_name layer))
      /\ nth_error (tree_nodes t) (k + 1)
         = Some (output_file_node (image_path cn i layer))
      /\ nth_error (tree_nodes t) (k + 2)
         = Some (output_file_node (mist_path cn i layer))
      /\ In {| cl_from := k; cl_output := "Image";
               cl_to := k + 1; cl_input := 0 |} (tree_links t)
      /\ In {| cl_from := k; cl_output := "Mist";
               cl_to := k + 2; cl_input := 0 |} (tree_links t).

Lemma nth_error_app_keep {A} (l r : list A) (k : nat) (x : A) :
  nth_error l k = Some x -> nth_error (l ++ r) k = Some x.
Proof.
  intros H. rewrite nth_error_app1; [ exact H | ].
  apply nth_error_Some. congruence.
Qed.

Lemma nth_error_app_at {A} (l r : list A) (k : nat) :
  nth_error (l ++ r) (List.length l + k) = nth_error r k.
Proof.
  rewrite nth_error_app2 by lia. f_equal. lia.
Qed.

(** A pass over layer [i] that completes leaves layer [i] with its
    outputs. *)
Lemma process_layer_outputs (cam : SceneObject) (cn : string) (i : nat)
    (t t' : Scene) :
  process_layer relpath name cam cn i t = Done tt t' -> outputs_ok cn t' i.
Proof.
  intros Hrun.
  destruct (nth_error (view_layers t) i) as [ li | ] eqn:Hi.
  2: { unfold process_layer, bind, get, py_index in Hrun.
       rewrite Hi in Hrun. discriminate. }
  rewrite (process_layer_run cam cn i t li Hi) in Hrun.
  assert (Hoff : outputs_ok cn (disabled_scene i t) i).
  { intros layer Hl Huse. unfold disabled_scene in Hl. run_scene.
    cbn [view_layers with_layers] in Hl.
    rewrite nth_error_update_nth_eq, Hi in Hl.
    injection Hl as <-. discriminate. }
  destruct (so_users_collection cam) as [ | c rest ]; [ discriminate | ].
  destruct (startswith "_" (layer_name li));
    [ injection Hrun as <-; exact Hoff | ].
  destruct (find_layer_collection (layer_collection li) c) as [ lc | ];
    [ | discriminate ].
  destruct (lc_exclude lc); [ injection Hrun as <-; exact Hoff | ].
  injection Hrun as <-.
  intros layer Hl _. unfold enabled_scene in *.
  cbn [view_layers tree_nodes tree_links with_layers with_tree] in *.
  rewrite !nth_error_update_nth_eq, Hi in Hl.
  injection Hl as <-.
  exists (List.length (tree_nodes t)).
  replace (List.length (tree_nodes t))
    with (List.length (tree_nodes t) + 0)%nat at 1 by lia.
  rewrite !nth_error_app_at.
  repeat split; try reflexivity; apply in_or_app; right; cbn; auto.
Qed.

(** A pass over another layer keeps them. *)
Lemma process_layer_keeps_outputs (cam : SceneObject) (cn : string)
    (i j : nat) (t t' : Scene) :
  i <> j ->
  process_layer relpath name cam cn j t = Done tt t' ->
  outputs_ok cn t i -> outputs_ok cn t' i.
Proof.
  intros Hij Hrun Hok.
  destruct (nth_error (view_layers t) j) as [ lj | ] eqn:Hj.
  2: { unfold process_layer, bind, get, py_index in Hrun.
       rewrite Hj in Hrun. discriminate. }
  rewrite (process_layer_run cam cn j t lj Hj) in Hrun.
  assert (Hoff : outputs_ok cn (disabled_scene j t) i).
  { intros layer Hl Huse. unfold disabled_scene in *.
    cbn [view_layers tree_nodes tree_links with_layers] in *.
    rewrite nth_error_update_nth_ne in Hl by congruence.
    exact (Hok layer Hl Huse). }
  destruct (so_users_collection cam) as [ | c rest ]; [ discriminate | ].
  destruct (startswith "_" (layer_name lj));
    [ injection Hrun as <-; exact Hoff | ].
  destruct (find_layer_collection (layer_collection lj) c) as [ lc | ];
    [ | discriminate ].
  destruct (lc_exclude lc); [ injection Hrun as <-; exact Hoff | ].
  injection Hrun as <-.
  intros layer Hl Huse. unfold enabled_scene in *.
  cbn [view_layers tree_nodes tree_links with_layers with_tree] in *.
  rewrite !nth_error_update_nth_ne in Hl by congruence.
  destruct (Hok layer Hl Huse) as (k & H0 & H1 & H2 & L1 & L2).
  exists k.
  repeat split; try (now apply nth_error_app_keep);
    apply in_or_app; now left.
Qed.

(** The layer loop, when it completes, leaves every layer it passed over
    with its outputs. *)
Lemma layer_loop_outputs (cam : SceneObject) (cn : string)
    (indices : list nat) :
  NoDup indices ->
  forall t t',
    for_each indices (process_layer relpath name cam cn) t = Done tt t' ->
    (forall i, In i indices -> outputs_ok cn t' i)
    /\ (forall i, ~ In i indices -> outputs_ok cn t i -> outputs_ok cn t' i).
Proof.
  induction 1 as [ | j indices Hj Hnd IH ]; intros t t' Hrun.
  - cbn in Hrun. injection Hrun as <-. split; [ intros i [] | auto ].
  - cbn [for_each] in Hrun. unfold bind in Hrun.
    destruct (process_layer relpath name cam cn j t) as [ [] t1 | e t1 ]
      eqn:Hstep; [ | discriminate ].
    destruct (IH t1 t' Hrun) as (Hin & Hout).
    split.
    + intros i [ <- | Hi ]; [ | now apply Hin ].
      apply Hout; [ exact Hj | ].
      exact (process_layer_outputs cam cn j t t1 Hstep).
    + intros i Hi Hok. apply Hout; [ intros H; apply Hi; now right | ].
      apply (process_layer_keeps_outputs cam cn i j t t1); auto.
      intros ->. apply Hi. now left.
Qed.

Lemma string_append_assoc (a b c : string) :
  (a +++ b) +++ c = a +++ (b +++ c).
Proof.
  induction a as [ | x a IH ]; cbn; [ reflexivity | now rewrite IH ].
Qed.

(** C4 (as the code has it). For the scene name [name], a camera that
    passes the filters, whose name is [C] once the prefix ["Camera_"] is
    removed (line 70), and a view layer [L] that the pass has enabled: the
    tree holds a Render Layers node of [L] whose [Image] output feeds a
    File Output node with the path [renders/name/L/#_C] and whose [Mist]
    output feeds one with the path [renders/name/L/m_#_C]; for the first
    view layer the paths are [renders/name/#_C] and [renders/name/m_#_C].
    The paths are the ones handed to the host's [bpy.path.relpath]. *)
Theorem output_file_paths (cam : SceneObject) (s s' : Scene) :
  skipped env_CAMERAS cam = false ->
  process_camera env_CAMERAS relpath new_view_name name default_frame_end cam s
  = Done tt s' ->
  forall (i : nat) (layer : ViewLayer),
    nth_error (view_layers s') i = Some layer ->
    layer_use layer = true ->
    let C := removeprefix "Camera_" (so_name cam) in
    let L := layer_name layer in
    let dir :=
      if Nat.eqb i 0 then "renders/" +++ name +++ "/"
      else "renders/" +++ name +++ "/" +++ L +++ "/" in
    exists k : nat,
      nth_error (tree_nodes s') k = Some (rlayers_node L)
      /\ nth_error (tree_nodes s') (k + 1)
         = Some (output_file_node (relpath (dir +++ "#_" +++ C)))
      /\ nth_error (tree_nodes s') (k + 2)
         = Some (output_file_node (relpath (dir +++ "m_#_" +++ C)))
      /\ In {| cl_from := k; cl_output := "Image";
               cl_to := k + 1; cl_input := 0 |} (tree_links s')
      /\ In {| cl_from := k; cl_output := "Mist";
               cl_to := k + 2; cl_input := 0 |} (tree_links s').
Proof.
  intros Hskip Hrun i layer Hi Huse. cbv zeta.
  destruct (process_camera_run cam s Hskip)
    as [ (vs & Hrun') | (msg & vs & Hrun') ];
    rewrite Hrun' in Hrun; [ | discriminate ].
  unfold bind in Hrun.
  pose proof (layer_loop_keeps_frame cam (camera_name_of cam)
                (seq 0 (List.length (view_layers s)))
                (start_scene cam vs s)) as Hframe.
  destruct (for_each _ _ (start_scene cam vs s)) as [ [] t | e t ] eqn:Hloop;
    [ | discriminate ].
  cbn [final_state] in Hframe.
  destruct (trigger_render_run t) as (animation & Hrender).
  rewrite Hrender in Hrun. injection Hrun as <-.
  cbn [view_layers tree_nodes tree_links with_event] in *.
  destruct (layer_loop_outputs cam (camera_name_of cam) _
              (seq_NoDup _ _) _ _ Hloop) as (Hin & _).
  assert (Hlt : In i (seq 0 (List.length (view_layers s)))).
  { apply in_seq. split; [ lia | ].
    apply layer_loop_frame_length in Hframe.
    unfold start_scene in Hframe. run_scene. cbn [view_layers with_tree
      with_frame_end with_event with_camera with_views with_samples]
      in Hframe.
    rewrite <- Hframe. apply nth_error_Some. congruence. }
  destruct (Hin i Hlt layer Hi Huse) as (k & H0 & H1 & H2 & L1 & L2).
  exists k. unfold image_path, mist_path, prefix_of in H1, H2.
  split; [ exact H0 | ].
  split; [ | split; [ | split; assumption ] ].
  - rewrite H1. unfold camera_name_of.
    destruct (Nat.eqb i 0); now rewrite !string_append_assoc.
  - rewrite H2. unfold camera_name_of.
    destruct (Nat.eqb i 0); now rewrite !string_append_assoc.
Qed.

(** *** The layer loop in closed form *)

Lemma forallb_false_ex {A} (f : A -> bool) (l : list A) :
  forallb f l = false -> exists x, In x l /\ f x = false.
Proof.
  induction l as [ | x l IH ]; cbn; [ discriminate | ].
  destruct (f x) eqn:E; cbn.
  - intros H. destruct (IH H) as (y & Hy & Hf). exists y. auto.
  - intros _. exists x. auto.
Qed.

Lemma layer_loop_closed (cam : SceneObject) (cn c : string)
    (rest : list string) :
  so_users_collection cam = c :: rest ->
  forall (todo done : list ViewLayer) (t : Scene),
    view_layers t = done ++ todo ->
    forallb (layer_resolves c) todo = true ->
    for_each (seq (List.length done) (List.length todo))
      (process_layer relpath name cam cn) t
    = Done tt
        (with_tree
           (tree_nodes t
            ++ loop_nodes relpath name cn c (List.length done) todo)
           (tree_links t
            ++ loop_links c (List.length (tree_nodes t)) todo)
           (with_layers (done ++ map (layer_after c) todo) t)).
Proof.
  intros Hu. induction todo as [ | layer todo IH ]; intros done t Hl Hres.
  - cbn [List.length seq for_each loop_nodes loop_links map]. unfold ret.
    rewrite app_nil_r in Hl. rewrite !app_nil_r, <- Hl. now destruct t.
  - cbn [List.length seq for_each]. unfold bind.
    cbn [forallb] in Hres. apply andb_true_iff in Hres as (Hr & Hres).
    assert (Hn : nth_error (view_layers t) (List.length done) = Some layer).
    { rewrite Hl, nth_error_app2 by lia. now rewrite Nat.sub_diag. }
    assert (Hnext :
              forall x t',
                view_layers t' = done ++ x :: todo ->
                for_each (seq (S (List.length done)) (List.length todo))
                  (process_layer relpath name cam cn) t'
                = Done tt
                    (with_tree
                       (tree_nodes t'
                        ++ loop_nodes relpath name cn c
                             (S (List.length done)) todo)
                       (tree_links t'
                        ++ loop_links c (List.length (tree_nodes t')) todo)
                       (with_layers
                          (done ++ x :: map (layer_after c) todo) t'))).
    { intros x t' Hl'. specialize (IH (done ++ [ x ]) t').
      rewrite length_app, Nat.add_1_r, <- !app_assoc in IH. cbn [app] in IH.
      apply IH; assumption. }
    rewrite (process_layer_run cam cn _ t layer Hn), Hu.
    unfold layer_resolves in Hr.
    cbn [loop_nodes loop_links map]. unfold layer_after at 1.
    unfold layer_is_enabled.
    assert (Hoff :
              view_layers (disabled_scene (List.length done) t)
              = done ++ layer_set_use false layer :: todo).
    { unfold disabled_scene. cbn [view_layers with_layers].
      rewrite Hl, update_nth_app_0. reflexivity. }
    destruct (startswith "_" (layer_name layer)) eqn:Hs; cbn [negb andb].
    + rewrite (Hnext _ _ Hoff). reflexivity.
    + destruct (find_layer_collection (layer_collection layer) c)
        as [ lc | ]; [ | discriminate ].
      destruct (lc_exclude lc); cbn [negb].
      * rewrite (Hnext _ _ Hoff). reflexivity.
      * rewrite (Hnext (layer_set_passes (layer_set_use true layer))).
        -- unfold enabled_scene, with_tree, with_layers.
           cbn [scene_name cycles_samples render_views scene_camera
                frame_end view_layers tree_nodes tree_links trace].
           rewrite length_app, <- !app_assoc. reflexivity.
        -- unfold enabled_scene. cbn [view_layers with_layers with_tree].
           rewrite Hl, update_nth_app_0. cbn [update_nth].
           rewrite update_nth_app_0. reflexivity.
Qed.

(** A completed pass over a camera that has a collection. *)
Lemma process_camera_closed (cam : SceneObject) (s : Scene) (c : string)
    (rest : list string) :
  skipped env_CAMERAS cam = false ->
  views_resettable (render_views s) = true ->
  so_users_collection cam = c :: rest ->
  forallb (layer_resolves c) (view_layers s) = true ->
  process_camera env_CAMERAS relpath new_view_name name default_frame_end cam s
  = Done tt
      (scene_after_pass relpath new_view_name name default_frame_end cam c s).
Proof.
  intros Hskip Hv Hu Hres.
  rewrite (process_camera_run_views cam s Hskip Hv). unfold bind.
  pose proof (layer_loop_closed cam (camera_name_of cam) c rest Hu
                (view_layers s) []
                (start_scene cam
                   (views_after new_view_name (camera_name_of cam)
                      (render_views s)) s)
                eq_refl Hres) as Hloop.
  cbn [List.length app] in Hloop. rewrite Hloop.
  unfold trigger_render, bind, get, ops_render, modify, start_scene.
  run_scene.
  match goal with
  | |- context [ (1 <? ?x) && (?x <? 250) ] =>
      change ((1 <? x) && (x <? 250)) with (is_animation x)
  end.
  rewrite is_animation_clamp.
  unfold scene_after_pass, selected_samples, camera_frame_end.
  destruct (is_animation _);
    unfold with_event at 1; run_scene; cbn [app List.length];
    rewrite <- app_assoc; reflexivity.
Qed.

(** A pass that completes has met no layer on which line 103 raises. *)
Lemma process_camera_done_resolves (cam : SceneObject) (s s' : Scene)
    (c : string) (rest : list string) :
  skipped env_CAMERAS cam = false ->
  so_users_collection cam = c :: rest ->
  process_camera env_CAMERAS relpath new_view_name name default_frame_end cam s
  = Done tt s' ->
  forallb (layer_resolves c) (view_layers s) = true.
Proof.
  intros Hskip Hu Hrun.
  pose proof (process_camera_done_views cam s s' Hskip Hrun) as Hv.
  destruct (forallb (layer_resolves c) (view_layers s)) eqn:Hres;
    [ reflexivity | exfalso ].
  apply forallb_false_ex in Hres as (layer & Hin & Hr).
  unfold layer_resolves in Hr. apply orb_false_elim in Hr as (Hs & Hf).
  destruct (find_layer_collection (layer_collection layer) c) eqn:Hfind;
    [ discriminate | ].
  destruct (process_camera_attribute_error cam s c rest layer Hskip Hv Hu
              Hin Hs Hfind) as (t & Ht).
  congruence.
Qed.

(** The events of a completed pass, whatever the layers. *)
Lemma process_camera_done_trace (cam : SceneObject) (s s' : Scene) :
  skipped env_CAMERAS cam = false ->
  process_camera env_CAMERAS relpath new_view_name name default_frame_end cam s
  = Done tt s' ->
  frame_end s' = clamp_frame (camera_frame_end default_frame_end cam)
  /\ exists nodes,
       trace s'
       = trace s
         ++ [ SetCamera cam;
              Render
                (is_animation (camera_frame_end default_frame_end cam))
                (Some cam) (selected_samples cam) nodes ].
Proof.
  intros Hskip Hrun.
  pose proof (process_camera_done_views cam s s' Hskip Hrun) as Hv.
  rewrite (process_camera_run_views cam s Hskip Hv) in Hrun.
  unfold bind in Hrun.
  match type of Hrun with
  | context [ for_each ?l ?b ?t ] =>
      pose proof (layer_loop_keeps_frame cam (camera_name_of cam) l t)
        as Hframe;
      destruct (for_each l b t) as [ [] t1 | e t1 ]; [ | discriminate ]
  end.
  cbn [final_state] in Hframe.
  destruct Hframe as (_ & Hsamples & Hcam & Hfe & Htrace & _).
  unfold start_scene in Hsamples, Hcam, Hfe, Htrace.
  cbn [cycles_samples scene_camera frame_end trace with_tree with_frame_end
       with_event with_camera with_views with_samples]
    in Hsamples, Hcam, Hfe, Htrace.
  cbv beta iota delta [trigger_render bind get ops_render modify] in Hrun.
  rewrite Hfe in Hrun.
  fold (camera_frame_end default_frame_end cam) in Hrun, Hfe.
  match type of Hrun with
  | context [ (1 <? ?x) && (?x <? 250) ] =>
      change ((1 <? x) && (x <? 250)) with (is_animation x) in Hrun
  end.
  rewrite is_animation_clamp in Hrun.
  destruct (is_animation (camera_frame_end default_frame_end cam));
    cbv beta in Hrun; rewrite Hcam, Hsamples in Hrun;
    fold (selected_samples cam) in Hrun;
    injection Hrun as <-; cbn [frame_end trace with_event];
    (split; [ exact Hfe | ]); exists (tree_nodes t1);
    rewrite Htrace, <- app_assoc; reflexivity.
Qed.

(** *** Line 103 and what it reads without a guard *)

(** C10 (as the code has it). For a camera that passes the filters, in
    a scene where lines 81-85 get through the views:
    [camera.users_collection[0]] is read once per view layer, before
    anything else, so a camera that belongs to no collection makes the
    pass raise [IndexError]; [layer_collection.exclude] is read only for a
    layer whose name does not start with ["_"] (the [and] of line 103
    stops at its left operand otherwise), so a first collection that is
    missing from the hierarchy of such a layer makes the pass raise
    [AttributeError].  Nothing catches either: the camera loop ends by
    raising instead of going on to the next camera.  On a layer whose
    name starts with ["_"] nothing is read of the result of
    [find_layer_collection]: the pass over the layer completes, whatever
    the hierarchy holds, and only switches [layer.use] off; and when
    every layer either has such a name or holds the camera's first
    collection, the pass over the camera completes, with every layer
    named ["_..."] left disabled under its name. *)
Theorem unguarded_collection_lookup (objects : list SceneObject)
    (s : Scene) (cam : SceneObject) :
  In cam objects ->
  skipped env_CAMERAS cam = false ->
  view_layers s <> [] ->
  views_resettable (render_views s) = true ->
  (so_users_collection cam = [] ->
   (exists t,
      process_camera env_CAMERAS relpath new_view_name name default_frame_end
          cam s
      = Raised (IndexError "tuple index out of range") t)
   /\ exists e t,
        camera_loop env_CAMERAS relpath new_view_name name default_frame_end
            objects s
        = Raised e t)
  /\ (forall c rest layer,
        so_users_collection cam = c :: rest ->
        In layer (view_layers s) ->
        startswith "_" (layer_name layer) = false ->
        find_layer_collection (layer_collection layer) c = None ->
        (exists t,
           process_camera env_CAMERAS relpath new_view_name
             name default_frame_end cam s
           = Raised (AttributeError
                       "'NoneType' object has no attribute 'exclude'") t)
        /\ exists e t,
             camera_loop env_CAMERAS relpath new_view_name
               name default_frame_end
               objects s
             = Raised e t)
  /\ (forall c rest (i : nat) (layer : ViewLayer) (t : Scene),
        so_users_collection cam = c :: rest ->
        nth_error (view_layers t) i = Some layer ->
        startswith "_" (layer_name layer) = true ->
        process_layer relpath name cam (camera_name_of cam) i t
        = Done tt
            (with_layers
               (update_nth i (layer_set_use false) (view_layers t)) t))
  /\ (forall c rest,
        so_users_collection cam = c :: rest ->
        (forall layer,
           In layer (view_layers s) ->
           startswith "_" (layer_name layer) = true
           \/ find_layer_collection (layer_collection layer) c <> None) ->
        exists s',
          process_camera env_CAMERAS relpath new_view_name
            name default_frame_end
            cam s
          = Done tt s'
          /\ forall (i : nat) (layer : ViewLayer),
               nth_error (view_layers s) i = Some layer ->
               startswith "_" (layer_name layer) = true ->
               exists layer',
                 nth_error (view_layers s') i = Some layer'
                 /\ layer_name layer' = layer_name layer
                 /\ layer_use layer' = false).
Proof.
  intros Hin Hskip Hlayers Hv.
  assert (Hcam : In cam
                   (filter (fun obj => String.eqb (so_type obj) "CAMERA")
                      objects)).
  { apply filter_In. split; [ exact Hin | ].
    unfold skipped, skipped_by_flags in Hskip.
    apply orb_false_elim in Hskip as (Hflags & _).
    apply orb_false_elim in Hflags as (Hflags & _).
    apply orb_false_elim in Hflags as (Htype & _).
    now apply negb_false_iff in Htype. }
  split; [ | split; [ | split ] ].
  - intros Hu. split.
    + now apply process_camera_index_error.
    + unfold camera_loop.
      apply (camera_loop_aborts cam _ Hcam Hskip s Hlayers). now left.
  - intros c rest layer Hu Hl Hs Hf. split.
    + now apply (process_camera_attribute_error cam s c rest layer).
    + unfold camera_loop.
      apply (camera_loop_aborts cam _ Hcam Hskip s Hlayers). right.
      apply In_nth_error in Hl as (i & Hi).
      exists c, rest, i. split; [ exact Hu | ].
      exists layer. auto.
  - intros c rest i layer t Hu Hn Hs.
    rewrite (process_layer_run cam _ i t layer Hn), Hu, Hs. reflexivity.
  - intros c rest Hu Hall.
    assert (Hres : forallb (layer_resolves c) (view_layers s) = true).
    { apply forallb_forall. intros layer Hl. unfold layer_resolves.
      destruct (Hall layer Hl) as [ -> | Hf ]; [ reflexivity | ].
      destruct (find_layer_collection (layer_collection layer) c);
        [ apply orb_true_r | contradiction ]. }
    exists (scene_after_pass relpath new_view_name name default_frame_end
              cam c s).
    split; [ now apply (process_camera_closed cam s c rest) | ].
    intros i layer Hn Hs. exists (layer_after c layer).
    cbn [view_layers scene_after_pass]. split.
    + rewrite nth_error_map, Hn. reflexivity.
    + unfold layer_after, layer_is_enabled. rewrite Hs. cbn. auto.
Qed.

(** *** What a pass of the camera loop leaves *)

Lemma process_layer_keeps_views (cam : SceneObject) (cn : string) (i : nat) :
  keeps (fun s s' => render_views s' = render_views s)
    (process_layer relpath name cam cn i).
Proof.
  intros t.
  destruct (nth_error (view_layers t) i) as [ layer | ] eqn:Hn.
  - rewrite (process_layer_run cam cn i t layer Hn).
    destruct (so_users_collection cam) as [ | c rest ]; [ reflexivity | ].
    destruct (startswith "_" (layer_name layer)); [ reflexivity | ].
    destruct (find_layer_collection (layer_collection layer) c) as [ lc | ];
      [ | reflexivity ].
    destruct (lc_exclude lc); reflexivity.
  - unfold process_layer, bind, get, py_index. now rewrite Hn.
Qed.

(** Where the names of the views are distinct, as the host keeps them,
    [views_set_use] is a map. *)
Lemma views_set_use_nodup (n : string) (u : bool) (vs : list RenderView) :
  NoDup (map view_name vs) ->
  views_set_use n u vs
  = map (fun v =>
           if String.eqb (view_name v) n
           then {| view_name := view_name v; view_use := u |}
           else v)
      vs.
Proof.
  induction vs as [ | v vs IH ]; cbn [map views_set_use];
    [ reflexivity | ].
  intros Hnd. inversion Hnd as [ | x l Hnotin Hnd' ]; subst.
  destruct (String.eqb (view_name v) n) eqn:E.
  - f_equal. apply String.eqb_eq in E. subst n.
    rewrite <- (map_id vs) at 1. apply map_ext_in. intros w Hw.
    destruct (String.eqb (view_name w) (view_name v)) eqn:Ew;
      [ | reflexivity ].
    apply String.eqb_eq in Ew. exfalso. apply Hnotin.
    rewrite <- Ew. now apply in_map.
  - f_equal. now apply IH.
Qed.

Lemma views_kept_nodup (views : list RenderView) :
  NoDup (map view_name views) ->
  views_kept views
  = map (fun v => {| view_name := view_name v; view_use := false |})
      (filter (fun v => is_left_right (view_name v)) views).
Proof.
  intros Hnd. unfold views_kept.
  set (K := filter (fun v => is_left_right (view_name v)) views).
  assert (HK : NoDup (map view_name K)) by now apply NoDup_filter_names.
  rewrite (views_set_use_nodup "right" false K HK).
  rewrite views_set_use_nodup.
  - rewrite map_map. apply map_ext_in. intros v Hvin.
    apply filter_In in Hvin as (_ & Hlr). unfold is_left_right in Hlr.
    destruct (String.eqb (view_name v) "right") eqn:Er; cbn [view_name].
    + destruct (String.eqb (view_name v) "left"); reflexivity.
    + rewrite orb_false_r in Hlr. now rewrite Hlr.
  - rewrite map_map.
    rewrite (map_ext _ view_name); [ exact HK | ].
    intros v. now destruct (String.eqb (view_name v) "right").
Qed.

(** X2. Lines 81-87, for a camera that passes the filters and however
    the pass ends.  When one of the views is called ["left"] or
    ["right"], or the scene has no view: the render views the pass
    leaves are the views called ["left"] or ["right"], in their order,
    with [use] off for the first ["left"] and for the first ["right"]
    (for all of them where the names are distinct, as the host keeps
    them), followed by the view that line 87 creates, named by the host
    after the camera's name without the prefix ["Camera_"]; every other
    view, those of the cameras rendered before included, is removed.
    When the scene has views and none is called ["left"] or ["right"]:
    line 85 raises [RuntimeError] on the first view, the only one left
    by then, and no camera is set and nothing rendered. *)
Theorem views_after_pass (cam : SceneObject) (s : Scene) :
  skipped env_CAMERAS cam = false ->
  let out :=
    process_camera env_CAMERAS relpath new_view_name name default_frame_end
        cam s in
  let left_right :=
    fun v =>
      String.eqb (view_name v) "left" || String.eqb (view_name v) "right" in
  let kept :=
    views_set_use "left" false
      (views_set_use "right" false (filter left_right (render_views s))) in
  (render_views s = [] \/ existsb left_right (render_views s) = true ->
   render_views (final_state out)
   = kept
     ++ [ {| view_name :=
               new_view_name (removeprefix "Camera_" (so_name cam))
                 (map view_name kept);
             view_use := true |} ])
  /\ (NoDup (map view_name (render_views s)) ->
      kept
      = map (fun v => {| view_name := view_name v; view_use := false |})
          (filter left_right (render_views s)))
  /\ (forall v0 rest,
        render_views s = v0 :: rest ->
        existsb left_right (render_views s) = false ->
        (exists msg, raised out = Some (RuntimeError msg))
        /\ render_views (final_state out) = [ v0 ]
        /\ trace (final_state out) = trace s).
Proof.
  intros Hskip. cbv zeta.
  split; [ | split ].
  - intros Hok.
    assert (Hv : views_resettable (render_views s) = true).
    { unfold views_resettable. destruct Hok as [ -> | Hex ];
        [ reflexivity | ].
      destruct (render_views s); [ reflexivity | exact Hex ]. }
    rewrite (process_camera_run_views cam s Hskip Hv). unfold bind.
    match goal with
    | |- context [ for_each ?l ?b ?t ] =>
        assert (Hviews :
                  render_views (final_state (for_each l b t))
                  = render_views t)
    end.
    { apply (keeps_for_each (fun s s' => render_views s' = render_views s)).
      - reflexivity.
      - intros s1 s2 s3 H1 H2. congruence.
      - intros i _. apply process_layer_keeps_views. }
    destruct (for_each _ _ _) as [ [] t | e t ]; cbn [final_state] in Hviews.
    + destruct (trigger_render_run t) as (animation & ->).
      cbn [final_state render_views with_event]. rewrite Hviews.
      reflexivity.
    + cbn [final_state]. rewrite Hviews. reflexivity.
  - apply views_kept_nodup.
  - intros v0 rest Hviews Hex.
    unfold skipped in Hskip. apply orb_false_elim in Hskip as (Hf & He).
    unfold process_camera. rewrite Hf, He.
    unfold select_samples.
    destruct (String.eqb (camera_name_of cam) "0");
      cbv beta iota delta [bind set_samples modify];
      rewrite reset_views_closed;
      cbn [render_views with_samples scene_name];
      rewrite Hviews; unfold views_resettable;
      rewrite Hviews in Hex;
      change (fun v : RenderView => is_left_right (view_name v))
        with (fun v : RenderView =>
                String.eqb (view_name v) "left"
                || String.eqb (view_name v) "right");
      rewrite Hex; (split; [ eexists; reflexivity | split; reflexivity ]).
Qed.

(** X3. Lines 100-112, for a pass that completes over a camera whose
    first collection is [c]: every view layer keeps its name and its
    hierarchy; [layer.use] is on exactly for the layers whose name does
    not start with ["_"] and whose layer collection of [c], the first one
    found by [find_layer_collection], is not excluded; those layers get
    the combined and mist passes on and the Z pass off, the other layers
    keep their pass flags. *)
Theorem layers_after_pass (cam : SceneObject) (s s' : Scene) (c : string)
    (rest : list string) :
  skipped env_CAMERAS cam = false ->
  so_users_collection cam = c :: rest ->
  process_camera env_CAMERAS relpath new_view_name name default_frame_end cam s
  = Done tt s' ->
  view_layers s' = map (layer_after c) (view_layers s)
  /\ forall layer,
       In layer (view_layers s) ->
       layer_name (layer_after c layer) = layer_name layer
       /\ layer_collection (layer_after c layer) = layer_collection layer
       /\ layer_use (layer_after c layer) = layer_is_enabled c layer
       /\ (layer_is_enabled c layer = true ->
           use_pass_combined (layer_after c layer) = true
           /\ use_pass_z (layer_after c layer) = false
           /\ use_pass_mist (layer_after c layer) = true)
       /\ (layer_is_enabled c layer = false ->
           use_pass_combined (layer_after c layer) = use_pass_combined layer
           /\ use_pass_z (layer_after c layer) = use_pass_z layer
           /\ use_pass_mist (layer_after c layer) = use_pass_mist layer).
Proof.
  intros Hskip Hu Hrun.
  pose proof (process_camera_done_views cam s s' Hskip Hrun) as Hv.
  pose proof (process_camera_done_resolves cam s s' c rest Hskip Hu Hrun)
    as Hres.
  rewrite (process_camera_closed cam s c rest Hskip Hv Hu Hres) in Hrun.
  injection Hrun as <-. split; [ reflexivity | ].
  intros layer _. unfold layer_after.
  destruct (layer_is_enabled c layer); cbn; repeat split; discriminate.
Qed.

Lemma loop_nodes_length (cn c : string) (i : nat) (layers : list ViewLayer) :
  List.length (loop_nodes relpath name cn c i layers)
  = (3 * List.length (filter (layer_is_enabled c) layers))%nat.
Proof.
  revert i. induction layers as [ | layer layers IH ]; intros i;
    [ reflexivity | ].
  cbn [loop_nodes filter]. rewrite length_app, IH.
  destruct (layer_is_enabled c layer); cbn [List.length layer_nodes]; lia.
Qed.

(** X4. Lines 98-139, for a pass that completes over a camera whose
    first collection is [c]: the compositor tree holds exactly three
    nodes for each enabled view layer, in the order of
    [scene.view_layers] (a Render Layers node of the layer, then the File
    Output nodes of its image and of its mist), and two links for each,
    from the Render Layers node to the two nodes after it; nothing is
    left of the tree the pass started from. *)
Theorem tree_after_pass (cam : SceneObject) (s s' : Scene) (c : string)
    (rest : list string) :
  skipped env_CAMERAS cam = false ->
  so_users_collection cam = c :: rest ->
  process_camera env_CAMERAS relpath new_view_name name default_frame_end cam s
  = Done tt s' ->
  tree_nodes s'
  = loop_nodes relpath name (removeprefix "Camera_" (so_name cam)) c 0
      (view_layers s)
  /\ tree_links s' = loop_links c 0 (view_layers s)
  /\ List.length (tree_nodes s')
     = (3 * List.length (filter (layer_is_enabled c) (view_layers s)))%nat.
Proof.
  intros Hskip Hu Hrun.
  pose proof (process_camera_done_views cam s s' Hskip Hrun) as Hv.
  pose proof (process_camera_done_resolves cam s s' c rest Hskip Hu Hrun)
    as Hres.
  rewrite (process_camera_closed cam s c rest Hskip Hv Hu Hres) in Hrun.
  injection Hrun as <-. cbn [tree_nodes tree_links scene_after_pass].
  split; [ reflexivity | ]. split; [ reflexivity | ].
  apply loop_nodes_length.
Qed.

(** X5. When a pass of the camera loop completes: a camera that passes
    the filters gets through its pass exactly when lines 81-85 get
    through the views (the scene has no view, or one of its views is
    called ["left"] or ["right"]) and the layer loop gets through the
    view layers (the scene has no view layer, or the camera is in a
    collection and every view layer either has a name that starts with
    ["_"] or holds the camera's first collection in its hierarchy).  In
    every other case the pass raises. *)
Theorem pass_completes_iff (cam : SceneObject) (s : Scene) :
  skipped env_CAMERAS cam = false ->
  raised (process_camera env_CAMERAS relpath new_view_name
            name default_frame_end cam s)
  = None
  <-> (match render_views s with
       | [] => true
       | _ :: _ =>
           existsb
             (fun v =>
                String.eqb (view_name v) "left"
                || String.eqb (view_name v) "right")
             (render_views s)
       end
       && match view_layers s with
          | [] => true
          | _ :: _ =>
              match so_users_collection cam with
              | [] => false
              | collection :: _ =>
                  forallb
                    (fun layer =>
                       startswith "_" (layer_name layer)
                       || match
                            find_layer_collection (layer_collection layer)
                              collection
                          with
                          | Some _ => true
                          | None => false
                          end)
                    (view_layers s)
              end
          end) = true.
Proof.
  intros Hskip.
  change (raised
            (process_camera env_CAMERAS relpath new_view_name name
               default_frame_end cam s) = None
          <-> pass_completes cam s = true).
  unfold pass_completes, layers_complete.
  destruct (views_resettable (render_views s)) eqn:Hv; cbn [andb].
  2: { split; [ | discriminate ].
       destruct (process_camera_views_error cam s Hskip Hv)
         as (msg & vs & ->).
       discriminate. }
  destruct (view_layers s) as [ | l0 ls ] eqn:Hl.
  - split; [ reflexivity | intros _ ].
    rewrite (process_camera_run_views cam s Hskip Hv). unfold bind.
    rewrite Hl. cbn [List.length seq for_each]. unfold ret.
    match goal with
    | |- context [ trigger_render ?t ] =>
        destruct (trigger_render_run t) as (animation & ->)
    end.
    reflexivity.
  - destruct (so_users_collection cam) as [ | c rest ] eqn:Hu.
    + split; [ | discriminate ].
      destruct (process_camera_index_error cam s Hskip Hv) as (t & ->);
        [ rewrite Hl; discriminate | exact Hu | discriminate ].
    + rewrite <- Hl. split.
      * intros Hdone.
        destruct (process_camera env_CAMERAS relpath new_view_name
                    name default_frame_end
                    cam s) as [ [] s' | e s' ] eqn:Hrun; [ | discriminate ].
        exact (process_camera_done_resolves cam s s' c rest Hskip Hu Hrun).
      * intros Hres.
        now rewrite (process_camera_closed cam s c rest Hskip Hv Hu Hres).
Qed.

(** The events of a camera loop that completes. *)
Lemma camera_loop_done_trace (cameras : list SceneObject) :
  forall s s',
    for_each cameras
      (process_camera env_CAMERAS relpath new_view_name name default_frame_end
          ) s
    = Done tt s' ->
    exists new,
      trace s' = trace s ++ new
      /\ map event_summary new
         = flat_map (camera_events default_frame_end)
             (filter (fun c => negb (skipped env_CAMERAS c)) cameras).
Proof.
  induction cameras as [ | cam cameras IH ]; intros s s' Hrun.
  - cbn in Hrun. injection Hrun as <-. exists []. split.
    + now rewrite app_nil_r.
    + reflexivity.
  - cbn [for_each] in Hrun. unfold bind in Hrun.
    destruct (process_camera env_CAMERAS relpath new_view_name
                name default_frame_end
                cam s) as [ [] s1 | e s1 ] eqn:Hcam; [ | discriminate ].
    destruct (IH s1 s' Hrun) as (new & Htrace & Hnew).
    cbn [filter]. destruct (skipped env_CAMERAS cam) eqn:Hskip; cbn [negb].
    + rewrite (process_camera_skipped cam s Hskip) in Hcam.
      injection Hcam as <-. exists new. auto.
    + destruct (process_camera_done_trace cam s s1 Hskip Hcam)
        as (_ & nodes & Hs1).
      eexists. split.
      * rewrite Htrace, Hs1, <- app_assoc. reflexivity.
      * cbn [flat_map]. rewrite map_app, Hnew. reflexivity.
Qed.

(** *** What the camera loop leaves of the scene *)

Lemma process_camera_done_state (cam : SceneObject) (s s' : Scene) :
  skipped env_CAMERAS cam = false ->
  process_camera env_CAMERAS relpath new_view_name name default_frame_end cam s
  = Done tt s' ->
  scene_name s' = scene_name s
  /\ cycles_samples s' = selected_samples cam
  /\ scene_camera s' = Some cam
  /\ frame_end s' = clamp_frame (camera_frame_end default_frame_end cam).
Proof.
  intros Hskip Hrun.
  pose proof (process_camera_done_views cam s s' Hskip Hrun) as Hv.
  rewrite (process_camera_run_views cam s Hskip Hv) in Hrun.
  unfold bind in Hrun.
  match type of Hrun with
  | context [ for_each ?l ?b ?t ] =>
      pose proof (layer_loop_keeps_frame cam (camera_name_of cam) l t)
        as Hframe;
      destruct (for_each l b t) as [ [] t1 | e t1 ]; [ | discriminate ]
  end.
  cbn [final_state] in Hframe.
  destruct Hframe as (Hname & Hsamples & Hcam & Hfe & _).
  unfold start_scene in Hname, Hsamples, Hcam, Hfe.
  cbn [scene_name cycles_samples scene_camera frame_end with_tree
       with_frame_end with_event with_camera with_views with_samples]
    in Hname, Hsamples, Hcam, Hfe.
  destruct (trigger_render_run t1) as (animation & Hrender).
  rewrite Hrender in Hrun. injection Hrun as <-.
  cbn [scene_name cycles_samples scene_camera frame_end with_event].
  auto.
Qed.

Lemma last_camera_cons (cam : SceneObject) (cameras : list SceneObject) :
  last_camera (cam :: cameras)
  = match last_camera cameras with
    | Some c => Some c
    | None => Some cam
    end.
Proof.
  unfold last_camera. cbn [map].
  destruct cameras as [ | c cameras ]; [ reflexivity | ].
  cbn [map]. rewrite last_cons_nonempty by discriminate.
  assert (H : exists c', last (Some c :: map Some cameras) None = Some c').
  { revert c. induction cameras as [ | x cameras IH ]; intros c.
    - exists c. reflexivity.
    - cbn [map]. rewrite last_cons_nonempty by discriminate. apply IH. }
  destruct H as (c' & ->). reflexivity.
Qed.

(** The camera loop, when it completes: with no camera that passes the
    filters it changes nothing; otherwise it leaves the scene on the last
    camera that passes. *)
Lemma camera_loop_done_state (cameras : list SceneObject) :
  forall s s',
    for_each cameras
      (process_camera env_CAMERAS relpath new_view_name name default_frame_end
          ) s
    = Done tt s' ->
    match
      last_camera (filter (fun c => negb (skipped env_CAMERAS c)) cameras)
    with
    | None => s' = s
    | Some c =>
        scene_name s' = scene_name s
        /\ cycles_samples s' = selected_samples c
        /\ scene_camera s' = Some c
        /\ frame_end s' = clamp_frame (camera_frame_end default_frame_end c)
    end.
Proof.
  induction cameras as [ | cam cameras IH ]; intros s s' Hrun.
  - cbn in Hrun. injection Hrun as <-. reflexivity.
  - cbn [for_each] in Hrun. unfold bind in Hrun.
    destruct (process_camera env_CAMERAS relpath new_view_name
                name default_frame_end
                cam s) as [ [] s1 | e s1 ] eqn:Hcam; [ | discriminate ].
    specialize (IH s1 s' Hrun).
    cbn [filter]. destruct (skipped env_CAMERAS cam) eqn:Hskip; cbn [negb].
    + rewrite (process_camera_skipped cam s Hskip) in Hcam.
      injection Hcam as <-. exact IH.
    + rewrite last_camera_cons.
      destruct (process_camera_done_state cam s s1 Hskip Hcam)
        as (Hn & Hs & Hc & Hf).
      destruct (last_camera _) as [ c | ].
      * destruct IH as (Hn' & IH). split; [ congruence | exact IH ].
      * subst s'. auto.
Qed.

End DriverFacts.

(** *** The whole script *)

Lemma keeps_on_scene {A} (R : Scene -> Scene -> Prop) (c : M Scene A) :
  keeps R c ->
  keeps (fun f f' => R (file_scene f) (file_scene f')) (on_scene c).
Proof.
  intros H f. unfold on_scene. specialize (H (file_scene f)).
  destruct (c (file_scene f)); exact H.
Qed.

Section DriverClaims.

Variable given_scene_name : string -> string -> string.
Variable given_layer_name : string -> list string -> string.
Variable default_nodes : list CompNode.
Variable default_links : list CompLink.
Variable env_CAMERAS : option string.
Variable relpath : string -> string.
Variable new_view_name : string -> list string -> string.

Ltac run_start :=
  unfold prepare_scene, bind, on_scene, modify, get, py_index, enable_nodes,
    update_layer, set_layers, ret, raise, with_scene, with_name, with_tree,
    with_layers;
  cbn -[String.eqb existsb].

(** The start of the script, however it ends: the scene has the name
    the host gave it and, but for its first view layer and its
    compositor nodes, is as it was. *)
Lemma prepare_scene_keeps (name : string) (f : BlendFile) :
  let s1 :=
    file_scene
      (final_state
         (prepare_scene given_scene_name given_layer_name default_nodes
            default_links name f)) in
  scene_name s1 = given_scene_name (scene_name (file_scene f)) name
  /\ cycles_samples s1 = cycles_samples (file_scene f)
  /\ scene_camera s1 = scene_camera (file_scene f)
  /\ frame_end s1 = frame_end (file_scene f)
  /\ render_views s1 = render_views (file_scene f)
  /\ trace s1 = trace (file_scene f).
Proof.
  destruct f as [ s ht un w ]. destruct s as [ n sa vs c fe ls tn tl tr ].
  cbv zeta. run_start.
  destruct ht, ls as [ | first rest ]; cbn -[String.eqb existsb];
    try (repeat split; fail);
    destruct (String.eqb (layer_name first) "ViewLayer");
    cbn -[String.eqb existsb];
    destruct (existsb (String.eqb "World") w);
    cbn -[String.eqb existsb]; repeat split.
Qed.

(** The start of the script when it completes: the scene uses nodes and
    has a compositor node tree, its own if it had one and the host's
    default tree otherwise. *)
Lemma prepare_scene_done (name : string) (f f1 : BlendFile) :
  prepare_scene given_scene_name given_layer_name default_nodes
    default_links name f
  = Done tt f1 ->
  scene_has_tree f1 = true
  /\ scene_use_nodes f1 = true
  /\ tree_nodes (file_scene f1)
     = (if scene_has_tree f then tree_nodes (file_scene f)
        else default_nodes)
  /\ tree_links (file_scene f1)
     = (if scene_has_tree f then tree_links (file_scene f)
        else default_links).
Proof.
  destruct f as [ s ht un w ]. destruct s as [ n sa vs c fe ls tn tl tr ].
  run_start.
  destruct ht, ls as [ | first rest ]; cbn -[String.eqb existsb];
    try discriminate;
    destruct (String.eqb (layer_name first) "ViewLayer");
    cbn -[String.eqb existsb];
    (destruct (existsb (String.eqb "World") w); [ | discriminate ]);
    intros H; injection H as <-; cbn -[String.eqb existsb]; repeat split.
Qed.

Lemma render_scene_events (display_name filepath : string)
    (objects : list SceneObject) :
  keeps
    (fun f f' =>
       adds_events_of (fun c => negb (skipped env_CAMERAS c))
         (file_scene f) (file_scene f'))
    (render_scene given_scene_name given_layer_name default_nodes
       default_links env_CAMERAS relpath new_view_name display_name
       filepath objects).
Proof.
  unfold render_scene. apply keeps_bind.
  - intros f. apply adds_events_refl.
  - intros f1 f2 f3. apply adds_events_trans.
  - intros f. exists []. split; [ | intros e [] ].
    rewrite app_nil_r. apply prepare_scene_keeps.
  - intros _. apply keeps_bind.
    + intros f. apply adds_events_refl.
    + intros f1 f2 f3. apply adds_events_trans.
    + intros f. apply adds_events_refl.
    + intros f.
      apply (keeps_on_scene
               (adds_events_of (fun c => negb (skipped env_CAMERAS c)))).
      apply camera_loop_events.
Qed.

(** C7. A camera whose name contains ["-noimp"], or whose [hide_render]
    is set, is never made the active camera and no render is triggered
    with it: no event that the run adds is about it, however the run
    ends. *)
Theorem skipped_cameras_never_active (display_name filepath : string)
    (objects : list SceneObject) (f : BlendFile) (cam : SceneObject) :
  contains "-noimp" (so_name cam) = true \/ so_hide_render cam = true ->
  exists new,
    trace (file_scene
             (final_state
                (render_scene given_scene_name given_layer_name
                   default_nodes default_links env_CAMERAS relpath
                   new_view_name display_name filepath objects f)))
    = trace (file_scene f) ++ new
    /\ forall e, In e new -> event_camera e <> Some cam.
Proof.
  intros Hcam.
  destruct (render_scene_events display_name filepath objects f)
    as (new & Htrace & Hnew).
  exists new. split; [ exact Htrace | ].
  intros e He Heq. destruct (Hnew e He) as (c & Hc & Hok).
  rewrite Heq in Hc. injection Hc as <-.
  apply negb_true_iff in Hok. unfold skipped in Hok.
  apply orb_false_elim in Hok as (Hflags & _).
  unfold skipped_by_flags in Hflags.
  apply orb_false_elim in Hflags as (Hflags & Hhide).
  apply orb_false_elim in Hflags as (_ & Hnoimp).
  destruct Hcam; congruence.
Qed.

Lemma cameras_filter (objects : list SceneObject) :
  filter (fun c => negb (skipped env_CAMERAS c))
    (filter (fun obj => String.eqb (so_type obj) "CAMERA") objects)
  = filter (fun c => negb (skipped env_CAMERAS c)) objects.
Proof.
  rewrite filter_filter. apply filter_ext. intros c.
  unfold skipped, skipped_by_flags.
  destruct (String.eqb (so_type c) "CAMERA"); reflexivity.
Qed.

(** A run of the script that completes: the start has completed, and
    the camera loop has completed on the scene the start left. *)
Lemma render_scene_done (display_name filepath : string)
    (objects : list SceneObject) (f f' : BlendFile) :
  render_scene given_scene_name given_layer_name default_nodes
    default_links env_CAMERAS relpath new_view_name display_name filepath
    objects f
  = Done tt f' ->
  exists f1,
    prepare_scene given_scene_name given_layer_name default_nodes
      default_links (script_name display_name filepath) f
    = Done tt f1
    /\ camera_loop env_CAMERAS relpath new_view_name
         (script_name display_name filepath) (frame_end (file_scene f1))
         objects (file_scene f1)
       = Done tt (file_scene f')
    /\ f' = with_scene (file_scene f') f1.
Proof.
  unfold render_scene, bind, get. intros Hrun.
  destruct (prepare_scene _ _ _ _ _ f) as [ [] f1 | e f1 ];
    [ | discriminate ].
  exists f1. split; [ reflexivity | ].
  unfold on_scene in Hrun.
  destruct (camera_loop _ _ _ _ _ _ (file_scene f1)) as [ [] s' | e s' ];
    [ | discriminate ].
  injection Hrun as <-. split; reflexivity.
Qed.

End DriverClaims.

(** *** The statements above on the sample file *)

(** The counterexample to C3 as the specification words it: the camera
    object named ["Camera_0"] is not named ["0"], passes the filters, and
    is rendered with [4] samples, not with [SAMPLES]. *)
Lemma camera_0_samples_counterexample :
  so_name camera_0 <> "0"%string
  /\ skipped None camera_0 = false
  /\ trace
       (final_state
          (process_camera None sample_relpath sample_view_name "room" 250
              camera_0
             (sample_scene [ sample_layer "main" ])))
     = [ SetCamera camera_0;
         Render false (Some camera_0) 4
           [ rlayers_node "main";
             output_file_node "//renders/room/#_0";
             output_file_node "//renders/room/m_#_0" ] ]
  /\ 4 <> SAMPLES.
Proof.
  split; [ discriminate | ]. split; [ reflexivity | ].
  split; [ vm_compute; reflexivity | discriminate ].
Qed.

Lemma samples_follow_stripped_name_witness :
  let out :=
    process_camera None sample_relpath sample_view_name "room" 250 camera_1
      (sample_scene [ sample_layer "main" ]) in
  let selected :=
    if String.eqb (removeprefix "Camera_" (so_name camera_1)) "0" then 4
    else SAMPLES in
  cycles_samples (final_state out) = selected
  /\ exists new,
       trace (final_state out)
       = trace (sample_scene [ sample_layer "main" ]) ++ new
       /\ forall animation c n nodes,
            In (Render animation c n nodes) new ->
            c = Some camera_1 /\ n = selected.
Proof.
  apply (samples_follow_stripped_name None sample_relpath
           sample_view_name "room" 250
           camera_1 (sample_scene [ sample_layer "main" ])).
  reflexivity.
Defined.

(** The counterexample to C4 read with the camera object's own name:
    for the camera object named ["Camera_1"] and the second view layer
    ["fog"], the four output paths end in ["_1"]; none is
    [renders/room/fog/m_#_Camera_1], with or without the ["//"] that
    [bpy.path.relpath] puts in front. *)
Lemma camera_prefix_path_counterexample :
  let s' :=
    final_state
      (process_camera None sample_relpath sample_view_name "room" 250 camera_1
         (sample_scene [ sample_layer "main"; sample_layer "fog" ])) in
  so_name camera_1 = "Camera_1"%string
  /\ skipped None camera_1 = false
  /\ map cn_path
       (filter (fun nd => String.eqb (cn_type nd) "CompositorNodeOutputFile")
          (tree_nodes s'))
     = [ Some "//renders/room/#_1"; Some "//renders/room/m_#_1";
         Some "//renders/room/fog/#_1";
         Some "//renders/room/fog/m_#_1" ]%string
  /\ (forall nd,
        In nd (tree_nodes s') ->
        cn_path nd <> Some "renders/room/fog/m_#_Camera_1"%string
        /\ cn_path nd <> Some "//renders/room/fog/m_#_Camera_1"%string).
Proof.
  cbv zeta. split; [ reflexivity | ]. split; [ reflexivity | ].
  split; [ vm_compute; reflexivity | ].
  vm_compute. intros nd H.
  repeat (destruct H as [ <- | H ]; [ split; discriminate | ]).
  destruct H.
Qed.

Lemma output_file_paths_witness :
  let s := sample_scene [ sample_layer "main"; sample_layer "fog" ] in
  let s' :=
    final_state (process_camera None sample_relpath sample_view_name "room" 250
        camera_1 s) in
  let layer := layer_set_passes (sample_layer "fog") in
  skipped None camera_1 = false
  /\ process_camera None sample_relpath sample_view_name "room" 250
      camera_1 s = Done tt s'
  /\ nth_error (view_layers s') 1 = Some layer
  /\ layer_use layer = true
  /\ exists k : nat,
       nth_error (tree_nodes s') k = Some (rlayers_node "fog")
       /\ nth_error (tree_nodes s') (k + 1)
          = Some (output_file_node "//renders/room/fog/#_1")
       /\ nth_error (tree_nodes s') (k + 2)
          = Some (output_file_node "//renders/room/fog/m_#_1")
       /\ In {| cl_from := k; cl_output := "Image";
                cl_to := k + 1; cl_input := 0 |} (tree_links s')
       /\ In {| cl_from := k; cl_output := "Mist";
                cl_to := k + 2; cl_input := 0 |} (tree_links s').
Proof.
  cbv zeta.
  assert (H1 : skipped None camera_1 = false) by (vm_compute; reflexivity).
  assert (H2 : process_camera None sample_relpath sample_view_name "room" 250
      camera_1
                 (sample_scene [ sample_layer "main"; sample_layer "fog" ])
               = Done tt
                   (final_state
                      (process_camera None sample_relpath
                         sample_view_name "room" 250
                         camera_1
                         (sample_scene
                            [ sample_layer "main"; sample_layer "fog" ]))))
    by (vm_compute; reflexivity).
  assert (H3 : nth_error
                 (view_layers
                    (final_state
                       (process_camera None sample_relpath
                          sample_view_name "room" 250
                          camera_1
                          (sample_scene
                             [ sample_layer "main"; sample_layer "fog" ]))))
                 1
               = Some (layer_set_passes (sample_layer "fog")))
    by (vm_compute; reflexivity).
  assert (H4 : layer_use (layer_set_passes (sample_layer "fog")) = true)
    by reflexivity.
  split; [ exact H1 | ]. split; [ exact H2 | ].
  split; [ exact H3 | ]. split; [ exact H4 | ].
  pose proof (output_file_paths None sample_relpath sample_view_name "room" 250
      camera_1 _ _
           H1 H2 1%nat _ H3 H4) as H.
  exact H.
Defined.

Lemma skipped_cameras_never_active_witness :
  exists new,
    trace
      (file_scene
         (final_state
            (render_scene sample_scene_name sample_layer_name
               sample_default_nodes sample_default_links None sample_relpath
               sample_view_name "room" "/art/room.blend"
               [ camera_0; camera_noimp; camera_1 ]
               (sample_file [ sample_layer "ViewLayer" ]))))
    = trace (file_scene (sample_file [ sample_layer "ViewLayer" ])) ++ new
    /\ forall e, In e new -> event_camera e <> Some camera_noimp.
Proof.
  apply (skipped_cameras_never_active sample_scene_name sample_layer_name
           sample_default_nodes sample_default_links None sample_relpath
           sample_view_name "room" "/art/room.blend"
           [ camera_0; camera_noimp; camera_1 ]
           (sample_file [ sample_layer "ViewLayer" ]) camera_noimp).
  left. reflexivity.
Defined.

(** The counterexample to C10 as it is worded: the first collection of
    [camera_elsewhere] is in the hierarchy of no view layer, so that
    [find_layer_collection] returns [None], and yet the driver raises
    nothing, because the only view layer is named ["_draft"]. *)
Lemma underscore_layer_counterexample :
  let s := sample_scene [ sample_layer "_draft" ] in
  skipped None camera_elsewhere = false
  /\ (forall layer,
        In layer (view_layers s) ->
        find_layer_collection (layer_collection layer) "Other Scene" = None)
  /\ raised
       (camera_loop None sample_relpath sample_view_name "room" 250
           [ camera_elsewhere ] s)
     = None
  /\ trace
       (final_state
          (camera_loop None sample_relpath sample_view_name "room" 250
              [ camera_elsewhere ]
             s))
     = [ SetCamera camera_elsewhere;
         Render false (Some camera_elsewhere) SAMPLES [] ].
Proof.
  cbv zeta. split; [ reflexivity | ]. split.
  - intros layer [ <- | [] ]. reflexivity.
  - split; vm_compute; reflexivity.
Qed.

Lemma unguarded_collection_lookup_witness :
  let s := sample_scene [ sample_layer "main" ] in
  let d := sample_scene [ sample_layer "_draft" ] in
  (exists t,
     process_camera None sample_relpath sample_view_name "room" 250
       camera_unlinked s
     = Raised (IndexError "tuple index out of range") t)
  /\ (exists t,
        process_camera None sample_relpath sample_view_name "room" 250
          camera_elsewhere s
        = Raised (AttributeError
                    "'NoneType' object has no attribute 'exclude'") t)
  /\ (exists e t,
        camera_loop None sample_relpath sample_view_name "room" 250
          [ camera_0; camera_elsewhere; camera_1 ] s
        = Raised e t)
  /\ process_layer sample_relpath "room" camera_elsewhere
       (camera_name_of camera_elsewhere) 0 d
     = Done tt
         (with_layers (update_nth 0 (layer_set_use false) (view_layers d)) d)
  /\ exists s',
       process_camera None sample_relpath sample_view_name "room" 250
         camera_elsewhere d
       = Done tt s'
       /\ forall (i : nat) (layer : ViewLayer),
            nth_error (view_layers d) i = Some layer ->
            startswith "_" (layer_name layer) = true ->
            exists layer',
              nth_error (view_layers s') i = Some layer'
              /\ layer_name layer' = layer_name layer
              /\ layer_use layer' = false.
Proof.
  cbv zeta.
  pose proof (unguarded_collection_lookup None sample_relpath
                sample_view_name "room" 250 [ camera_unlinked ]
                (sample_scene [ sample_layer "main" ]) camera_unlinked
                (or_introl eq_refl) eq_refl ltac:(discriminate) eq_refl)
    as (H1 & _).
  pose proof (unguarded_collection_lookup None sample_relpath
                sample_view_name "room" 250
                [ camera_0; camera_elsewhere; camera_1 ]
                (sample_scene [ sample_layer "main" ]) camera_elsewhere
                (or_intror (or_introl eq_refl)) eq_refl ltac:(discriminate)
                eq_refl)
    as (_ & H2 & _).
  pose proof (unguarded_collection_lookup None sample_relpath
                sample_view_name "room" 250 [ camera_elsewhere ]
                (sample_scene [ sample_layer "_draft" ]) camera_elsewhere
                (or_introl eq_refl) eq_refl ltac:(discriminate) eq_refl)
    as (_ & _ & H3 & H4).
  specialize (H2 "Other Scene"%string [] (sample_layer "main") eq_refl
                (or_introl eq_refl) eq_refl eq_refl).
  split; [ exact (proj1 (H1 eq_refl)) | ].
  split; [ exact (proj1 H2) | ]. split; [ exact (proj2 H2) | ].
  split.
  - exact (H3 "Other Scene"%string [] 0%nat (sample_layer "_draft")
             (sample_scene [ sample_layer "_draft" ]) eq_refl eq_refl
             eq_refl).
  - apply (H4 "Other Scene"%string []); [ reflexivity | ].
    intros layer [ <- | [] ]. left. reflexivity.
Defined.

(* ================================================================== *)
(** * Part XII. More on the render driver *)
(* ================================================================== *)

Lemma find_app {A} (p : A -> bool) (l r : list A) :
  find p (l ++ r)
  = match find p l with
    | Some x => Some x
    | None => find p r
    end.
Proof.
  induction l as [ | x l IH ]; cbn; [ reflexivity | ].
  destruct (p x); [ reflexivity | exact IH ].
Qed.

(** X1. [find_layer_collection] (lines 51-60) is a search in pre-order:
    it returns the first layer collection that wraps [collection] when
    the hierarchy is listed parents first and children in their order,
    and [None] when no layer collection of the hierarchy wraps it. *)
Theorem find_layer_collection_preorder (lc : LayerCollection)
    (collection : string) :
  find_layer_collection lc collection
  = find (fun r => String.eqb (lc_collection r) collection)
      (lc_subtrees lc).
Proof.
  revert lc. fix IH 1. intros [ c0 e children ].
  cbn [find_layer_collection lc_subtrees find lc_collection].
  destruct (String.eqb c0 collection); [ reflexivity | ].
  induction children as [ | child rest IHr ]; [ reflexivity | ].
  cbn [flat_map]. rewrite find_app, <- IH.
  destruct (find_layer_collection child collection);
    [ reflexivity | exact IHr ].
Qed.

(** X6. The whole script, when it completes: the cameras that pass the
    filters of lines 67 and 72 are handled in the order of
    [bpy.data.objects], each one once; for each the script makes the
    camera the active one and then calls the renderer once, with the
    sample count of lines 76-79, as an animation exactly when
    [1 < frame_end < 250], where [frame_end] is the camera's custom
    property or, without one, the value the scene had when the script
    started (line 48), whatever the cameras before have set.  Nothing
    else is rendered. *)
Theorem render_scene_trace (given_scene_name : string -> string -> string)
    (given_layer_name : string -> list string -> string)
    (default_nodes : list CompNode) (default_links : list CompLink)
    (env_CAMERAS : option string) (relpath : string -> string)
    (new_view_name : string -> list string -> string)
    (display_name filepath : string)
    (objects : list SceneObject) (f f' : BlendFile) :
  render_scene given_scene_name given_layer_name default_nodes
    default_links env_CAMERAS relpath new_view_name display_name filepath
    objects f
  = Done tt f' ->
  exists new,
    trace (file_scene f') = trace (file_scene f) ++ new
    /\ map event_summary new
       = flat_map
           (fun camera =>
              [ (Some camera, None);
                (Some camera,
                 Some (is_animation
                         (camera_frame_end (frame_end (file_scene f))
                            camera),
                       selected_samples camera)) ])
           (filter (fun c => negb (skipped env_CAMERAS c)) objects).
Proof.
  intros Hrun.
  destruct (render_scene_done _ _ _ _ _ _ _ _ _ _ _ _ Hrun)
    as (f1 & Hprep & Hloop & _).
  pose proof (prepare_scene_keeps given_scene_name given_layer_name
                default_nodes default_links
                (script_name display_name filepath) f) as Hkeep.
  cbv zeta in Hkeep. rewrite Hprep in Hkeep. cbn [final_state] in Hkeep.
  destruct Hkeep as (_ & _ & _ & Hfe & _ & Htrace).
  unfold camera_loop in Hloop.
  destruct (camera_loop_done_trace _ _ _ _ _ _ _ _ Hloop)
    as (new & Hnew & Hsum).
  exists new. rewrite Hnew, Htrace. split; [ reflexivity | ].
  rewrite Hsum, cameras_filter, Hfe. reflexivity.
Qed.

(** ** The extra properties on the sample file *)

Lemma views_after_pass_witness :
  let s := sample_scene [ sample_layer "main" ] in
  let lonely :=
    with_views [ {| view_name := "foo"; view_use := true |} ] s in
  render_views
    (final_state
       (process_camera None sample_relpath sample_view_name "room" 250
          camera_1 s))
  = [ {| view_name := "left"; view_use := false |};
      {| view_name := "right"; view_use := false |};
      {| view_name := "1"; view_use := true |} ]
  /\ exists msg,
       raised
         (process_camera None sample_relpath sample_view_name "room" 250
            camera_1 lonely)
       = Some (RuntimeError msg).
Proof.
  cbv zeta.
  pose proof (views_after_pass None sample_relpath sample_view_name "room"
                250 camera_1 (sample_scene [ sample_layer "main" ]) eq_refl)
    as H1.
  pose proof (views_after_pass None sample_relpath sample_view_name "room"
                250 camera_1
                (with_views [ {| view_name := "foo"; view_use := true |} ]
                   (sample_scene [ sample_layer "main" ])) eq_refl)
    as H2.
  cbv zeta in H1, H2.
  destruct H1 as (H1 & _). destruct H2 as (_ & _ & H2).
  split.
  - exact (H1 (or_intror eq_refl)).
  - exact (proj1 (H2 _ _ eq_refl eq_refl)).
Defined.

Lemma layers_after_pass_witness :
  let s := sample_scene [ sample_layer "main"; sample_layer "_draft" ] in
  let s' :=
    final_state (process_camera None sample_relpath sample_view_name "room" 250
        camera_1 s) in
  skipped None camera_1 = false
  /\ process_camera None sample_relpath sample_view_name "room" 250
      camera_1 s = Done tt s'
  /\ view_layers s' = map (layer_after "Cameras") (view_layers s).
Proof.
  cbv zeta.
  assert (H1 : skipped None camera_1 = false) by (vm_compute; reflexivity).
  assert (H2 : so_users_collection camera_1 = [ "Cameras"%string ])
    by reflexivity.
  assert (H3 : process_camera None sample_relpath sample_view_name "room" 250
      camera_1
                 (sample_scene [ sample_layer "main"; sample_layer "_draft" ])
               = Done tt
                   (final_state
                      (process_camera None sample_relpath
                         sample_view_name "room" 250
                         camera_1
                         (sample_scene
                            [ sample_layer "main"; sample_layer "_draft" ]))))
    by (vm_compute; reflexivity).
  split; [ exact H1 | ]. split; [ exact H3 | ].
  exact (proj1 (layers_after_pass None sample_relpath
                  sample_view_name "room" 250 camera_1
                  _ _ _ _ H1 H2 H3)).
Defined.

Lemma tree_after_pass_witness :
  let s := sample_scene [ sample_layer "main"; sample_layer "fog" ] in
  let s' :=
    final_state (process_camera None sample_relpath sample_view_name "room" 250
        camera_1 s) in
  skipped None camera_1 = false
  /\ process_camera None sample_relpath sample_view_name "room" 250
      camera_1 s = Done tt s'
  /\ tree_nodes s'
     = loop_nodes sample_relpath "room" "1" "Cameras" 0 (view_layers s)
  /\ tree_links s' = loop_links "Cameras" 0 (view_layers s)
  /\ List.length (tree_nodes s')
     = (3 * List.length
              (filter (layer_is_enabled "Cameras") (view_layers s)))%nat.
Proof.
  cbv zeta.
  assert (H1 : skipped None camera_1 = false) by (vm_compute; reflexivity).
  assert (H2 : so_users_collection camera_1 = [ "Cameras"%string ])
    by reflexivity.
  assert (H3 : process_camera None sample_relpath sample_view_name "room" 250
      camera_1
                 (sample_scene [ sample_layer "main"; sample_layer "fog" ])
               = Done tt
                   (final_state
                      (process_camera None sample_relpath
                         sample_view_name "room" 250
                         camera_1
                         (sample_scene
                            [ sample_layer "main"; sample_layer "fog" ]))))
    by (vm_compute; reflexivity).
  split; [ exact H1 | ]. split; [ exact H3 | ].
  exact (tree_after_pass None sample_relpath sample_view_name "room" 250
      camera_1
           _ _ _ _ H1 H2 H3).
Defined.

Lemma pass_completes_iff_witness :
  raised
    (process_camera None sample_relpath sample_view_name "room" 250
       camera_elsewhere
       (sample_scene [ sample_layer "_draft"; sample_layer "main" ]))
  = None
  <-> pass_completes camera_elsewhere
        (sample_scene [ sample_layer "_draft"; sample_layer "main" ])
      = true.
Proof.
  apply (pass_completes_iff None sample_relpath sample_view_name "room" 250
           camera_elsewhere
           (sample_scene [ sample_layer "_draft"; sample_layer "main" ])).
  reflexivity.
Defined.

Lemma render_scene_trace_witness :
  let objects := [ camera_0; camera_noimp; camera_1 ] in
  let f := sample_file [ sample_layer "ViewLayer" ] in
  let f' :=
    final_state
      (render_scene sample_scene_name sample_layer_name sample_default_nodes
         sample_default_links None sample_relpath sample_view_name "room"
         "/art/room.blend" objects f) in
  render_scene sample_scene_name sample_layer_name sample_default_nodes
    sample_default_links None sample_relpath sample_view_name "room"
    "/art/room.blend" objects f
  = Done tt f'
  /\ exists new,
       trace (file_scene f') = trace (file_scene f) ++ new
       /\ map event_summary new
          = [ (Some camera_0, None); (Some camera_0, Some (false, 4));
              (Some camera_1, None); (Some camera_1, Some (false, 4096)) ].
Proof.
  cbv zeta.
  assert (H : render_scene sample_scene_name sample_layer_name
                sample_default_nodes sample_default_links None
                sample_relpath sample_view_name "room" "/art/room.blend"
                [ camera_0; camera_noimp; camera_1 ]
                (sample_file [ sample_layer "ViewLayer" ])
              = Done tt
                  (final_state
                     (render_scene sample_scene_name sample_layer_name
                        sample_default_nodes sample_default_links None
                        sample_relpath sample_view_name "room"
                        "/art/room.blend"
                        [ camera_0; camera_noimp; camera_1 ]
                        (sample_file [ sample_layer "ViewLayer" ]))))
    by (vm_compute; reflexivity).
  split; [ exact H | ].
  exact (render_scene_trace sample_scene_name sample_layer_name
           sample_default_nodes sample_default_links None sample_relpath
           sample_view_name "room" "/art/room.blend" _ _ _ H).
Defined.

(** X24. The script restores nothing.  When it completes, the scene
    bears the name the host gave it when line 16 asked for the name of
    lines 10-13, it uses nodes and has a compositor node tree, and it is
    left on the last camera that passes the filters: that camera is the
    active one, the sample count is that camera's, and [frame_end] is the
    camera's property, or without one the value the scene had when the
    script started, as the host clamps it to [0 .. 1048574].  With no
    such camera the sample count, the active camera, [frame_end] and the
    views are as they were, the compositor nodes and links are as they
    were in a scene that had a node tree and are the host's default ones
    in a scene that had none, and nothing is rendered. *)
Theorem render_scene_leaves (given_scene_name : string -> string -> string)
    (given_layer_name : string -> list string -> string)
    (default_nodes : list CompNode) (default_links : list CompLink)
    (env_CAMERAS : option string) (relpath : string -> string)
    (new_view_name : string -> list string -> string)
    (display_name filepath : string)
    (objects : list SceneObject) (f f' : BlendFile) :
  render_scene given_scene_name given_layer_name default_nodes
    default_links env_CAMERAS relpath new_view_name display_name filepath
    objects f
  = Done tt f' ->
  let s := file_scene f in
  let s' := file_scene f' in
  scene_name s'
  = given_scene_name (scene_name s) (script_name display_name filepath)
  /\ scene_use_nodes f' = true
  /\ scene_has_tree f' = true
  /\ match
       last_camera (filter (fun c => negb (skipped env_CAMERAS c)) objects)
     with
     | Some c =>
         cycles_samples s' = selected_samples c
         /\ scene_camera s' = Some c
         /\ frame_end s'
            = Z.max 0 (Z.min (camera_frame_end (frame_end s) c) 1048574)
     | None =>
         cycles_samples s' = cycles_samples s
         /\ scene_camera s' = scene_camera s
         /\ frame_end s' = frame_end s
         /\ render_views s' = render_views s
         /\ tree_nodes s'
            = (if scene_has_tree f then tree_nodes s else default_nodes)
         /\ tree_links s'
            = (if scene_has_tree f then tree_links s else default_links)
         /\ trace s' = trace s
     end.
Proof.
  intros Hrun. cbv zeta.
  destruct (render_scene_done _ _ _ _ _ _ _ _ _ _ _ _ Hrun)
    as (f1 & Hprep & Hloop & Hf').
  pose proof (prepare_scene_keeps given_scene_name given_layer_name
                default_nodes default_links
                (script_name display_name filepath) f) as Hkeep.
  cbv zeta in Hkeep. rewrite Hprep in Hkeep. cbn [final_state] in Hkeep.
  destruct Hkeep as (Hname & Hsamples & Hcam & Hfe & Hviews & Htrace).
  destruct (prepare_scene_done _ _ _ _ _ _ _ Hprep)
    as (Htree & Huse & Hnodes & Hlinks).
  unfold camera_loop in Hloop.
  pose proof (camera_loop_done_state _ _ _ _ _ _ _ _ Hloop) as Hstate.
  rewrite cameras_filter in Hstate.
  assert (Hflags : scene_use_nodes f' = true /\ scene_has_tree f' = true).
  { rewrite Hf'. cbn [scene_use_nodes scene_has_tree with_scene]. auto. }
  destruct Hflags as (Huse' & Htree').
  destruct (last_camera _) as [ c | ].
  - destruct Hstate as (Hn & Hs & Hc & Hf).
    rewrite Hn, Hname, Hs, Hc, Hf, Hfe. repeat split; assumption.
  - rewrite Hstate, Hname. repeat split; assumption.
Qed.

Lemma render_scene_leaves_witness :
  let objects := [ camera_0; camera_1; camera_noimp ] in
  let f := sample_file [ sample_layer "ViewLayer" ] in
  let f' :=
    final_state
      (render_scene sample_scene_name sample_layer_name sample_default_nodes
         sample_default_links None sample_relpath sample_view_name "room"
         "/art/puzzles/room.blend" objects f) in
  render_scene sample_scene_name sample_layer_name sample_default_nodes
    sample_default_links None sample_relpath sample_view_name "room"
    "/art/puzzles/room.blend" objects f
  = Done tt f'
  /\ scene_name (file_scene f') = "puzzles/room"%string
  /\ scene_use_nodes f' = true
  /\ scene_has_tree f' = true
  /\ cycles_samples (file_scene f') = 4096
  /\ scene_camera (file_scene f') = Some camera_1
  /\ frame_end (file_scene f') = 250.
Proof.
  cbv zeta.
  assert (H : render_scene sample_scene_name sample_layer_name
                sample_default_nodes sample_default_links None
                sample_relpath sample_view_name "room"
                "/art/puzzles/room.blend"
                [ camera_0; camera_1; camera_noimp ]
                (sample_file [ sample_layer "ViewLayer" ])
              = Done tt
                  (final_state
                     (render_scene sample_scene_name sample_layer_name
                        sample_default_nodes sample_default_links None
                        sample_relpath sample_view_name "room"
                        "/art/puzzles/room.blend"
                        [ camera_0; camera_1; camera_noimp ]
                        (sample_file [ sample_layer "ViewLayer" ]))))
    by (vm_compute; reflexivity).
  split; [ exact H | ].
  exact (render_scene_leaves sample_scene_name sample_layer_name
           sample_default_nodes sample_default_links None sample_relpath
           sample_view_name "room" "/art/puzzles/room.blend" _ _ _ H).
Defined.

(* ================================================================== *)
(** * Part XIII. More on the tunnel generator *)
(* ================================================================== *)

(** ** The segment template as a surface *)

Section SegmentSurface.

Variables math_cos math_sin : Q -> Q.
Variable cfg : Settings.

(** The faces of the template: the four side quads of every step, and
    the two end caps. *)
Lemma face_in_mesh (name : string) (angle_deg : Q) (m : SegmentMesh)
    (f : Face) :
  make_segment_mesh math_cos math_sin cfg name angle_deg = Some m ->
  In f (seg_faces m)
  <-> (exists i, 0 <= i < seg_steps m /\ In f (ring_faces i))
      \/ f = (0, 2, 3, 1)
      \/ f = (seg_steps m * 4, seg_steps m * 4 + 1, seg_steps m * 4 + 3,
              seg_steps m * 4 + 2).
Proof.
  intros H.
  destruct (make_segment_mesh_run math_cos math_sin cfg name angle_deg m H)
    as (steps & _ & _ & -> & _ & ->).
  rewrite !in_app_iff, in_fold_append. cbn [In].
  split.
  - intros [ [ [ [] | (i & Hi & Hf) ] | [ <- | [] ] ] | [ <- | [] ] ];
      auto.
    left. exists i. split; [ now apply in_pyrange | exact Hf ].
  - intros [ (i & Hi & Hf) | [ -> | -> ] ]; auto.
    left. left. right. exists i. split; [ now apply in_pyrange | exact Hf ].
Qed.

Ltac pick :=
  cbn [In face_edges ring_faces];
  first
    [ left; repeat (f_equal; try lia); fail
    | right; left; repeat (f_equal; try lia); fail
    | right; right; left; repeat (f_equal; try lia); fail
    | right; right; right; left; repeat (f_equal; try lia); fail ].

(** X7. The faces of a segment template (lines 141-151), for every
    call of [make_segment_mesh] that returns: there are [4 * steps + 2]
    of them, every corner of every face is the index of a vertex of the
    template, and the four corners of a face are four different
    vertices. *)
Theorem segment_faces_well_formed (name : string) (angle_deg : Q)
    (m : SegmentMesh) :
  make_segment_mesh math_cos math_sin cfg name angle_deg = Some m ->
  Z.of_nat (List.length (seg_faces m)) = 4 * seg_steps m + 2
  /\ forall f,
       In f (seg_faces m) ->
       (forall k, In k (face_corners f) ->
                  0 <= k < Z.of_nat (List.length (seg_verts m)))
       /\ NoDup (face_corners f).
Proof.
  intros Hm.
  split;
    [ exact (make_segment_mesh_faces math_cos math_sin cfg name angle_deg m
               Hm) | ].
  intros f Hf.
  rewrite (seg_verts_length math_cos math_sin cfg name angle_deg m Hm).
  apply (face_in_mesh name angle_deg m f Hm) in Hf.
  destruct (make_segment_mesh_run math_cos math_sin cfg name angle_deg m Hm)
    as (steps & _ & Hmin & Hsteps & _).
  rewrite Hsteps in *. clear Hsteps Hm.
  assert (Hnodup : forall a b c d : Z,
             a <> b -> a <> c -> a <> d -> b <> c -> b <> d -> c <> d ->
             NoDup [ a; b; c; d ]).
  { intros a b c d Hab Hac Had Hbc Hbd Hcd.
    repeat constructor; cbn [In]; intuition congruence. }
  destruct Hf as [ (i & Hi & Hf) | [ -> | -> ] ].
  - unfold ring_faces in Hf. cbn [In] in Hf.
    destruct Hf as [ <- | [ <- | [ <- | [ <- | [] ] ] ] ];
      cbn [face_corners In];
      (split; [ intros k Hk; lia | apply Hnodup; lia ]).
  - cbn [face_corners In]. split; [ intros k Hk; lia | apply Hnodup; lia ].
  - cbn [face_corners In]. split; [ intros k Hk; lia | apply Hnodup; lia ].
Qed.

(** X8. The template is a closed surface with one orientation (lines
    141-151), for every call of [make_segment_mesh] that returns: every
    side of every face, read from a corner to the next, is also a side of
    a face of the template read the other way round.  No side is left
    open, at the two ends of the arc included, where the caps close
    it. *)
Theorem segment_surface_closed (name : string) (angle_deg : Q)
    (m : SegmentMesh) :
  make_segment_mesh math_cos math_sin cfg name angle_deg = Some m ->
  forall f a b,
    In f (seg_faces m) ->
    In (a, b) (face_edges f) ->
    exists f', In f' (seg_faces m) /\ In (b, a) (face_edges f').
Proof.
  intros Hm f a b Hf He.
  pose proof (fun f => face_in_mesh name angle_deg m f Hm) as Hmesh.
  apply Hmesh in Hf.
  destruct (make_segment_mesh_run math_cos math_sin cfg name angle_deg m Hm)
    as (steps & _ & Hmin & Hsteps & _).
  rewrite Hsteps in *. clear Hsteps Hm.
  (* the faces a side can be shared with *)
  assert (Hstep : forall j f', 0 <= j < steps -> In f' (ring_faces j) ->
                               In f' (seg_faces m)).
  { intros j f' Hj Hin. apply Hmesh. left. exists j. auto. }
  assert (Hcap0 : In (0, 2, 3, 1) (seg_faces m)).
  { apply Hmesh. right. left. reflexivity. }
  assert (Hcap1 : In (steps * 4, steps * 4 + 1, steps * 4 + 3, steps * 4 + 2)
                    (seg_faces m)).
  { apply Hmesh. right. right. reflexivity. }
  clear Hmesh.
  assert (Hside : forall j k f',
             0 <= j < steps -> nth_error (ring_faces j) k = Some f' ->
             In (b, a) (face_edges f') ->
             exists f', In f' (seg_faces m) /\ In (b, a) (face_edges f')).
  { intros j k f' Hj Hk Hin. exists f'. split; [ | exact Hin ].
    apply (Hstep j); [ exact Hj | ]. now apply nth_error_In in Hk. }
  destruct Hf as [ (i & Hi & Hf) | [ -> | -> ] ].
  - unfold ring_faces in Hf. cbn [In] in Hf.
    destruct (Z.eq_dec i 0) as [ H0 | H0 ];
      destruct (Z.eq_dec (i + 1) steps) as [ H1 | H1 ];
      destruct Hf as [ <- | [ <- | [ <- | [ <- | [] ] ] ] ];
      cbn [face_edges In] in He;
      destruct He as [ He | [ He | [ He | [ He | [] ] ] ] ];
      injection He as <- <-;
      first
        [ (exists (0, 2, 3, 1)); split; [ exact Hcap0 | pick ]
        | (exists (steps * 4, steps * 4 + 1, steps * 4 + 3, steps * 4 + 2));
          split; [ exact Hcap1 | pick ]
        | apply (Hside i 0%nat _ Hi eq_refl); pick
        | apply (Hside i 1%nat _ Hi eq_refl); pick
        | apply (Hside i 2%nat _ Hi eq_refl); pick
        | apply (Hside i 3%nat _ Hi eq_refl); pick
        | apply (Hside (i - 1) 0%nat _ ltac:(lia) eq_refl); pick
        | apply (Hside (i - 1) 1%nat _ ltac:(lia) eq_refl); pick
        | apply (Hside (i - 1) 2%nat _ ltac:(lia) eq_refl); pick
        | apply (Hside (i - 1) 3%nat _ ltac:(lia) eq_refl); pick
        | apply (Hside (i + 1) 0%nat _ ltac:(lia) eq_refl); pick
        | apply (Hside (i + 1) 1%nat _ ltac:(lia) eq_refl); pick
        | apply (Hside (i + 1) 2%nat _ ltac:(lia) eq_refl); pick
        | apply (Hside (i + 1) 3%nat _ ltac:(lia) eq_refl); pick ].
  - cbn [face_edges In] in He.
    destruct He as [ He | [ He | [ He | [ He | [] ] ] ] ];
      injection He as <- <-;
      first
        [ apply (Hside 0 0%nat _ ltac:(lia) eq_refl); pick
        | apply (Hside 0 1%nat _ ltac:(lia) eq_refl); pick
        | apply (Hside 0 2%nat _ ltac:(lia) eq_refl); pick
        | apply (Hside 0 3%nat _ ltac:(lia) eq_refl); pick ].
  - cbn [face_edges In] in He.
    destruct He as [ He | [ He | [ He | [ He | [] ] ] ] ];
      injection He as <- <-;
      first
        [ apply (Hside (steps - 1) 0%nat _ ltac:(lia) eq_refl); pick
        | apply (Hside (steps - 1) 1%nat _ ltac:(lia) eq_refl); pick
        | apply (Hside (steps - 1) 2%nat _ ltac:(lia) eq_refl); pick
        | apply (Hside (steps - 1) 3%nat _ ltac:(lia) eq_refl); pick ].
Qed.

End SegmentSurface.

(** X9. The vertices of a segment template (lines 123-139), when [cos]
    and [sin] are a cosine and a sine ([cos^2 + sin^2 = 1]): every vertex
    lies on one of the two end planes of the ring, [y = -ring_length / 2]
    or [y = ring_length / 2], and on the inner or on the outer face of
    the lining, at the distance [inner_radius] or
    [inner_radius + thickness] from the tunnel axis. *)
Theorem segment_vertices_on_lining (math_cos math_sin : Q -> Q)
    (cfg : Settings) (name : string) (angle_deg : Q) (m : SegmentMesh) :
  (forall t, (math_cos t * math_cos t + math_sin t * math_sin t == 1)%Q) ->
  make_segment_mesh math_cos math_sin cfg name angle_deg = Some m ->
  forall v,
    In v (seg_verts m) ->
    ((vert_y v == - (ring_length cfg / 2))%Q
     \/ (vert_y v == ring_length cfg / 2)%Q)
    /\ ((radius_sq v == inner_radius cfg * inner_radius cfg)%Q
        \/ (radius_sq v
            == (inner_radius cfg + thickness cfg)
               * (inner_radius cfg + thickness cfg))%Q).
Proof.
  intros Hcs Hm v Hv.
  destruct (make_segment_mesh_run math_cos math_sin cfg name angle_deg m Hm)
    as (steps & _ & _ & _ & Hverts & _).
  rewrite Hverts in Hv.
  apply in_fold_append in Hv as [ [] | (i & _ & Hv) ].
  unfold ring_verts in Hv. cbv zeta in Hv.
  match type of Hv with
  | context [ math_cos ?t ] =>
      pose proof (Hcs t) as Ht; set (c := math_cos t) in *;
      set (s := math_sin t) in *
  end.
  assert (Hr : forall r : Q, (r * c * (r * c) + r * s * (r * s) == r * r)%Q).
  { intros r.
    transitivity (r * r * (c * c + s * s))%Q; [ ring | ].
    rewrite Ht. ring. }
  cbn [In] in Hv.
  destruct Hv as [ <- | [ <- | [ <- | [ <- | [] ] ] ] ];
    cbn [vert_y radius_sq]; split;
    first [ left; field | right; field | left; apply Hr | right; apply Hr ].
Qed.

Lemma segment_vertices_on_lining_witness :
  let v := (2.45 * 1, - 1.5 / 2, 2.45 * 0)%Q in
  ((vert_y v == - (ring_length user_settings / 2))%Q
   \/ (vert_y v == ring_length user_settings / 2)%Q)
  /\ ((radius_sq v
       == inner_radius user_settings * inner_radius user_settings)%Q
      \/ (radius_sq v
          == (inner_radius user_settings + thickness user_settings)
             * (inner_radius user_settings + thickness user_settings))%Q).
Proof.
  cbv zeta.
  apply (segment_vertices_on_lining (fun _ => 1%Q) (fun _ => 0%Q)
           user_settings "Segment (Regular)" (3600 # 56) sample_segment).
  - intros t. reflexivity.
  - vm_compute. reflexivity.
  - vm_compute. left. reflexivity.
Defined.

Lemma segment_faces_well_formed_witness :
  Z.of_nat (List.length (seg_faces sample_segment))
  = 4 * seg_steps sample_segment + 2
  /\ forall f,
       In f (seg_faces sample_segment) ->
       (forall k, In k (face_corners f) ->
                  0 <= k < Z.of_nat (List.length (seg_verts sample_segment)))
       /\ NoDup (face_corners f).
Proof.
  apply (segment_faces_well_formed (fun _ => 1%Q) (fun _ => 0%Q)
           user_settings "Segment (Regular)" (3600 # 56) sample_segment).
  vm_compute. reflexivity.
Defined.

Lemma segment_surface_closed_witness :
  exists f',
    In f' (seg_faces sample_segment) /\ In (4, 0) (face_edges f').
Proof.
  apply (segment_surface_closed (fun _ => 1%Q) (fun _ => 0%Q) user_settings
           "Segment (Regular)" (3600 # 56) sample_segment
           ltac:(vm_compute; reflexivity) (0, 4, 6, 2) 0 4).
  - vm_compute. left. reflexivity.
  - vm_compute. left. reflexivity.
Defined.

(** ** The ring of segments *)

(** X10. For every [regular_count >= 1] and [key_angle_factor > 0], the
    node group places [regular_count] regular instances, the one of index
    [i] rotated by [(i + 0.5) * regular_angle], and one key instance;
    their arcs tile the circle: the first regular arc starts at [0], each
    regular arc ends where the next starts, the key arc starts where the
    last regular arc ends, and it ends at [radians(360)]. *)
Theorem ring_closes (host_identifier : nat -> string) (cfg : Settings) :
  1 <= regular_count cfg ->
  (0 < key_angle_factor cfg)%Q ->
  exists (ra ka : Q) (vars : GraphVars) (g : NodeTree) (key_rot : Q),
    regular_angle_deg cfg = Some ra /\
    key_angle_deg cfg = Some ka /\
    tunnel_node_group host_identifier cfg = Some (vars, g) /\
    let regular_angle := math_radians ra in
    let key_angle := math_radians ka in
    instance_rotations g (v_inst_reg vars)
    = Some (map (regular_rotation regular_angle)
              (pyrange (regular_count cfg))) /\
    instance_rotations g (v_inst_key vars) = Some [ key_rot ] /\
    (arc_start (regular_rotation regular_angle 0) regular_angle == 0)%Q /\
    (forall i : Z,
       (arc_end (regular_rotation regular_angle i) regular_angle
        == arc_start (regular_rotation regular_angle (i + 1))
             regular_angle)%Q) /\
    (arc_start key_rot key_angle
     == arc_end (regular_rotation regular_angle (regular_count cfg - 1))
          regular_angle)%Q /\
    (arc_end key_rot key_angle == math_radians 360)%Q.
Proof.
  intros Hc Hk.
  destruct (derived_angles_pos cfg Hc Hk)
    as (ra & ka & Hra & Hka & _ & _ & _).
  destruct (tunnel_node_group_rotations host_identifier cfg ra ka Hra Hka)
    as (vars & g & Hg & Hreg & Hkey).
  exists ra, ka, vars, g, (key_rot_angle cfg ra ka).
  split; [ exact Hra | ]. split; [ exact Hka | ]. split; [ exact Hg | ].
  cbv zeta.
  split; [ exact Hreg | ]. split; [ exact Hkey | ].
  split; [ unfold arc_start, regular_rotation; field | ].
  split; [ apply regular_arcs_abut | ].
  split.
  - unfold arc_start, arc_end, regular_rotation, key_rot_angle.
    unfold Zminus. rewrite inject_Z_plus.
    unfold math_radians. change (inject_Z (- (1))) with (- (1))%Q. field.
  - exact (key_arc_closes_ring cfg ra ka Hc Hk Hra Hka).
Qed.

Lemma ring_closes_witness :
  exists (ra ka : Q) (vars : GraphVars) (g : NodeTree) (key_rot : Q),
    regular_angle_deg user_settings = Some ra /\
    key_angle_deg user_settings = Some ka /\
    tunnel_node_group (fun _ => "Socket"%string) user_settings
    = Some (vars, g) /\
    let regular_angle := math_radians ra in
    let key_angle := math_radians ka in
    instance_rotations g (v_inst_reg vars)
    = Some (map (regular_rotation regular_angle)
              (pyrange (regular_count user_settings))) /\
    instance_rotations g (v_inst_key vars) = Some [ key_rot ] /\
    (arc_start (regular_rotation regular_angle 0) regular_angle == 0)%Q /\
    (forall i : Z,
       (arc_end (regular_rotation regular_angle i) regular_angle
        == arc_start (regular_rotation regular_angle (i + 1))
             regular_angle)%Q) /\
    (arc_start key_rot key_angle
     == arc_end
          (regular_rotation regular_angle (regular_count user_settings - 1))
          regular_angle)%Q /\
    (arc_end key_rot key_angle == math_radians 360)%Q.
Proof.
  apply (ring_closes (fun _ => "Socket"%string) user_settings).
  - simpl. lia.
  - reflexivity.
Defined.

(** ** What the cleanup pass leaves *)

Lemma mem_filter_names (p : string -> bool) (l : list DataObject)
    (x : string) :
  mem x (map obj_name (filter (fun o => p (obj_name o)) l))
  = mem x (map obj_name l) && p x.
Proof.
  induction l as [ | a l IH ]; [ reflexivity | ].
  cbn [filter map]. destruct (p (obj_name a)) eqn:Hp.
  - cbn [map]. rewrite !mem_cons, IH.
    destruct (String.eqb x (obj_name a)) eqn:E; [ | reflexivity ].
    apply String.eqb_eq in E. subst x. now rewrite Hp.
  - rewrite mem_cons, IH.
    destruct (String.eqb x (obj_name a)) eqn:E; [ | reflexivity ].
    apply String.eqb_eq in E. subst x. rewrite Hp.
    now rewrite !andb_false_r.
Qed.

(** The collections that stay keep their links to the objects that
    stay. *)
Lemma cleaned_collections (d : BlendData) :
  wf_data d = true ->
  collections (cleaned d)
  = map (fun c =>
           {| coll_name := coll_name c;
              coll_objects :=
                filter (fun o => mem o (map obj_name (objects (cleaned d))))
                  (coll_objects c) |})
      (filter (fun c => negb (is_kill_collection (coll_name c)))
         (collections d)).
Proof.
  intros Hwf. destruct (wf_data_spec d Hwf) as (_ & _ & Hl & _ & _).
  assert (Hobj : objects (cleaned d)
                 = filter
                     (fun o =>
                        (fun x => negb (in_kill_collection d x
                                        || name_is_killed x)) (obj_name o))
                     (objects d)).
  { rewrite cleaned_objects. reflexivity. }
  rewrite Hobj. unfold cleaned.
  cbn [collections after_node_groups after_meshes after_objects
       after_collections objects].
  rewrite map_map. apply map_ext_in. intros c Hc.
  apply filter_In in Hc as (Hc & _).
  destruct (Hl c Hc) as (_ & Hincl).
  unfold unlink_where. cbn [coll_name coll_objects]. f_equal.
  rewrite filter_filter. apply filter_ext_in. intros x Hx.
  assert (Hm : mem x (map obj_name (objects d)) = true)
    by (apply mem_In, Hincl, Hx).
  rewrite (mem_filter_names
             (fun x => negb (in_kill_collection d x || name_is_killed x))).
  rewrite (mem_filter_names
             (fun y => negb (mem y (kill_collection_objects d)))).
  rewrite Hm, mem_kill_collection_objects. cbn [andb].
  destruct (in_kill_collection d x); reflexivity.
Qed.

(** X11. What [clean_old] leaves besides the objects, on data the host
    keeps well formed: the collections other than ["TBM_Ring"] and
    ["Tunnel"], each with its links to the objects that stay and without
    its links to the objects that go; the meshes that still have a user
    once the objects are gone, so that a mesh used only by removed objects
    goes in the same pass and a mesh with a user of another kind stays;
    and the node groups other than ["TBM_TunnelAlongZ"] and
    ["TBM_TunnelProcedural"]. *)
Theorem clean_old_leaves (d : BlendData) :
  wf_data d = true ->
  exists d' : BlendData,
    clean_old d = Done tt d'
    /\ collections d'
       = map (fun c =>
                {| coll_name := coll_name c;
                   coll_objects :=
                     filter (fun o => mem o (map obj_name (objects d')))
                       (coll_objects c) |})
           (filter (fun c => negb (is_kill_collection (coll_name c)))
              (collections d))
    /\ meshes d'
       = filter (fun m => negb (Nat.eqb (mesh_users d' m) 0)) (meshes d)
    /\ node_groups d'
       = filter (fun g => negb (is_kill_node_group g)) (node_groups d).
Proof.
  intros Hwf. exists (cleaned d).
  split; [ now apply clean_old_run | ].
  split; [ now apply cleaned_collections | ].
  split; [ | reflexivity ].
  unfold cleaned.
  cbn [meshes after_node_groups after_meshes after_objects
       after_collections].
  apply filter_ext. intros m. reflexivity.
Qed.

Lemma clean_old_leaves_witness :
  exists d' : BlendData,
    clean_old sample_data = Done tt d'
    /\ collections d'
       = map (fun c =>
                {| coll_name := coll_name c;
                   coll_objects :=
                     filter (fun o => mem o (map obj_name (objects d')))
                       (coll_objects c) |})
           (filter (fun c => negb (is_kill_collection (coll_name c)))
              (collections sample_data))
    /\ meshes d'
       = filter (fun m => negb (Nat.eqb (mesh_users d' m) 0))
           (meshes sample_data)
    /\ node_groups d'
       = filter (fun g => negb (is_kill_node_group g))
           (node_groups sample_data).
Proof.
  apply (clean_old_leaves sample_data). vm_compute. reflexivity.
Defined.

(** X12. [clean_old] keeps the invariant of the host: on well-formed
    data it completes and leaves well-formed data, with names unique
    within each kind and collections that link each object once and only
    objects that exist. *)
Theorem clean_old_keeps_wf (d : BlendData) :
  wf_data d = true ->
  exists d' : BlendData, clean_old d = Done tt d' /\ wf_data d' = true.
Proof.
  intros Hwf. exists (cleaned d).
  split; [ now apply clean_old_run | ].
  pose proof (cleaned_collections d Hwf) as Hcolls.
  destruct (wf_data_spec d Hwf) as (Hc & Ho & Hl & Hm & Hg).
  unfold wf_data. rewrite !andb_true_iff, !nodupb_NoDup, forallb_forall.
  repeat apply conj.
  - rewrite Hcolls, map_map. cbn [coll_name].
    now apply NoDup_filter_names.
  - rewrite cleaned_objects. now apply NoDup_filter_names.
  - intros c' Hc'. rewrite Hcolls in Hc'.
    apply in_map_iff in Hc' as (c & <- & Hin).
    apply filter_In in Hin as (Hin & _).
    destruct (Hl c Hin) as (Hnd & _).
    cbn [coll_objects]. apply andb_true_iff. split.
    + apply nodupb_NoDup. now apply NoDup_filter.
    + apply forallb_forall. intros o Hin'.
      now apply filter_In in Hin' as (_ & Hmem).
  - unfold cleaned.
    cbn [meshes after_node_groups after_meshes after_objects
         after_collections].
    now apply NoDup_filter_names.
  - unfold cleaned.
    cbn [node_groups after_node_groups after_meshes after_objects
         after_collections].
    now apply NoDup_filter.
Qed.

Lemma clean_old_keeps_wf_witness :
  exists d' : BlendData,
    clean_old sample_data = Done tt d' /\ wf_data d' = true.
Proof.
  apply (clean_old_keeps_wf sample_data). vm_compute. reflexivity.
Defined.

(** ** The cutters *)

(** X13. The names the script gives its cutters (lines 189 and 231)
    match no entry of [kill_names], whatever the segment name and whatever
    the host appends to make the name unique: the entries ["Bolt Pocket"]
    and ["Handle Hole"] want the name to stop there or to go on with
    ["."] or ["_"], and ["(Top)"] and ["(Bottom)"] are not the tags in
    use.  So the loop of lines 76-82 never removes a cutter; the
    templates and the controller, on the other hand, are on the list. *)
Theorem cutter_names_not_killed (math_cos math_sin : Q -> Q)
    (cfg : Settings) (segment_name : string) (angle_deg : Q)
    (suffix : string) :
  Forall (fun c => name_is_killed (cutter_name c +++ suffix) = false)
    (create_bolt_cutters math_cos math_sin cfg segment_name angle_deg
     ++ create_handle_cutters math_cos math_sin cfg segment_name angle_deg)
  /\ Forall (fun n => name_is_killed n = true)
       [ "Segment (Regular)"; "Segment (Key)"; "Tunnel Controller" ]%string.
Proof.
  split.
  - unfold create_bolt_cutters, create_handle_cutters.
    cbn [fold_left app].
    repeat constructor; cbn [cutter_name]; vm_compute; reflexivity.
  - repeat constructor.
Qed.

(** X14. The bolt cutters (lines 170-202), when [cos 0 = 1] and
    [sin 0 = 0]: there are two, ["Back"] first; both are cylinders of 20
    vertices, of radius [bolt_radius] and of depth [0.95 * thickness],
    turned by [radians(90)] about Y so that their axis is the X axis;
    both sit on the centre line of the segment ([z = 0]) at
    [x = inner_radius - depth / 2], so that the cylinder reaches from
    [inner_radius - depth] to [inner_radius]; they are mirror images in
    the middle plane of the ring, at [y = -0.15 * ring_length] and
    [y = 0.15 * ring_length].  None of this depends on the angle of the
    segment. *)
Theorem bolt_cutters_placement (math_cos math_sin : Q -> Q)
    (cfg : Settings) (segment_name : string) (angle_deg : Q) :
  (math_cos 0 == 1)%Q -> (math_sin 0 == 0)%Q ->
  exists back front : Cutter,
    (forall other_angle,
       create_bolt_cutters math_cos math_sin cfg segment_name other_angle
       = [ back; front ])
    /\ let depth := (0.95 * thickness cfg)%Q in
       (forall c, In c [ back; front ] ->
          (exists d, cutter_primitive c = PrimCylinder 20 (bolt_radius cfg) d
                     /\ (d == depth)%Q
                     /\ (vert_x (cutter_location c) + d / 2
                         == inner_radius cfg)%Q
                     /\ (vert_x (cutter_location c) - d / 2
                         == inner_radius cfg - depth)%Q)
          /\ (vert_z (cutter_location c) == 0)%Q
          /\ cutter_rotation_euler c = (0, math_radians 90 + 0, 0)%Q
          /\ cutter_scale c = None)
       /\ (vert_y (cutter_location back) == - (0.15 * ring_length cfg))%Q
       /\ (vert_y (cutter_location front) == 0.15 * ring_length cfg)%Q.
Proof.
  intros Hcos Hsin.
  eexists. eexists. split.
  - intros other_angle. unfold create_bolt_cutters. cbn [fold_left app].
    reflexivity.
  - cbv zeta. split; [ | split ].
    + intros c [ <- | [ <- | [] ] ];
        cbn [cutter_primitive cutter_location cutter_rotation_euler
             cutter_scale vert_x vert_z];
        (split; [ eexists; split; [ reflexivity | ] | ]);
        rewrite ?Hcos, ?Hsin; repeat split; try field.
    + cbn [cutter_location vert_y]. field.
    + cbn [cutter_location vert_y]. field.
Qed.

Lemma bolt_cutters_placement_witness :
  exists back front : Cutter,
    (forall other_angle,
       create_bolt_cutters (fun _ => 1%Q) (fun _ => 0%Q) user_settings
         "Regular" other_angle
       = [ back; front ])
    /\ let depth := (0.95 * thickness user_settings)%Q in
       (forall c, In c [ back; front ] ->
          (exists d,
              cutter_primitive c
              = PrimCylinder 20 (bolt_radius user_settings) d
              /\ (d == depth)%Q
              /\ (vert_x (cutter_location c) + d / 2
                  == inner_radius user_settings)%Q
              /\ (vert_x (cutter_location c) - d / 2
                  == inner_radius user_settings - depth)%Q)
          /\ (vert_z (cutter_location c) == 0)%Q
          /\ cutter_rotation_euler c = (0, math_radians 90 + 0, 0)%Q
          /\ cutter_scale c = None)
       /\ (vert_y (cutter_location back)
           == - (0.15 * ring_length user_settings))%Q
       /\ (vert_y (cutter_location front)
           == 0.15 * ring_length user_settings)%Q.
Proof.
  apply (bolt_cutters_placement (fun _ => 1%Q) (fun _ => 0%Q) user_settings
           "Regular" (3600 # 56)).
  - reflexivity.
  - reflexivity.
Defined.

(** X15. The handle cutters (lines 205-245), when [cos] and [sin] are a
    cosine and a sine and the segment has a positive angle: there are
    two, ["Front"] first, both unit cubes; both sit at the angle
    [t = -0.75 * half], where [half = radians(angle_deg / 2)] is half the
    arc of the segment, so strictly between the lower edge of the arc and
    its centre line, at the distance
    [inner_radius - 0.6 * thickness * handle_depth_frac] from the tunnel
    axis; they are mirror images in the middle plane of the ring, at
    [y = 0.32 * ring_length] and [y = -0.32 * ring_length]; both are
    turned by [t + radians(handle_diagonal_deg)] about Y. *)
Theorem handle_cutters_placement (math_cos math_sin : Q -> Q)
    (cfg : Settings) (segment_name : string) (angle_deg : Q) :
  (forall t, (math_cos t * math_cos t + math_sin t * math_sin t == 1)%Q) ->
  (0 < angle_deg)%Q ->
  let half := math_radians (angle_deg / 2) in
  let t := (- half * 0.75)%Q in
  let r :=
    (inner_radius cfg - thickness cfg * handle_depth_frac cfg * 0.6)%Q in
  exists front back : Cutter,
    create_handle_cutters math_cos math_sin cfg segment_name angle_deg
    = [ front; back ]
    /\ (half == math_radians angle_deg / 2)%Q
    /\ (- half < t)%Q /\ (t < 0)%Q
    /\ (forall c, In c [ front; back ] ->
          cutter_primitive c = PrimCube 1
          /\ vert_x (cutter_location c) = (r * math_cos t)%Q
          /\ vert_z (cutter_location c) = (r * math_sin t)%Q
          /\ (radius_sq (cutter_location c) == r * r)%Q
          /\ cutter_rotation_euler c
             = (0, t + math_radians (handle_diagonal_deg cfg),
                math_radians 90)%Q)
    /\ (vert_y (cutter_location front) == 0.32 * ring_length cfg)%Q
    /\ (vert_y (cutter_location back) == - (0.32 * ring_length cfg))%Q.
Proof.
  intros Hcs Hpos. cbv zeta.
  assert (Hhalf : (0 < math_radians (angle_deg / 2))%Q).
  { apply math_radians_pos. apply Qlt_shift_div_l; [ reflexivity | ].
    now rewrite Qmult_0_l. }
  eexists. eexists. split.
  - unfold create_handle_cutters. cbn [fold_left app]. reflexivity.
  - split; [ unfold math_radians; field | ].
    split; [ lra | ]. split; [ lra | ].
    split; [ | split; cbn [cutter_location vert_y]; field ].
    intros c [ <- | [ <- | [] ] ];
      cbn [cutter_primitive cutter_location cutter_rotation_euler vert_x
           vert_z radius_sq];
      repeat split;
      match goal with
      | |- (?r * math_cos ?t * _ + _ == _)%Q =>
          transitivity
            (r * r * (math_cos t * math_cos t + math_sin t * math_sin t))%Q;
          [ ring | rewrite (Hcs t); ring ]
      end.
Qed.

Lemma handle_cutters_placement_witness :
  let half := math_radians ((3600 # 56) / 2) in
  let t := (- half * 0.75)%Q in
  let r :=
    (inner_radius user_settings
     - thickness user_settings * handle_depth_frac user_settings * 0.6)%Q in
  exists front back : Cutter,
    create_handle_cutters (fun _ => 1%Q) (fun _ => 0%Q) user_settings
      "Regular" (3600 # 56)
    = [ front; back ]
    /\ (half == math_radians (3600 # 56) / 2)%Q
    /\ (- half < t)%Q /\ (t < 0)%Q
    /\ (forall c, In c [ front; back ] ->
          cutter_primitive c = PrimCube 1
          /\ vert_x (cutter_location c) = (r * 1)%Q
          /\ vert_z (cutter_location c) = (r * 0)%Q
          /\ (radius_sq (cutter_location c) == r * r)%Q
          /\ cutter_rotation_euler c
             = (0, t + math_radians (handle_diagonal_deg user_settings),
                math_radians 90)%Q)
    /\ (vert_y (cutter_location front)
        == 0.32 * ring_length user_settings)%Q
    /\ (vert_y (cutter_location back)
        == - (0.32 * ring_length user_settings))%Q.
Proof.
  apply (handle_cutters_placement (fun _ => 1%Q) (fun _ => 0%Q)
           user_settings "Regular" (3600 # 56)).
  - intros t. reflexivity.
  - reflexivity.
Defined.

(** X16. Three of the user settings are never read: two sets of
    settings that differ only in [bolt_angle_frac], [bolt_depth_frac] and
    [handle_angle_frac] give the same templates, the same cutters, the
    same node group and the same values for the controller's inputs (the
    bolt pockets are always [0.95 * thickness] deep and on the centre
    line, the handle holes always at [0.75] of the half-angle). *)
Theorem unused_settings (math_cos math_sin : Q -> Q)
    (host_identifier : nat -> string) (a b : Settings)
    (reg key : string) :
  same_but_fracs a b ->
  make_templates math_cos math_sin a = make_templates math_cos math_sin b
  /\ tunnel_node_group host_identifier a = tunnel_node_group host_identifier b
  /\ controller_inputs a reg key = controller_inputs b reg key.
Proof.
  destruct a, b. unfold same_but_fracs.
  cbn [inner_radius thickness ring_length full_circle_res regular_count
       key_angle_factor bolt_radius handle_width_tan handle_height_tan
       handle_depth_frac handle_diagonal_deg gn_ring_count gn_ring_spacing
       gn_rot_jitter_deg gn_pos_jitter gn_seed].
  intros (H1 & H2 & H3 & H4 & H5 & H6 & H7 & H8 & H9 & H10 & H11 & H12
          & H13 & H14 & H15 & H16).
  subst.
  unfold make_templates, tunnel_node_group, controller_inputs,
    regular_angle_deg, key_angle_deg, make_segment_mesh, segment_steps,
    ring_verts, create_bolt_cutters, create_handle_cutters,
    build_tunnel_graph, step2_regular, step3_key, key_rot_angle,
    set_defaults, set_socket_default.
  cbn [inner_radius thickness ring_length full_circle_res regular_count
       key_angle_factor bolt_radius handle_width_tan handle_height_tan
       handle_depth_frac handle_diagonal_deg gn_ring_count gn_ring_spacing
       gn_rot_jitter_deg gn_pos_jitter gn_seed].
  split; [ reflexivity | ]. split; reflexivity.
Qed.

Lemma unused_settings_witness :
  let b :=
    {| inner_radius := 2.45; thickness := 0.30; ring_length := 1.5;
       full_circle_res := 128; regular_count := 5;
       key_angle_factor := 0.6; bolt_angle_frac := 0.9;
       bolt_radius := 0.10; bolt_depth_frac := 0.8;
       handle_angle_frac := 0.1; handle_width_tan := 0.45;
       handle_height_tan := 0.18; handle_depth_frac := 0.30;
       handle_diagonal_deg := 15.0; gn_ring_count := 10;
       gn_ring_spacing := 1.5; gn_rot_jitter_deg := 40;
       gn_pos_jitter := 0.01; gn_seed := 27 |} in
  make_templates (fun _ => 1%Q) (fun _ => 0%Q) user_settings
  = make_templates (fun _ => 1%Q) (fun _ => 0%Q) b
  /\ tunnel_node_group (fun _ => "Socket"%string) user_settings
     = tunnel_node_group (fun _ => "Socket"%string) b
  /\ controller_inputs user_settings "Segment (Regular)" "Segment (Key)"
     = controller_inputs b "Segment (Regular)" "Segment (Key)".
Proof.
  cbv zeta.
  apply (unused_settings (fun _ => 1%Q) (fun _ => 0%Q)
           (fun _ => "Socket"%string) user_settings).
  unfold same_but_fracs. cbn. repeat split.
Defined.

(** ** The ["Tunnel"] collection *)

Lemma find_map_names {A} (p : A -> bool) (g : A -> A) (l : list A) :
  (forall x, p (g x) = p x) ->
  find p (map g l) = option_map g (find p l).
Proof.
  intros Hp. induction l as [ | x l IH ]; [ reflexivity | ].
  cbn [map find]. rewrite Hp. destruct (p x); [ reflexivity | exact IH ].
Qed.

Lemma found_name {A} (f : A -> string) (l : list A) (n : string) (x : A) :
  find (fun y => String.eqb (f y) n) l = Some x -> In x l /\ f x = n.
Proof.
  intros H. apply find_some in H as (Hin & E).
  apply String.eqb_eq in E. auto.
Qed.

Lemma filter_idem {A} (p : A -> bool) (l : list A) :
  filter p (filter p l) = filter p l.
Proof.
  rewrite filter_filter. apply filter_ext. intros x. now destruct (p x).
Qed.

Lemma not_mem_filter (obj : string) (l : list string) :
  mem obj l = false ->
  filter (fun x => negb (String.eqb x obj)) l = l.
Proof.
  intros Hm. apply filter_all. intros x Hx.
  apply negb_true_iff, String.eqb_neq. intros ->.
  apply mem_false in Hm. contradiction.
Qed.

(** [link_to_tunnel_only] on a collection and an object that exist. *)
Lemma link_to_tunnel_only_run (s : GenState) (coll obj : string)
    (c : Collection) (o : DataObject) :
  find (fun x => String.eqb (coll_name x) coll) (collections (gen_data s))
  = Some c ->
  find (fun x => String.eqb (obj_name x) obj) (objects (gen_data s))
  = Some o ->
  link_to_tunnel_only coll obj s
  = Done tt
      {| gen_data :=
           if mem obj (coll_objects c) then gen_data s
           else link_object coll obj (gen_data s);
         scene_objects :=
           filter (fun x => negb (String.eqb x obj)) (scene_objects s);
         scene_children := scene_children s |}.
Proof.
  intros Hc Ho.
  destruct (found_name obj_name _ _ _ Ho) as (_ & Hn).
  destruct s as [ d so sc ].
  cbn [gen_data scene_objects scene_children] in *.
  assert (Hso : mem obj so = false ->
                filter (fun x => negb (String.eqb x obj)) so = so)
    by apply not_mem_filter.
  unfold link_to_tunnel_only, scene_objects_unlink, collection_objects_link,
    bind, on_data, object_get, collection_get, get, modify, ret.
  repeat (cbn [negb gen_data scene_objects scene_children objects
               link_object];
          first [ rewrite Ho | rewrite Hc | rewrite Hn ]).
  destruct (mem obj (coll_objects c)) eqn:Hm;
    repeat (cbn [negb gen_data scene_objects scene_children objects
                 link_object];
            first [ rewrite Ho | rewrite Hc | rewrite Hn | rewrite Hm ]);
    destruct (mem obj so) eqn:Hs;
    repeat (cbn [negb gen_data scene_objects scene_children objects
                 link_object];
            first [ rewrite Ho | rewrite Hn | rewrite Hs ]);
    cbn [negb gen_data scene_objects scene_children objects link_object];
    rewrite ?Hso by reflexivity; reflexivity.
Qed.

(** It completes only when both exist. *)
Lemma link_to_tunnel_only_done (s s' : GenState) (coll obj : string) :
  link_to_tunnel_only coll obj s = Done tt s' ->
  exists c o,
    find (fun x => String.eqb (coll_name x) coll) (collections (gen_data s))
    = Some c
    /\ find (fun x => String.eqb (obj_name x) obj) (objects (gen_data s))
       = Some o.
Proof.
  unfold link_to_tunnel_only, bind, on_data, object_get, collection_get.
  destruct (find _ (objects (gen_data s))) as [ o | ]; [ | discriminate ].
  cbn [gen_data].
  destruct (find _ (collections (gen_data s))) as [ c | ];
    [ | discriminate ].
  intros _. exists c, o. auto.
Qed.

(** Linking an object that exists to a collection that does not link it
    yet keeps the data well formed. *)
Lemma link_object_wf (d : BlendData) (coll obj : string) (c : Collection) :
  wf_data d = true ->
  find (fun x => String.eqb (coll_name x) coll) (collections d) = Some c ->
  In obj (map obj_name (objects d)) ->
  mem obj (coll_objects c) = false ->
  wf_data (link_object coll obj d) = true.
Proof.
  intros Hwf Hc Ho Hm.
  destruct (wf_data_spec d Hwf) as (Hcn & Hon & Hl & Hmn & Hgn).
  destruct (found_name coll_name _ _ _ Hc) as (Hcin & Hcname).
  unfold wf_data. rewrite !andb_true_iff, !nodupb_NoDup, forallb_forall.
  cbn [collections objects meshes node_groups link_object].
  repeat apply conj; try assumption.
  - rewrite map_map.
    rewrite (map_ext _ coll_name); [ exact Hcn | ].
    intros x. now destruct (String.eqb (coll_name x) coll).
  - intros x' Hx'. apply in_map_iff in Hx' as (x & <- & Hx).
    destruct (Hl x Hx) as (Hnd & Hincl).
    destruct (String.eqb (coll_name x) coll) eqn:E.
    + apply String.eqb_eq in E.
      assert (x = c)
        by (apply (same_name_same_item coll_name (collections d));
            auto; congruence).
      subst x. cbn [coll_objects]. apply andb_true_iff. split.
      * apply nodupb_NoDup. apply NoDup_app; [ exact Hnd | | ].
        -- repeat constructor. intros [].
        -- intros a Ha [ <- | [] ]. apply mem_false in Hm. contradiction.
      * apply forallb_forall. intros y Hy. apply mem_In.
        apply in_app_or in Hy as [ Hy | [ <- | [] ] ]; auto.
    + apply andb_true_iff. split.
      * now apply nodupb_NoDup.
      * apply forallb_forall. intros y Hy. apply mem_In. auto.
Qed.

(** The data after the first half of [link_to_tunnel_only]: well formed,
    with the object among the links of the collection. *)
Lemma link_to_tunnel_only_data (d : BlendData) (coll obj : string)
    (c : Collection) :
  wf_data d = true ->
  find (fun x => String.eqb (coll_name x) coll) (collections d) = Some c ->
  In obj (map obj_name (objects d)) ->
  let d' := if mem obj (coll_objects c) then d else link_object coll obj d in
  wf_data d' = true
  /\ exists c',
       find (fun x => String.eqb (coll_name x) coll) (collections d')
       = Some c'
       /\ mem obj (coll_objects c') = true.
Proof.
  intros Hwf Hc Hobj. cbv zeta.
  destruct (found_name coll_name _ _ _ Hc) as (Hcin & Hcn).
  destruct (mem obj (coll_objects c)) eqn:Hm.
  - split; [ exact Hwf | ]. exists c. auto.
  - split; [ now apply (link_object_wf d coll obj c) | ].
    exists {| coll_name := coll_name c;
              coll_objects := coll_objects c ++ [ obj ] |}.
    split.
    + cbn [collections link_object].
      rewrite find_map_names, Hc.
      * cbn [option_map]. now rewrite Hcn, String.eqb_refl.
      * intros x. now destruct (String.eqb (coll_name x) coll) eqn:E.
    + apply mem_In. cbn [coll_objects]. apply in_or_app. right. now left.
Qed.

(** X17. [link_to_tunnel_only] (lines 101-106) on well-formed data, for
    a collection and an object that exist: it completes; the object is
    then linked to the collection, once, and no longer to the scene
    collection; the data stay well formed; the objects and the other
    collections are untouched; and calling it again changes nothing. *)
Theorem link_to_tunnel_only_links (s : GenState) (coll obj : string) :
  wf_data (gen_data s) = true ->
  In coll (map coll_name (collections (gen_data s))) ->
  In obj (map obj_name (objects (gen_data s))) ->
  exists s' : GenState,
    link_to_tunnel_only coll obj s = Done tt s'
    /\ wf_data (gen_data s') = true
    /\ (exists c',
          In c' (collections (gen_data s'))
          /\ coll_name c' = coll
          /\ In obj (coll_objects c')
          /\ NoDup (coll_objects c'))
    /\ ~ In obj (scene_objects s')
    /\ (forall x, x <> obj -> In x (scene_objects s) ->
                  In x (scene_objects s'))
    /\ objects (gen_data s') = objects (gen_data s)
    /\ (forall c, In c (collections (gen_data s)) -> coll_name c <> coll ->
                  In c (collections (gen_data s')))
    /\ link_to_tunnel_only coll obj s' = Done tt s'.
Proof.
  intros Hwf Hcoll Hobj.
  destruct (find_name_some coll_name _ _ Hcoll) as (c & Hc & Hcin & Hcn).
  destruct (find_name_some obj_name _ _ Hobj) as (o & Ho & Hoin & Hon).
  rewrite (link_to_tunnel_only_run s coll obj c o Hc Ho).
  eexists. split; [ reflexivity | ].
  cbn [gen_data scene_objects scene_children].
  destruct (link_to_tunnel_only_data (gen_data s) coll obj c Hwf Hc Hobj)
    as (Hwf' & c' & Hc' & Hm').
  destruct (found_name coll_name _ _ _ Hc') as (Hin' & Hn').
  destruct (wf_data_spec _ Hwf') as (_ & _ & Hl' & _ & _).
  destruct (Hl' c' Hin') as (Hnd' & _).
  split; [ exact Hwf' | ].
  split; [ exists c'; repeat split; auto; now apply mem_In | ].
  split.
  { intros Hin. apply filter_In in Hin as (_ & Hne).
    now rewrite String.eqb_refl in Hne. }
  split.
  { intros x Hne Hin. apply filter_In. split; [ exact Hin | ].
    now apply negb_true_iff, String.eqb_neq. }
  split; [ now destruct (mem obj (coll_objects c)) | ].
  split.
  { intros x Hx Hne. destruct (mem obj (coll_objects c)); [ exact Hx | ].
    cbn [collections link_object].
    apply in_map_iff. exists x. split; [ | exact Hx ].
    apply String.eqb_neq in Hne. now rewrite Hne. }
  match goal with
  | |- link_to_tunnel_only coll obj ?t = _ =>
      rewrite (link_to_tunnel_only_run t coll obj c' o Hc');
      cbn [gen_data scene_objects scene_children]
  end.
  - now rewrite Hm', filter_idem.
  - now destruct (mem obj (coll_objects c)).
Qed.

(** A file in which the host has linked a new cutter to the scene
    collection, next to a ["Tunnel"] collection that the script has just
    made. *)
Lemma link_to_tunnel_only_links_witness :
  let s :=
    {| gen_data :=
         {| collections := [ {| coll_name := "Tunnel"; coll_objects := [] |} ];
            objects :=
              [ {| obj_name := "Bolt Pocket (Back) - Regular";
                   obj_data := Some "Cylinder"%string |} ];
            meshes := [ {| mesh_name := "Cylinder"; mesh_other_users := 0 |} ];
            node_groups := [] |};
       scene_objects := [ "Bolt Pocket (Back) - Regular"%string ];
       scene_children := [ "Tunnel"%string ] |} in
  exists s' : GenState,
    link_to_tunnel_only "Tunnel" "Bolt Pocket (Back) - Regular" s
    = Done tt s'
    /\ wf_data (gen_data s') = true
    /\ (exists c',
          In c' (collections (gen_data s'))
          /\ coll_name c' = "Tunnel"%string
          /\ In "Bolt Pocket (Back) - Regular"%string (coll_objects c')
          /\ NoDup (coll_objects c'))
    /\ ~ In "Bolt Pocket (Back) - Regular"%string (scene_objects s')
    /\ (forall x, x <> "Bolt Pocket (Back) - Regular"%string ->
                  In x (scene_objects s) -> In x (scene_objects s'))
    /\ objects (gen_data s') = objects (gen_data s)
    /\ (forall c, In c (collections (gen_data s)) ->
                  coll_name c <> "Tunnel"%string ->
                  In c (collections (gen_data s')))
    /\ link_to_tunnel_only "Tunnel" "Bolt Pocket (Back) - Regular" s'
       = Done tt s'.
Proof.
  cbv zeta. apply link_to_tunnel_only_links.
  - vm_compute. reflexivity.
  - simpl. left. reflexivity.
  - simpl. left. reflexivity.
Defined.

(** X18. Whatever [link_to_tunnel_only] has linked to the collection
    ["Tunnel"] is removed by the next [clean_old], whatever its name: the
    cutters, whose names are not on the list, go this way.  On
    well-formed data the call leaves well-formed data, on which
    [clean_old] completes, and what it leaves holds neither the object
    nor a collection named ["Tunnel"]. *)
Theorem linked_objects_are_cleaned (s s' : GenState) (obj : string) :
  wf_data (gen_data s) = true ->
  link_to_tunnel_only "Tunnel" obj s = Done tt s' ->
  exists d' : BlendData,
    clean_old (gen_data s') = Done tt d'
    /\ ~ In obj (map obj_name (objects d'))
    /\ ~ In "Tunnel"%string (map coll_name (collections d')).
Proof.
  intros Hwf Hrun.
  destruct (link_to_tunnel_only_done s s' "Tunnel" obj Hrun)
    as (c & o & Hc & Ho).
  destruct (found_name obj_name _ _ _ Ho) as (Hoin & Hon).
  assert (Hobj : In obj (map obj_name (objects (gen_data s))))
    by (rewrite <- Hon; now apply in_map).
  rewrite (link_to_tunnel_only_run s "Tunnel" obj c o Hc Ho) in Hrun.
  injection Hrun as <-. cbn [gen_data].
  destruct (link_to_tunnel_only_data (gen_data s) "Tunnel" obj c Hwf Hc Hobj)
    as (Hwf' & c' & Hc' & Hm').
  destruct (found_name coll_name _ _ _ Hc') as (Hin' & Hn').
  match goal with
  | |- exists d', clean_old ?d = _ /\ _ => exists (cleaned d)
  end.
  split; [ now apply clean_old_run | ]. split.
  - rewrite cleaned_objects. intros Hin.
    apply in_map_iff in Hin as (x & Hx & Hin).
    apply filter_In in Hin as (_ & Hkeep).
    apply negb_true_iff in Hkeep. unfold to_remove in Hkeep.
    apply orb_false_elim in Hkeep as (Hk & _).
    rewrite Hx in Hk.
    unfold in_kill_collection in Hk.
    assert (Hyes : existsb
                     (fun c0 => is_kill_collection (coll_name c0)
                                && mem obj (coll_objects c0))
                     (collections
                        (if mem obj (coll_objects c) then gen_data s
                         else link_object "Tunnel" obj (gen_data s)))
                   = true).
    { apply existsb_exists. exists c'.
      split; [ exact Hin' | ]. now rewrite Hn', Hm'. }
    congruence.
  - rewrite (cleaned_collections _ Hwf'), map_map. cbn [coll_name].
    intros Hin. apply in_map_iff in Hin as (x & Hx & Hin).
    apply filter_In in Hin as (_ & Hkeep).
    rewrite Hx in Hkeep. discriminate.
Qed.

Lemma linked_objects_are_cleaned_witness :
  let s :=
    {| gen_data :=
         {| collections := [ {| coll_name := "Tunnel"; coll_objects := [] |} ];
            objects :=
              [ {| obj_name := "Bolt Pocket (Back) - Regular";
                   obj_data := Some "Cylinder"%string |} ];
            meshes := [ {| mesh_name := "Cylinder"; mesh_other_users := 0 |} ];
            node_groups := [] |};
       scene_objects := [ "Bolt Pocket (Back) - Regular"%string ];
       scene_children := [ "Tunnel"%string ] |} in
  let s' :=
    final_state
      (link_to_tunnel_only "Tunnel" "Bolt Pocket (Back) - Regular" s) in
  name_is_killed "Bolt Pocket (Back) - Regular" = false
  /\ exists d' : BlendData,
       clean_old (gen_data s') = Done tt d'
       /\ ~ In "Bolt Pocket (Back) - Regular"%string
            (map obj_name (objects d'))
       /\ ~ In "Tunnel"%string (map coll_name (collections d')).
Proof.
  cbv zeta. split; [ reflexivity | ].
  apply (linked_objects_are_cleaned
           {| gen_data :=
                {| collections :=
                     [ {| coll_name := "Tunnel"; coll_objects := [] |} ];
                   objects :=
                     [ {| obj_name := "Bolt Pocket (Back) - Regular";
                          obj_data := Some "Cylinder"%string |} ];
                   meshes :=
                     [ {| mesh_name := "Cylinder"; mesh_other_users := 0 |} ];
                   node_groups := [] |};
              scene_objects := [ "Bolt Pocket (Back) - Regular"%string ];
              scene_children := [ "Tunnel"%string ] |}).
  - vm_compute. reflexivity.
  - vm_compute. reflexivity.
Defined.

(** X19. What the cleanup makes room for, on well-formed data and with
    a host that gives a free name as it is asked for: after [clean_old]
    no collection is named ["Tunnel"], so the collection of lines 95-98
    is named ["Tunnel"] and not ["Tunnel.001"], and it is added to the
    data and to the children of the scene collection; no object bears the
    name of a template or of the
    controller; and no node group is named ["TBM_TunnelProcedural"], so
    that the removal of lines 297-300 finds nothing to remove, as long as
    no node group is made in between. *)
Theorem cleanup_frees_names (unique_name : string -> list string -> string)
    (d : BlendData) :
  wf_data d = true ->
  (forall n taken, ~ In n taken -> unique_name n taken = n) ->
  exists d' : BlendData,
    clean_old d = Done tt d'
    /\ (forall s,
          gen_data s = d' ->
          exists s',
            make_tunnel_collection unique_name s = Done "Tunnel"%string s'
            /\ collections (gen_data s')
               = collections d'
                 ++ [ {| coll_name := "Tunnel"; coll_objects := [] |} ]
            /\ scene_children s' = scene_children s ++ [ "Tunnel"%string ]
            /\ scene_objects s' = scene_objects s)
    /\ Forall (fun n => ~ In n (map obj_name (objects d')))
         [ "Segment (Regular)"; "Segment (Key)"; "Tunnel Controller" ]%string
    /\ (forall d2,
          node_groups d2 = node_groups d' ->
          remove_old_node_group d2 = Done tt d2).
Proof.
  intros Hwf Hfree. exists (cleaned d).
  split; [ now apply clean_old_run | ].
  assert (Hno : ~ In "Tunnel"%string
                    (map coll_name (collections (cleaned d)))).
  { rewrite (cleaned_collections _ Hwf), map_map. cbn [coll_name].
    intros Hin. apply in_map_iff in Hin as (x & Hx & Hin).
    apply filter_In in Hin as (_ & Hkeep).
    rewrite Hx in Hkeep. discriminate. }
  split; [ | split ].
  - intros s Hs. unfold make_tunnel_collection, bind, on_data,
      collections_new, modify, ret.
    rewrite Hs, (Hfree _ _ Hno).
    cbn [gen_data scene_objects scene_children collections].
    eexists. split; [ reflexivity | ].
    cbn [gen_data scene_objects scene_children collections].
    repeat split.
  - rewrite cleaned_objects.
    repeat constructor; intros Hin;
      apply in_map_iff in Hin as (x & Hx & Hin);
      apply filter_In in Hin as (_ & Hkeep);
      apply negb_true_iff in Hkeep; unfold to_remove in Hkeep;
      apply orb_false_elim in Hkeep as (_ & Hk);
      rewrite Hx in Hk; discriminate.
  - intros d2 Hng. unfold remove_old_node_group, bind, get.
    assert (Hm : mem "TBM_TunnelProcedural" (node_groups d2) = false).
    { apply mem_false. rewrite Hng. unfold cleaned.
      cbn [node_groups after_node_groups after_meshes after_objects
           after_collections].
      intros Hin. apply filter_In in Hin as (_ & Hkeep). discriminate. }
    now rewrite Hm.
Qed.

Lemma cleanup_frees_names_witness :
  exists d' : BlendData,
    clean_old sample_data = Done tt d'
    /\ (forall s,
          gen_data s = d' ->
          exists s',
            make_tunnel_collection sample_unique_name s
            = Done "Tunnel"%string s'
            /\ collections (gen_data s')
               = collections d'
                 ++ [ {| coll_name := "Tunnel"; coll_objects := [] |} ]
            /\ scene_children s' = scene_children s ++ [ "Tunnel"%string ]
            /\ scene_objects s' = scene_objects s)
    /\ Forall (fun n => ~ In n (map obj_name (objects d')))
         [ "Segment (Regular)"; "Segment (Key)"; "Tunnel Controller" ]%string
    /\ (forall d2,
          node_groups d2 = node_groups d' ->
          remove_old_node_group d2 = Done tt d2).
Proof.
  apply (cleanup_frees_names sample_unique_name sample_data).
  - vm_compute. reflexivity.
  - intros n taken H. unfold sample_unique_name.
    apply mem_false in H. now rewrite H.
Defined.

(** ** The interface of the node group and the controller *)

Section InterfaceFacts.

Variable host_identifier : nat -> string.
Variable cfg : Settings.
Variables ra ka : Q.


End InterfaceFacts.

Section AssignmentFacts.

Variable host_identifier : nat -> string.
Variable setitem_error :
  list (string * PropValue) -> string -> PropValue -> option exn.
Variable cfg : Settings.
Variables seg_reg seg_key : string.



End AssignmentFacts.
(** ** The node graph as a whole *)

Section WiringFacts.

Variable host_identifier : nat -> string.
Variable cfg : Settings.
Variables ra ka : Q.

(** X21. The node graph the script builds (lines 321-524), for all
    settings: it has 35 nodes and 43 links; every link joins two nodes of
    the tree; no input receives two links, except the [Geometry] input of
    the Join Geometry node, which receives the two sets of instances, so
    that no link the script makes displaces an earlier one; the inputs of
    a node are addressed in one way only, by name or by position; and the
    Group Output node is fed by the last Realize Instances node. *)
Theorem graph_wiring :
  match build_tunnel_graph cfg ra ka host_identifier
          (node_groups_new "TBM_TunnelProcedural" "GeometryNodeTree") with
  | Done vars g =>
      List.length (nt_nodes g) = 35%nat
      /\ List.length (nt_links g) = 43%nat
      /\ forallb (link_in_range g) (nt_links g) = true
      /\ forallb (alone_or_joined g) (nt_links g) = true
      /\ forallb (one_addressing g) (nt_links g) = true
      /\ match upstream g (v_realize_ring vars) (ByName "Geometry") with
         | Some join =>
             node_type_at g join = "GeometryNodeJoinGeometry"%string
             /\ links_into g join (ByName "Geometry") = 2%nat
         | None => False
         end
      /\ upstream g (v_group_out vars) (ByName "Geometry")
         = Some (v_realize_final vars)
  | Raised _ _ => False
  end.
Proof.
  cbv -[Qplus Qmult Qdiv Qopp Qminus inject_Z math_radians key_rot_angle
        regular_count gn_ring_count gn_ring_spacing gn_rot_jitter_deg
        gn_pos_jitter gn_seed].
  repeat split.
Qed.

End WiringFacts.

(** ** The rings along the tunnel *)

Section RingFacts.

Variable host_identifier : nat -> string.
Variable cfg : Settings.
Variables ra ka : Q.
Variable host_random : Q -> Q -> Q -> Z -> Q.
Variable inputs : nat -> option SockVal.

Lemma all_some_const_map {A B} (f : A -> B) (l : list A) :
  all_some (map (fun x => Some (f x)) l) = Some (map f l).
Proof.
  induction l as [ | x l IH ]; cbn; [ reflexivity | now rewrite IH ].
Qed.

(** X22. Step 5 of the node graph (lines 436-466), for a modifier whose
    third input (Ring Count) is the integer [n] and whose fourth input
    (Ring Spacing) is [d]: the rings are instanced on [n] points, and the
    point of index [i] is at [(0, i * d, 0)]: the rings follow one
    another along Y, [d] apart, the first at the origin. *)
Theorem ring_placement (n : Z) (d : SockVal) :
  inputs 2%nat = Some (VInt n) ->
  inputs 3%nat = Some d ->
  match build_tunnel_graph cfg ra ka host_identifier
          (node_groups_new "TBM_TunnelProcedural" "GeometryNodeTree") with
  | Done vars g =>
      instance_positions host_random inputs g (v_inst_rings vars)
      = Some (map (fun i =>
                     (Some 0%Q, Some (inject_Z i * sockval_float d)%Q,
                      Some 0%Q))
                (pyrange n))
  | Raised _ _ => False
  end.
Proof.
  intros Hn Hd.
  cbv -[map all_some pyrange Qplus Qmult Qdiv Qopp Qminus inject_Z
        math_radians key_rot_angle regular_count gn_ring_count
        gn_ring_spacing gn_rot_jitter_deg gn_pos_jitter gn_seed
        sockval_float].
  rewrite Hn, Hd. cbv beta iota.
  apply (all_some_const_map
           (fun i => (Some 0%Q, Some (inject_Z i * sockval_float d)%Q,
                      Some 0%Q))).
Qed.

End RingFacts.

(** ** The jitter of the rings *)

Section JitterFacts.

Variable host_identifier : nat -> string.
Variable cfg : Settings.
Variables ra ka : Q.
Variable host_random : Q -> Q -> Q -> Z -> Q.
Variable inputs : nat -> option SockVal.

(** The two jitter vectors, as the graph computes them. *)
Lemma built_graph_jitter (J P seed : SockVal) :
  inputs 4%nat = Some J ->
  inputs 5%nat = Some P ->
  inputs 6%nat = Some seed ->
  match build_tunnel_graph cfg ra ka host_identifier
          (node_groups_new "TBM_TunnelProcedural" "GeometryNodeTree") with
  | Done vars g =>
      match upstream g (v_realize_final vars) (ByName "Geometry") with
      | Some jitter_pos =>
          match upstream g jitter_pos (ByName "Geometry") with
          | Some rot_rings =>
              node_type_at g jitter_pos = "GeometryNodeSetPosition"%string
              /\ node_type_at g rot_rings
                 = "GeometryNodeRotateInstances"%string
              /\ upstream g rot_rings (ByName "Instances")
                 = Some (v_inst_rings vars)
              /\ forall i,
                   eval_vector host_random inputs
                     (S (List.length (nt_nodes g))) g rot_rings
                     (ByName "Rotation") i
                   = Some
                       (None,
                        Some
                          (host_random (sockval_float J * -1)
                             (sockval_float J) (sockval_float seed) i
                           * (math_pi / 180))%Q,
                        None)
                   /\ eval_vector host_random inputs
                        (S (List.length (nt_nodes g))) g jitter_pos
                        (ByName "Offset") i
                      = Some
                          (None,
                           Some
                             (host_random (sockval_float P * -1)
                                (sockval_float P) (sockval_float seed) i),
                           None)
          | None => False
          end
      | None => False
      end
  | Raised _ _ => False
  end.
Proof.
  intros HJ HP Hseed.
  cbv -[Qplus Qmult Qdiv Qopp Qminus inject_Z math_radians key_rot_angle
        regular_count gn_ring_count gn_ring_spacing gn_rot_jitter_deg
        gn_pos_jitter gn_seed sockval_float math_pi].
  rewrite HJ, HP, Hseed. cbv beta iota.
  repeat split.
Qed.
(** X23. Steps 6 and 7 of the node graph (lines 469-518), for a
    modifier whose fifth, sixth and seventh inputs (Rot Jitter Deg, Pos
    Jitter, Seed) are [J], [P] and [seed], with a host whose random
    floats lie between the bounds they are given: the ring of index [i]
    is turned about Y only, by a random number of degrees between [-J]
    and [J] converted to radians with [pi / 180], and is moved along Y
    only, by a random length between [-P] and [P]; both numbers are
    drawn with the same seed and for the same index.  The X and Z
    components of the two vectors are left to the host. *)
Theorem ring_jitter (J P seed : SockVal) :
  inputs 4%nat = Some J ->
  inputs 5%nat = Some P ->
  inputs 6%nat = Some seed ->
  (forall lo hi sd i,
     (lo <= hi)%Q ->
     (lo <= host_random lo hi sd i)%Q /\ (host_random lo hi sd i <= hi)%Q) ->
  (0 <= sockval_float J)%Q ->
  (0 <= sockval_float P)%Q ->
  match build_tunnel_graph cfg ra ka host_identifier
          (node_groups_new "TBM_TunnelProcedural" "GeometryNodeTree") with
  | Done vars g =>
      match upstream g (v_realize_final vars) (ByName "Geometry") with
      | Some jitter_pos =>
          match upstream g jitter_pos (ByName "Geometry") with
          | Some rot_rings =>
              upstream g rot_rings (ByName "Instances")
              = Some (v_inst_rings vars)
              /\ forall i, exists degrees length : Q,
                   degrees
                   = host_random (sockval_float J * -1) (sockval_float J)
                       (sockval_float seed) i
                   /\ length
                      = host_random (sockval_float P * -1) (sockval_float P)
                          (sockval_float seed) i
                   /\ eval_vector host_random inputs
                        (S (List.length (nt_nodes g))) g rot_rings
                        (ByName "Rotation") i
                      = Some (None, Some (degrees * (math_pi / 180))%Q, None)
                   /\ eval_vector host_random inputs
                        (S (List.length (nt_nodes g))) g jitter_pos
                        (ByName "Offset") i
                      = Some (None, Some length, None)
                   /\ (- sockval_float J <= degrees)%Q
                   /\ (degrees <= sockval_float J)%Q
                   /\ (- math_radians (sockval_float J)
                       <= degrees * (math_pi / 180))%Q
                   /\ (degrees * (math_pi / 180)
                       <= math_radians (sockval_float J))%Q
                   /\ (- sockval_float P <= length)%Q
                   /\ (length <= sockval_float P)%Q
          | None => False
          end
      | None => False
      end
  | Raised _ _ => False
  end.
Proof.
  intros HJ HP Hseed Hrand HJ0 HP0.
  pose proof (built_graph_jitter J P seed HJ HP Hseed) as H.
  destruct (build_tunnel_graph cfg ra ka host_identifier _)
    as [ vars g | e g ]; [ | exact H ].
  destruct (upstream g (v_realize_final vars) (ByName "Geometry"))
    as [ jitter_pos | ]; [ | exact H ].
  destruct (upstream g jitter_pos (ByName "Geometry"))
    as [ rot_rings | ]; [ | exact H ].
  destruct H as (_ & _ & Hup & Hvec).
  split; [ exact Hup | ].
  intros i. destruct (Hvec i) as (Hrot & Hoff).
  destruct (Hrand (sockval_float J * -1)%Q (sockval_float J)
              (sockval_float seed) i) as (Hlo & Hhi); [ lra | ].
  destruct (Hrand (sockval_float P * -1)%Q (sockval_float P)
              (sockval_float seed) i) as (Plo & Phi); [ lra | ].
  eexists. eexists.
  split; [ reflexivity | ]. split; [ reflexivity | ].
  split; [ exact Hrot | ]. split; [ exact Hoff | ].
  assert (Hpi : (0 < math_pi / 180)%Q) by reflexivity.
  unfold math_radians.
  repeat apply conj; try lra; nra.
Qed.

End JitterFacts.

(** The two properties on the values the controller assigns, with a host
    whose random float is always the lower bound. *)
Lemma ring_placement_witness :
  match build_tunnel_graph user_settings 1 1 (fun _ => "Socket"%string)
          (node_groups_new "TBM_TunnelProcedural" "GeometryNodeTree") with
  | Done vars g =>
      instance_positions (fun lo _ _ _ => lo)
        (fun k =>
           nth k
             [ None; None; Some (VInt 10); Some (VFloat 1.5);
               Some (VInt 40); Some (VFloat 0.01); Some (VInt 27) ]
             None)
        g (v_inst_rings vars)
      = Some (map (fun i =>
                     (Some 0%Q,
                      Some (inject_Z i * sockval_float (VFloat 1.5))%Q,
                      Some 0%Q))
                (pyrange 10))
  | Raised _ _ => False
  end.
Proof.
  apply (ring_placement (fun _ => "Socket"%string) user_settings 1 1
           (fun lo _ _ _ => lo)
           (fun k =>
              nth k
                [ None; None; Some (VInt 10); Some (VFloat 1.5);
                  Some (VInt 40); Some (VFloat 0.01); Some (VInt 27) ]
                None)
           10 (VFloat 1.5)).
  - reflexivity.
  - reflexivity.
Defined.

Lemma ring_jitter_witness :
  let host_random := fun (lo _ _ : Q) (_ : Z) => lo in
  let inputs :=
    fun k =>
      nth k
        [ None; None; Some (VInt 10); Some (VFloat 1.5);
          Some (VInt 40); Some (VFloat 0.01); Some (VInt 27) ]
        None in
  let J := VInt 40 in
  let P := VFloat 0.01 in
  let seed := VInt 27 in
  match build_tunnel_graph user_settings 1 1 (fun _ => "Socket"%string)
          (node_groups_new "TBM_TunnelProcedural" "GeometryNodeTree") with
  | Done vars g =>
      match upstream g (v_realize_final vars) (ByName "Geometry") with
      | Some jitter_pos =>
          match upstream g jitter_pos (ByName "Geometry") with
          | Some rot_rings =>
              upstream g rot_rings (ByName "Instances")
              = Some (v_inst_rings vars)
              /\ forall i, exists degrees length : Q,
                   degrees
                   = host_random (sockval_float J * -1)%Q (sockval_float J)
                       (sockval_float seed) i
                   /\ length
                      = host_random (sockval_float P * -1)%Q (sockval_float P)
                          (sockval_float seed) i
                   /\ eval_vector host_random inputs
                        (S (List.length (nt_nodes g))) g rot_rings
                        (ByName "Rotation") i
                      = Some (None, Some (degrees * (math_pi / 180))%Q, None)
                   /\ eval_vector host_random inputs
                        (S (List.length (nt_nodes g))) g jitter_pos
                        (ByName "Offset") i
                      = Some (None, Some length, None)
                   /\ (- sockval_float J <= degrees)%Q
                   /\ (degrees <= sockval_float J)%Q
                   /\ (- math_radians (sockval_float J)
                       <= degrees * (math_pi / 180))%Q
                   /\ (degrees * (math_pi / 180)
                       <= math_radians (sockval_float J))%Q
                   /\ (- sockval_float P <= length)%Q
                   /\ (length <= sockval_float P)%Q
          | None => False
          end
      | None => False
      end
  | Raised _ _ => False
  end.
Proof.
  cbv zeta.
  apply (ring_jitter (fun _ => "Socket"%string) user_settings 1 1
           (fun lo _ _ _ => lo)
           (fun k =>
              nth k
                [ None; None; Some (VInt 10); Some (VFloat 1.5);
                  Some (VInt 40); Some (VFloat 0.01); Some (VInt 27) ]
                None)
           (VInt 40) (VFloat 0.01) (VInt 27)).
  - reflexivity.
  - reflexivity.
  - reflexivity.
  - intros lo hi sd i H. split; [ apply Qle_refl | exact H ].
  - apply Qle_bool_iff. reflexivity.
  - apply Qle_bool_iff. reflexivity.
Defined.
